(** * ai-web-chat: the content-acquisition pipeline and its callers

    A shallow embedding of [src/app/utils/scrape.ts], [cache.ts],
    [contentProcessor.ts], [search.ts] and [GeminiClient.ts] and of the
    route handler of [POST /api/chat], followed by the properties of the
    scrape orchestrator, the quality gate, the cache layer, the content
    processor, the browser pool, the chat history, the search, the
    analysis of the query and the handler.

    Conventions of the embedding.
    - A JavaScript string is the list of its UTF-16 code units ([list N]),
      so [length] is [String.prototype.length] and the regular expressions
      of the source (none has the [u] flag) work on code units.
    - An [async] function is a computation in the effect type [Eff]: it
      reads the replies of the outside world (network, Redis, Chrome, clocks)
      from a [World] record, threads the process state and either returns
      or throws.
    - [console.log], [console.warn] and [console.error] have no effect on
      the state and are left out.

    The file has four parts: the embedding of the pipeline, module by
    module; derived definitions (what the functions compute, written as
    pure functions, the reachable states, sample worlds); the embedding
    of the rest of the code, with its derived definitions; the
    properties. *)

From Stdlib Require Import ZArith NArith QArith List String Ascii Bool Lia.
From stdpp Require Import base option list gmap.

Local Open Scope N_scope.

Abbreviation jsstring := (list N).

(* ===================================================================== *)
(** ** JavaScript strings *)
(* ===================================================================== *)

Module Js.

(** A string literal of the source (all of them are ASCII). *)
Definition lit (s : string) : jsstring :=
  List.map N_of_ascii (list_ascii_of_string s).

Fixpoint str_eqb (a b : jsstring) : bool :=
  match a, b with
  | [], [] => true
  | x :: a', y :: b' => N.eqb x y && str_eqb a' b'
  | _, _ => false
  end.

(** [s.startsWith(p)] *)
Fixpoint startsWith (p s : jsstring) : bool :=
  match p, s with
  | [], _ => true
  | _ :: _, [] => false
  | x :: p', y :: s' => N.eqb x y && startsWith p' s'
  end.

(** [s.includes(p)] *)
Fixpoint includes (p s : jsstring) : bool :=
  startsWith p s ||
  match s with
  | [] => false
  | _ :: s' => includes p s'
  end.

(** The class [\s] of a regular expression, which is also what [trim]
    strips: WhiteSpace and LineTerminator of ECMAScript. *)
Definition is_space (c : N) : bool :=
  ((9 <=? c) && (c <=? 13))
  || (c =? 32) || (c =? 160) || (c =? 5760)
  || ((8192 <=? c) && (c <=? 8202))
  || (c =? 8232) || (c =? 8233) || (c =? 8239) || (c =? 8287)
  || (c =? 12288) || (c =? 65279).

Fixpoint trimStart (s : jsstring) : jsstring :=
  match s with
  | [] => []
  | c :: t => if is_space c then trimStart t else s
  end.

Definition trimEnd (s : jsstring) : jsstring := rev (trimStart (rev s)).

Definition trim (s : jsstring) : jsstring := trimEnd (trimStart s).

(** Put a code unit in front of the first piece of a split. *)
Definition cons_head (c : N) (pieces : list jsstring) : list jsstring :=
  match pieces with
  | [] => [[c]]
  | h :: rest => (c :: h) :: rest
  end.

(** [s.split(/[class]+/)]: the pieces between the maximal runs of code
    units of the class. A run at either end leaves an empty piece there,
    and the empty string splits into one empty piece. [prev] tells that
    the code unit before [s] belonged to a run. *)
Fixpoint split_go (sep : N -> bool) (prev : bool) (s : jsstring)
  : list jsstring :=
  match s with
  | [] => [[]]
  | c :: t =>
      if sep c
      then (if prev then split_go sep true t else [] :: split_go sep true t)
      else cons_head c (split_go sep false t)
  end.

Definition split_runs (sep : N -> bool) (s : jsstring) : list jsstring :=
  split_go sep false s.

(** [s.split(sep)] for a non-empty literal separator. [skip] counts the
    code units of a separator that was just matched and is still to be
    dropped. *)
Fixpoint split_lit_go (sep : jsstring) (skip : nat) (s : jsstring)
  : list jsstring :=
  match s with
  | [] => [[]]
  | c :: t =>
      match skip with
      | S k => split_lit_go sep k t
      | O =>
          if startsWith sep s
          then [] :: split_lit_go sep (Nat.pred (length sep)) t
          else cons_head c (split_lit_go sep O t)
      end
  end.

Definition split_lit (sep s : jsstring) : list jsstring :=
  split_lit_go sep O s.

(** [pieces.join(sep)] *)
Fixpoint join (sep : jsstring) (pieces : list jsstring) : jsstring :=
  match pieces with
  | [] => []
  | [p] => p
  | p :: rest => p ++ sep ++ join sep rest
  end.

(** [s.substring(0, n)] *)
Definition substring0 (n : nat) (s : jsstring) : jsstring := firstn n s.

(** Truthiness of a string: [!s] is true of the empty string only. *)
Definition truthy (s : jsstring) : bool :=
  match s with [] => false | _ :: _ => true end.

(** What can be thrown. [instanceof Error] holds of the first two. *)
Inductive exn : Type :=
| Error (message : jsstring)
| ScrapingError (message url method : jsstring)
| Thrown (as_string : jsstring).

(** [error.message], which is [undefined] on a thrown primitive. *)
Definition message_field (e : exn) : jsstring :=
  match e with
  | Error m => m
  | ScrapingError m _ _ => m
  | Thrown _ => lit "undefined"
  end.

(** [error instanceof Error ? error.message : String(error)] *)
Definition message_or_string (e : exn) : jsstring :=
  match e with
  | Error m => m
  | ScrapingError m _ _ => m
  | Thrown s => s
  end.

End Js.

(* ===================================================================== *)
(** ** [crypto.createHash('sha256').update(s).digest('hex')] *)
(* ===================================================================== *)

Module Sha256.

(** [update] takes a string in UTF-8. A surrogate pair is one code point;
    a surrogate on its own is encoded as U+FFFD. *)
Definition is_high (c : N) : bool := (55296 <=? c) && (c <=? 56319).
Definition is_low (c : N) : bool := (56320 <=? c) && (c <=? 57343).

Definition utf8_point (p : N) : list N :=
  if p <? 128 then [p]
  else if p <? 2048 then [192 + p / 64; 128 + p mod 64]
  else if p <? 65536
  then [224 + p / 4096; 128 + (p / 64) mod 64; 128 + p mod 64]
  else [240 + p / 262144; 128 + (p / 4096) mod 64;
        128 + (p / 64) mod 64; 128 + p mod 64].

(** [pending] is a high surrogate that waits for its low half. *)
Fixpoint utf8_go (pending : option N) (s : jsstring) : list N :=
  match s with
  | [] => match pending with Some _ => utf8_point 65533 | None => [] end
  | c :: t =>
      match pending with
      | Some h =>
          if is_low c
          then utf8_point (65536 + (h - 55296) * 1024 + (c - 56320))
                 ++ utf8_go None t
          else utf8_point 65533 ++
               (if is_high c then utf8_go (Some c) t
                else utf8_point c ++ utf8_go None t)
      | None =>
          if is_high c then utf8_go (Some c) t
          else if is_low c then utf8_point 65533 ++ utf8_go None t
          else utf8_point c ++ utf8_go None t
      end
  end.

Definition utf8 (s : jsstring) : list N := utf8_go None s.

Definition w32 (x : N) : N := x mod 4294967296.
Definition add32 (x y : N) : N := w32 (x + y).
Definition rotr (n x : N) : N :=
  N.lor (N.shiftr x n) (w32 (N.shiftl x (32 - n))).
Definition not32 (x : N) : N := 4294967295 - x.

Definition Ch (x y z : N) : N :=
  N.lxor (N.land x y) (N.land (not32 x) z).
Definition Maj (x y z : N) : N :=
  N.lxor (N.lxor (N.land x y) (N.land x z)) (N.land y z).
Definition Sigma0 (x : N) : N :=
  N.lxor (N.lxor (rotr 2 x) (rotr 13 x)) (rotr 22 x).
Definition Sigma1 (x : N) : N :=
  N.lxor (N.lxor (rotr 6 x) (rotr 11 x)) (rotr 25 x).
Definition sigma0 (x : N) : N :=
  N.lxor (N.lxor (rotr 7 x) (rotr 18 x)) (N.shiftr x 3).
Definition sigma1 (x : N) : N :=
  N.lxor (N.lxor (rotr 17 x) (rotr 19 x)) (N.shiftr x 10).

Definition round_constants : list N :=
[ 1116352408; 1899447441; 3049323471; 3921009573; 961987163; 1508970993;
  2453635748; 2870763221; 3624381080; 310598401; 607225278; 1426881987;
  1925078388; 2162078206; 2614888103; 3248222580; 3835390401; 4022224774;
  264347078; 604807628; 770255983; 1249150122; 1555081692; 1996064986;
  2554220882; 2821834349; 2952996808; 3210313671; 3336571891; 3584528711;
  113926993; 338241895; 666307205; 773529912; 1294757372; 1396182291;
  1695183700; 1986661051; 2177026350; 2456956037; 2730485921; 2820302411;
  3259730800; 3345764771; 3516065817; 3600352804; 4094571909; 275423344;
  430227734; 506948616; 659060556; 883997877; 958139571; 1322822218;
  1537002063; 1747873779; 1955562222; 2024104815; 2227730452; 2361852424;
  2428436474; 2756734187; 3204031479; 3329325298 ].

Definition initial_hash : list N :=
[ 1779033703; 3144134277; 1013904242; 2773480762;
  1359893119; 2600822924; 528734635; 1541459225 ].

(** Padding: the bit 1, zeros up to 56 mod 64, the bit length on 8 bytes. *)
Definition be_bytes (k : nat) (x : N) : list N :=
  List.map (fun i => (N.shiftr x (8 * N.of_nat i)) mod 256) (rev (seq 0 k)).

Definition pad (msg : list N) : list N :=
  let n := length msg in
  let zeros := ((119 - n mod 64) mod 64)%nat in
  msg ++ [128] ++ repeat 0 zeros ++ be_bytes 8 (8 * N.of_nat n).

Fixpoint words_of (fuel : nat) (bs : list N) : list N :=
  match fuel, bs with
  | S f, a :: b :: c :: d :: rest =>
      (((a * 256 + b) * 256 + c) * 256 + d) :: words_of f rest
  | _, _ => []
  end.

(** The message schedule, newest word first. *)
Fixpoint schedule (k : nat) (acc : list N) : list N :=
  match k with
  | O => acc
  | S k' =>
      let at_ i := nth i acc 0 in
      schedule k'
        (add32 (add32 (sigma1 (at_ 1%nat)) (at_ 6%nat))
               (add32 (sigma0 (at_ 14%nat)) (at_ 15%nat)) :: acc)
  end.

Definition round (st : list N) (kw : N * N) : list N :=
  match st with
  | [a; b; c; d; e; f; g; h] =>
      let t1 := add32 (add32 (add32 h (Sigma1 e)) (Ch e f g))
                      (add32 (fst kw) (snd kw)) in
      let t2 := add32 (Sigma0 a) (Maj a b c) in
      [add32 t1 t2; a; b; c; add32 d t1; e; f; g]
  | _ => st
  end.

Definition compress (h : list N) (block : list N) : list N :=
  let ws := rev (schedule 48 (rev block)) in
  let st := fold_left round (combine round_constants ws) h in
  List.map (fun p => add32 (fst p) (snd p)) (combine h st).

Fixpoint blocks (fuel : nat) (ws : list N) : list (list N) :=
  match fuel, ws with
  | S f, _ :: _ => firstn 16 ws :: blocks f (skipn 16 ws)
  | _, _ => []
  end.

Definition digest (msg : list N) : list N :=
  let ws := words_of (length msg + 72) (pad msg) in
  fold_left compress (blocks (length ws) ws) initial_hash.

Definition hex_digit (d : N) : N := if d <? 10 then 48 + d else 87 + d.

Definition hex_word (x : N) : jsstring :=
  flat_map (fun b => [hex_digit (b / 16); hex_digit (b mod 16)])
           (be_bytes 4 x).

Definition sha256_hex (s : jsstring) : jsstring :=
  flat_map hex_word (digest (utf8 s)).

End Sha256.

(* ===================================================================== *)
(** ** Data model ([scrape.ts], [cache.ts]) *)
(* ===================================================================== *)

(** Clock readings ([performance.now()], [Date.now()]) are taken as whole
    ticks. The average word length is the exact quotient. *)

Module Metrics.

(** [method: 'cheerio' | 'puppeteer' | 'cache'] *)
Inductive method : Type := cheerio | puppeteer | cache.

Record t : Type := {
  startTime : Z;
  cheerioAttemptTime : option Z;
  puppeteerAttemptTime : option Z;
  totalTime : Z;
  success : bool;
  method_ : method
}.

Definition set_method (m : method) (x : t) : t :=
  {| startTime := startTime x;
     cheerioAttemptTime := cheerioAttemptTime x;
     puppeteerAttemptTime := puppeteerAttemptTime x;
     totalTime := totalTime x; success := success x; method_ := m |}.

Definition set_totalTime (d : Z) (x : t) : t :=
  {| startTime := startTime x;
     cheerioAttemptTime := cheerioAttemptTime x;
     puppeteerAttemptTime := puppeteerAttemptTime x;
     totalTime := d; success := success x; method_ := method_ x |}.

Definition set_success (b : bool) (x : t) : t :=
  {| startTime := startTime x;
     cheerioAttemptTime := cheerioAttemptTime x;
     puppeteerAttemptTime := puppeteerAttemptTime x;
     totalTime := totalTime x; success := b; method_ := method_ x |}.

Definition set_cheerioAttemptTime (d : Z) (x : t) : t :=
  {| startTime := startTime x;
     cheerioAttemptTime := Some d;
     puppeteerAttemptTime := puppeteerAttemptTime x;
     totalTime := totalTime x; success := success x; method_ := method_ x |}.

Definition set_puppeteerAttemptTime (d : Z) (x : t) : t :=
  {| startTime := startTime x;
     cheerioAttemptTime := cheerioAttemptTime x;
     puppeteerAttemptTime := Some d;
     totalTime := totalTime x; success := success x; method_ := method_ x |}.

End Metrics.

Record ContentStats : Type := {
  wordCount : nat;
  characterCount : nat;
  paragraphCount : nat;
  averageWordLength : Q
}.

(** [interface ScrapingResult]; an optional field that is absent is [None]. *)
Record ScrapingResult : Type := {
  content : jsstring;
  title : jsstring;
  success : bool;
  error : option jsstring;
  url : jsstring;
  timestamp : jsstring;
  scrapeMethod : option jsstring;
  metrics : option Metrics.t;
  contentStats : option ContentStats
}.

(** [{ ...r, metrics }] *)
Definition with_metrics (r : ScrapingResult) (m : Metrics.t) : ScrapingResult :=
  {| content := content r; title := title r; success := success r;
     error := error r; url := url r; timestamp := timestamp r;
     scrapeMethod := scrapeMethod r; metrics := Some m;
     contentStats := contentStats r |}.

(** [interface ChatEntry] *)
Record ChatEntry : Type := {
  userMessage : jsstring;
  aiResponse : jsstring;
  chat_timestamp : jsstring
}.

(* ===================================================================== *)
(** ** The outside world and the process state *)
(* ===================================================================== *)

Inductive outcome (A : Type) : Type :=
| Ret (a : A)
| Throw (e : Js.exn).
Arguments Ret {A} a.
Arguments Throw {A} e.

(** What Redis keeps under a key of string type, as the Upstash client
    hands it back: the JSON text of a result comes back as the decoded
    object (writing a result and reading it is the identity on its fields:
    strings, booleans and finite numbers), any other text as text. *)
Inductive stored : Type :=
| SResult (r : ScrapingResult)
| SText (s : jsstring).

(** A Redis value: a string with its expiry time (seconds), or a list. *)
Inductive rvalue : Type :=
| RStr (v : stored) (expires : N)
| RList (items : list ChatEntry).

(** The body of a fetched response: [await response.text()]. *)
Record Response : Type := { text : outcome jsstring }.

(** The replies of the outside world during one call. A renderer session
    (a [Browser] object) is named by its launch number. *)
Record World : Type := {
  (* clocks *)
  now_start : Z;               (* performance.now() at line 272 *)
  now_cheerio : Z;             (* ... at line 304 *)
  now_puppeteer : Z;           (* ... at line 337 *)
  now_end : Z;                 (* ... where totalTime is computed *)
  iso_date : jsstring;         (* new Date().toISOString() *)
  date_now : Z;                (* Date.now() *)
  (* Redis *)
  redis_clock : N;
  redis_get_fault : jsstring -> option Js.exn;
  redis_set_fault : jsstring -> option Js.exn;
  redis_lpush_fault : jsstring -> option Js.exn;
  redis_ltrim_fault : jsstring -> option Js.exn;
  json_parse : jsstring -> option ScrapingResult;   (* None: SyntaxError *)
  (* network and static parsing *)
  http_fetch : jsstring -> outcome Response;
  cheerio_texts : jsstring -> outcome (list jsstring);
  (* Chrome *)
  chrome_launch : option Js.exn;
  chrome_alive : nat -> bool;                (* browser.pages() resolves *)
  chrome_close_fault : nat -> option Js.exn;
  page_open_fault : nat -> option Js.exn;    (* browser.newPage() *)
  page_extract : nat -> jsstring -> outcome jsstring;
  page_close_fault : nat -> option Js.exn
}.

(** An entry of [BrowserPool.browsers]. *)
Record Pooled : Type := { browser : nat; lastUsed : Z }.

(** Calls that leave the process, newest first in [log]. *)
Inductive event : Type :=
| RedisGet (key : jsstring)
| RedisSet (key : jsstring)
| RedisLpush (key : jsstring)
| RedisLtrim (key : jsstring)
| HttpFetch (url : jsstring)
| ChromeLaunch
| ChromeProbe (b : nat)
| ChromeClose (b : nat)
| PageOpen (b : nat)
| PageExtract (b : nat) (url : jsstring)
| PageClose (b : nat).

Record Sys : Type := {
  db : gmap jsstring rvalue;      (* the Redis database *)
  browsers : list Pooled;         (* BrowserPool.instance.browsers *)
  launched : nat;                 (* sessions launched so far *)
  log : list event
}.

(** Calls to the cache store, as against the network and Chrome. *)
Definition is_redis (e : event) : bool :=
  match e with
  | RedisGet _ | RedisSet _ | RedisLpush _ | RedisLtrim _ => true
  | _ => false
  end.

Definition is_cache_write (e : event) : bool :=
  match e with
  | RedisSet _ | RedisLpush _ | RedisLtrim _ => true
  | _ => false
  end.

Definition set_db (d : gmap jsstring rvalue) (s : Sys) : Sys :=
  {| db := d; browsers := browsers s; launched := launched s; log := log s |}.

Definition set_browsers (bs : list Pooled) (s : Sys) : Sys :=
  {| db := db s; browsers := bs; launched := launched s; log := log s |}.

Definition set_launched (n : nat) (s : Sys) : Sys :=
  {| db := db s; browsers := browsers s; launched := n; log := log s |}.

Definition emit (e : event) (s : Sys) : Sys :=
  {| db := db s; browsers := browsers s; launched := launched s;
     log := e :: log s |}.

(* ===================================================================== *)
(** ** Effects: world reader, state, exceptions *)
(* ===================================================================== *)

Definition Eff (S A : Type) : Type := World -> S -> outcome A * S.

Definition ret {S A} (a : A) : Eff S A := fun _ s => (Ret a, s).

Definition throw {S A} (e : Js.exn) : Eff S A := fun _ s => (Throw e, s).

Definition bind {S A B} (m : Eff S A) (k : A -> Eff S B) : Eff S B :=
  fun w s =>
    match m w s with
    | (Ret a, s') => k a w s'
    | (Throw e, s') => (Throw e, s')
    end.

(** [try { m } catch (e) { h e }] *)
Definition try_catch {S A} (m : Eff S A) (h : Js.exn -> Eff S A) : Eff S A :=
  fun w s =>
    match m w s with
    | (Ret a, s') => (Ret a, s')
    | (Throw e, s') => h e w s'
    end.

(** [try { m } finally { f }]: an exception of [f] replaces the outcome of
    [m]. *)
Definition try_finally {S A} (m : Eff S A) (f : Eff S unit) : Eff S A :=
  fun w s =>
    match m w s with
    | (o, s') =>
        match f w s' with
        | (Ret _, s'') => (o, s'')
        | (Throw e, s'') => (Throw e, s'')
        end
    end.

Definition ask {S A} (f : World -> A) : Eff S A := fun w s => (Ret (f w), s).
Definition state {S} : Eff S S := fun _ s => (Ret s, s).
Definition modify {S} (f : S -> S) : Eff S unit := fun _ s => (Ret tt, f s).

(** Lift an outcome the world has decided. *)
Definition reply {S A} (f : World -> outcome A) : Eff S A :=
  fun w s => (f w, s).

(** Reject with [e] when the world says so. *)
Definition fault {S} (f : World -> option Js.exn) : Eff S unit :=
  fun w s => match f w with Some e => (Throw e, s) | None => (Ret tt, s) end.

Declare Scope eff_scope.
Delimit Scope eff_scope with eff.
Notation "'let!' x ':=' m 'in' k" := (bind m (fun x => k))
  (at level 10, x pattern, m at level 100, k at level 200) : eff_scope.
Notation "m ';;;' k" := (bind m (fun _ => k))
  (at level 100, k at level 200, right associativity) : eff_scope.
Local Open Scope eff_scope.

(* ===================================================================== *)
(** ** The Redis client ([@upstash/redis]) *)
(* ===================================================================== *)

Module Redis.

Definition wrongtype : Js.exn :=
  Js.Error (Js.lit
    "WRONGTYPE Operation against a key holding the wrong kind of value").

(** The value under a key at time [now]; an expired string is gone. *)
Definition live (now : N) (d : gmap jsstring rvalue) (key : jsstring)
  : option rvalue :=
  match d !! key with
  | Some (RStr v expires) =>
      if now <? expires then Some (RStr v expires) else None
  | Some (RList items) => Some (RList items)
  | None => None
  end.

(** [redis.get(key)] *)
Definition get (key : jsstring) : Eff Sys (option stored) :=
  modify (emit (RedisGet key));;;
  fault (fun w => redis_get_fault w key);;;
  let! now := ask redis_clock in
  let! s := state in
  match live now (db s) key with
  | Some (RStr v _) => ret (Some v)
  | Some (RList _) => throw wrongtype
  | None => ret None
  end.

(** [redis.set(key, value, { ex })] *)
Definition set (key : jsstring) (v : stored) (ex : N) : Eff Sys unit :=
  modify (emit (RedisSet key));;;
  fault (fun w => redis_set_fault w key);;;
  let! now := ask redis_clock in
  modify (fun s => set_db (<[key := RStr v (now + ex)]> (db s)) s).

(** [redis.lpush(key, entry)] *)
Definition lpush (key : jsstring) (entry : ChatEntry) : Eff Sys unit :=
  modify (emit (RedisLpush key));;;
  fault (fun w => redis_lpush_fault w key);;;
  let! now := ask redis_clock in
  let! s := state in
  match live now (db s) key with
  | Some (RStr _ _) => throw wrongtype
  | Some (RList items) =>
      modify (set_db (<[key := RList (entry :: items)]> (db s)))
  | None => modify (set_db (<[key := RList [entry]]> (db s)))
  end.

(** [redis.ltrim(key, 0, stop)] *)
Definition ltrim0 (key : jsstring) (stop : nat) : Eff Sys unit :=
  modify (emit (RedisLtrim key));;;
  fault (fun w => redis_ltrim_fault w key);;;
  let! now := ask redis_clock in
  let! s := state in
  match live now (db s) key with
  | Some (RStr _ _) => throw wrongtype
  | Some (RList items) =>
      modify (set_db (<[key := RList (firstn (S stop) items)]> (db s)))
  | None => ret tt
  end.

End Redis.

(* ===================================================================== *)
(** ** [cache.ts] *)
(* ===================================================================== *)

Module Cache.

Definition CACHE_DURATION : N := 3600.
Definition CACHE_PREFIX : jsstring := Js.lit "cache:".
Definition SCRAPE_CACHE_PREFIX : jsstring := CACHE_PREFIX ++ Js.lit "scrape:".
Definition AI_CACHE_PREFIX : jsstring := CACHE_PREFIX ++ Js.lit "ai:".
Definition CHAT_HISTORY_PREFIX : jsstring := CACHE_PREFIX ++ Js.lit "chat:".

(** [createCacheKey(content, prefix, conversationId)] *)
Definition createCacheKey (content prefix conversationId : jsstring)
  : outcome jsstring :=
  if negb (Js.truthy content) || negb (Js.truthy prefix)
     || negb (Js.truthy conversationId)
  then Throw (Js.Error (Js.lit
    "Content, prefix, and conversationId must be provided to create a cache key."))
  else
    let hash := Sha256.sha256_hex content in
    Ret (prefix ++ conversationId ++ Js.lit ":" ++ hash).

(** [JSON.parse(text) as T] *)
Definition JSON_parse (text : jsstring) : Eff Sys ScrapingResult :=
  reply (fun w =>
    match json_parse w text with
    | Some r => Ret r
    | None => Throw (Js.Error (Js.lit "Unexpected token in JSON"))
    end).

(** [getCachedContent<T>(key)] *)
Definition getCachedContent (key : jsstring)
  : Eff Sys (option ScrapingResult) :=
  try_catch
    (let! cachedData := Redis.get key in
     match cachedData with
     | None => ret None
     | Some (SText []) => ret None
     | Some (SResult r) => ret (Some r)
     | Some (SText data) =>
         try_catch
           (let! r := JSON_parse data in ret (Some r))
           (fun parseError => ret None)
     end)
    (fun error => ret None).

(** The argument of [setCachedContent<T>]: [null] or [undefined], a
    scraping result (an object with [content] and [success]), or any
    other value, given by its JSON text. *)
Inductive cacheable : Type :=
| CNull
| CResult (r : ScrapingResult)
| COther (json : jsstring).

(** [setCachedContent<T>(key, content)] *)
Definition setCachedContent (key : jsstring) (content : cacheable)
  : Eff Sys unit :=
  try_catch
    (match content with
     | CNull =>
         throw (Js.Error (Js.lit "Cannot cache null or undefined content"))
     | CResult r => Redis.set key (SResult r) CACHE_DURATION
     | COther json => Redis.set key (SText json) CACHE_DURATION
     end)
    (fun error => ret tt).

(** [storeChat(conversationId, userMessage, aiResponse)] *)
Definition storeChat (conversationId userMessage aiResponse : jsstring)
  : Eff Sys unit :=
  let! now := ask iso_date in
  let chatEntry :=
    {| userMessage := userMessage; aiResponse := aiResponse;
       chat_timestamp := now |} in
  try_catch
    (Redis.lpush (CHAT_HISTORY_PREFIX ++ conversationId) chatEntry;;;
     Redis.ltrim0 (CHAT_HISTORY_PREFIX ++ conversationId) 49)
    (fun error =>
       throw (Js.Error (Js.lit "Failed to store chat history"))).

End Cache.

(* ===================================================================== *)
(** ** [scrape.ts]: the browser pool *)
(* ===================================================================== *)

Definition MAX_WORKERS : nat := 3.
Definition SCRAPING_TIMEOUT : Z := 15000.
Definition MIN_CONTENT_LENGTH : nat := 100.
Definition MIN_SENTENCES : nat := 3.
Definition MIN_WORD_LENGTH : Z := 3.

Module BrowserPool.

Definition maxBrowsers : nat := MAX_WORKERS.

(** [await browser.pages()], the health probe: [true] when it resolves. *)
Definition pages (b : nat) : Eff Sys bool :=
  modify (emit (ChromeProbe b));;;
  ask (fun w => chrome_alive w b).

(** [await browser.close()] *)
Definition close (b : nat) : Eff Sys unit :=
  modify (emit (ChromeClose b));;;
  fault (fun w => chrome_close_fault w b).

(** The first loop of [checkBrowserHealth]: the indices whose probe
    threw, in increasing order. *)
Fixpoint probe (index : nat) (entries : list Pooled) : Eff Sys (list nat) :=
  match entries with
  | [] => ret []
  | e :: rest =>
      let! healthy := pages (browser e) in
      let! unhealthy := probe (S index) rest in
      ret (if healthy then unhealthy else index :: unhealthy)
  end.

(** The second loop: close and [splice(index, 1)] each one. An index past
    the end makes [this.browsers[index].browser] throw inside the [try],
    and [splice] then removes nothing. *)
Fixpoint evict (indices : list nat) : Eff Sys unit :=
  match indices with
  | [] => ret tt
  | index :: rest =>
      let! s := state in
      match browsers s !! index with
      | Some e => try_catch (close (browser e)) (fun error => ret tt)
      | None => ret tt
      end;;;
      modify (fun s => set_browsers (delete index (browsers s)) s);;;
      evict rest
  end.

(** [checkBrowserHealth()] *)
Definition checkBrowserHealth : Eff Sys unit :=
  let! s := state in
  let! unhealthyBrowsers := probe 0 (browsers s) in
  evict (rev unhealthyBrowsers).

(** The callback of [reduce], on entries paired with their index. *)
Definition older (prev curr : nat * Pooled) : nat * Pooled :=
  if (lastUsed (snd prev) <? lastUsed (snd curr))%Z then prev else curr.

(** [this.browsers.reduce(...)] without an initial value. *)
Definition reduce (bs : list Pooled) : outcome (nat * Pooled) :=
  match combine (seq 0 (length bs)) bs with
  | [] => Throw (Js.Error (Js.lit
            "Reduce of empty array with no initial value"))
  | first :: rest => Ret (fold_left older rest first)
  end.

(** [puppeteer.launch(...)]: the new session takes the next number. *)
Definition launch : Eff Sys nat :=
  modify (emit ChromeLaunch);;;
  fault chrome_launch;;;
  let! s := state in
  modify (set_launched (S (launched s)));;;
  ret (launched s).

(** [getBrowser()], run without any other task in between. *)
Definition getBrowser : Eff Sys nat :=
  try_catch
    (checkBrowserHealth;;;
     let! s := state in
     if (length (browsers s) <? maxBrowsers)%nat then
       let! b := launch in
       let! now := ask date_now in
       modify (fun s =>
         set_browsers (browsers s ++ [{| browser := b; lastUsed := now |}])
                      s);;;
       ret b
     else
       let! leastRecentlyUsed := reply (fun _ => reduce (browsers s)) in
       let! now := ask date_now in
       modify (fun s =>
         set_browsers
           (<[fst leastRecentlyUsed :=
                {| browser := browser (snd leastRecentlyUsed);
                   lastUsed := now |}]> (browsers s)) s);;;
       ret (browser (snd leastRecentlyUsed)))
    (fun error =>
       throw (Js.ScrapingError
                (Js.lit "Failed to launch browser: "
                   ++ Js.message_field error)
                (Js.lit "browser-pool") (Js.lit "puppeteer"))).

End BrowserPool.

(* ===================================================================== *)
(** ** [scrape.ts]: quality gate, extraction, orchestrator *)
(* ===================================================================== *)

Module Scrape.

Definition blocked_phrases : list jsstring :=
  [ Js.lit "404"; Js.lit "Access Denied"; Js.lit "Please enable JavaScript";
    Js.lit "Robot Check"; Js.lit "Captcha" ].

(** The class [[.!?]] *)
Definition is_terminator (c : N) : bool :=
  (c =? 46) || (c =? 33) || (c =? 63).

(** [content.split(/\s+/)] and [content.split(/[.!?]+/)] *)
Definition words (content : jsstring) : list jsstring :=
  Js.split_runs Js.is_space content.
Definition sentences (content : jsstring) : list jsstring :=
  Js.split_runs is_terminator content.

(** [content.length / wordCount] *)
Definition average (len count : nat) : Q :=
  Z.of_nat len # Pos.of_nat count.

(** [isContentMeaningful(content)] *)
Definition isContentMeaningful (content : jsstring) : bool :=
  if negb (Js.truthy content) || (length (Js.trim content) =? 0)%nat
  then false
  else
    let wordCount := length (words content) in
    if (wordCount =? 0)%nat then false
    else
      let sentenceCount := length (sentences content) in
      let averageWordLength := average (length content) wordCount in
      let hasBlockedPhrases :=
        existsb (fun phrase => Js.includes phrase content) blocked_phrases in
      (MIN_CONTENT_LENGTH <=? wordCount)%nat
      && (MIN_SENTENCES <=? sentenceCount)%nat
      && Qle_bool (inject_Z MIN_WORD_LENGTH) averageWordLength
      && negb hasBlockedPhrases.

(** [uniqueContent.add(text)] on a [Set] kept in insertion order. *)
Definition set_add (text : jsstring) (set : list jsstring) : list jsstring :=
  if existsb (Js.str_eqb text) set then set else set ++ [text].

(** [scrapeWithCheerio(html)]. The world gives [$(element).text()] for
    the elements the selectors match, selector by selector, after the
    unwanted elements were removed. *)
Definition scrapeWithCheerio (html : jsstring) : Eff Sys jsstring :=
  let! texts := reply (fun w => cheerio_texts w html) in
  let uniqueContent :=
    fold_left
      (fun set element =>
         let text := Js.trim element in
         if (50 <? length text)%nat then set_add text set else set)
      texts [] in
  ret (Js.join [10; 10] uniqueContent).

(** [scrapeWithPuppeteer(url)]. The world gives the outcome of the
    [try] block (headers, navigation, [page.evaluate]) and of the
    [finally] block. *)
Definition scrapeWithPuppeteer (url : jsstring) : Eff Sys jsstring :=
  let! browser := BrowserPool.getBrowser in
  modify (emit (PageOpen browser));;;
  fault (fun w => page_open_fault w browser);;;
  try_finally
    (modify (emit (PageExtract browser url));;;
     reply (fun w => page_extract w browser url))
    (modify (emit (PageClose browser));;;
     fault (fun w => page_close_fault w browser)).

(** [fetch(url)] *)
Definition fetch (url : jsstring) : Eff Sys Response :=
  modify (emit (HttpFetch url));;;
  reply (fun w => http_fetch w url).

(** [content.split('\n')[0]?.trim() || 'Untitled Content'] *)
Definition title_of (content : jsstring) : jsstring :=
  let first := Js.trim (hd [] (Js.split_lit [10] content)) in
  if Js.truthy first then first else Js.lit "Untitled Content".

Definition stats_of (content : jsstring) : ContentStats :=
  {| wordCount := length (words content);
     characterCount := length content;
     paragraphCount := length (Js.split_lit [10; 10] content);
     averageWordLength :=
       average (length content) (length (words content)) |}.

(** The frame of one call: the local [metrics] object, which the [catch]
    block reads as the [try] block left it, and the process state. *)
Record Frame : Type := { the_metrics : Metrics.t; sys : Sys }.

Definition in_sys {A} (m : Eff Sys A) : Eff Frame A :=
  fun w f =>
    match m w (sys f) with
    | (o, s') => (o, {| the_metrics := the_metrics f; sys := s' |})
    end.

Definition update_metrics (g : Metrics.t -> Metrics.t) : Eff Frame unit :=
  modify (fun f => {| the_metrics := g (the_metrics f); sys := sys f |}).

Definition read_metrics : Eff Frame Metrics.t :=
  fun _ f => (Ret (the_metrics f), f).

(** [metrics.totalTime = performance.now() - metrics.startTime] *)
Definition stop_clock : Eff Frame unit :=
  let! now := ask now_end in
  update_metrics (fun m => Metrics.set_totalTime (now - Metrics.startTime m) m).

Definition failure (title error url now : jsstring) (m : Metrics.t)
  : ScrapingResult :=
  {| content := []; title := title; success := false; error := Some error;
     url := url; timestamp := now; scrapeMethod := None;
     metrics := Some m; contentStats := None |}.

Definition found (content url now : jsstring) (method : jsstring)
    (m : Metrics.t) : ScrapingResult :=
  {| content := content; title := title_of content; success := true;
     error := None; url := url; timestamp := now;
     scrapeMethod := Some method; metrics := Some m;
     contentStats := Some (stats_of content) |}.

Definition scrape_key (url : jsstring) : jsstring :=
  Js.lit "scrape:" ++ Sha256.sha256_hex url.

(** The [try] block of [scrapeWebContent] (lines 293-377). *)
Definition attempt (url cacheKey : jsstring) : Eff Frame ScrapingResult :=
  let! cachedContent := in_sys (Cache.getCachedContent cacheKey) in
  match cachedContent with
  | Some cached =>
      update_metrics (Metrics.set_method Metrics.cache);;;
      stop_clock;;;
      let! metrics := read_metrics in
      ret (with_metrics cached metrics)
  | None =>
      let! now := ask now_cheerio in
      update_metrics (Metrics.set_cheerioAttemptTime now);;;
      let! response := in_sys (fetch url) in
      let! html := reply (fun _ => text response) in
      let! content := in_sys (scrapeWithCheerio html) in
      if isContentMeaningful content then
        update_metrics (Metrics.set_success true);;;
        stop_clock;;;
        let! metrics := read_metrics in
        let! now := ask iso_date in
        let result := found content url now (Js.lit "cheerio") metrics in
        in_sys (Cache.setCachedContent cacheKey (Cache.CResult result));;;
        ret result
      else
        update_metrics (Metrics.set_method Metrics.puppeteer);;;
        let! now := ask now_puppeteer in
        update_metrics (Metrics.set_puppeteerAttemptTime now);;;
        let! dynamicContent := in_sys (scrapeWithPuppeteer url) in
        if isContentMeaningful dynamicContent then
          update_metrics (Metrics.set_success true);;;
          stop_clock;;;
          let! metrics := read_metrics in
          let! now := ask iso_date in
          let result :=
            found dynamicContent url now (Js.lit "puppeteer") metrics in
          in_sys (Cache.setCachedContent cacheKey (Cache.CResult result));;;
          ret result
        else
          stop_clock;;;
          let! metrics := read_metrics in
          let! now := ask iso_date in
          ret (failure (Js.lit "Failed to extract meaningful content")
                       (Js.lit "Content validation failed") url now metrics)
  end.

(** The [catch] block (lines 378-391). *)
Definition rescue (url : jsstring) (error : Js.exn)
  : Eff Frame ScrapingResult :=
  stop_clock;;;
  let! metrics := read_metrics in
  let! now := ask iso_date in
  ret (failure (Js.lit "Scraping Failed") (Js.message_or_string error)
               url now metrics).

(** The whole body, in the frame of the call. *)
Definition body (url : jsstring) : Eff Frame ScrapingResult :=
  if negb (Js.truthy url) || negb (Js.startsWith (Js.lit "http") url)
  then
    let! metrics := read_metrics in
    let! now := ask iso_date in
    ret (failure (Js.lit "Invalid URL") (Js.lit "Invalid URL provided")
                 url now metrics)
  else
    let cacheKey := scrape_key url in
    try_catch (attempt url cacheKey) (rescue url).

Definition initial_metrics (w : World) : Metrics.t :=
  {| Metrics.startTime := now_start w;
     Metrics.cheerioAttemptTime := None;
     Metrics.puppeteerAttemptTime := None;
     Metrics.totalTime := 0;
     Metrics.success := false;
     Metrics.method_ := Metrics.cheerio |}.

(** [scrapeWebContent(url)] *)
Definition scrapeWebContent (url : jsstring) : Eff Sys ScrapingResult :=
  fun w s =>
    match body url w {| the_metrics := initial_metrics w; sys := s |} with
    | (o, f) => (o, sys f)
    end.

End Scrape.

(* ===================================================================== *)
(** ** [getBrowser] as a task that other tasks can interleave with *)
(* ===================================================================== *)

(** An [async] function gives control away at each [await]. A call of
    [getBrowser] is followed here from one [await] to the next, so that
    several calls can be in flight on the one pool of the process, as
    happens when requests overlap. Between two [await]s a call runs without
    interruption. (The timer of the constructor, which sweeps the pool
    every 60 s, would be one more task; it is not needed below.) *)

Module PoolTask.

(** Where a call is suspended. *)
Inductive task : Type :=
| Fresh                                   (* not called yet *)
| AtProbe (index b : nat) (unhealthy : list nat)
                                          (* line 101, [await browser.pages()] *)
| AtClose (index : nat) (rest : list nat) (* line 110, [await ...close()] *)
| AtSweep                                 (* line 70, [await this.checkBrowserHealth()] *)
| AtLaunch                                (* line 73, [await puppeteer.launch(...)] *)
| Settled (r : outcome nat).

Definition failed (error : Js.exn) : task :=
  Settled (Throw (Js.ScrapingError
                    (Js.lit "Failed to launch browser: "
                       ++ Js.message_field error)
                    (Js.lit "browser-pool") (Js.lit "puppeteer"))).

(** The second loop of [checkBrowserHealth] up to its next [await]. *)
Fixpoint next_close (todo : list nat) (s : Sys) : task * Sys :=
  match todo with
  | [] => (AtSweep, s)
  | index :: rest =>
      match browsers s !! index with
      | Some e => (AtClose index rest, emit (ChromeClose (browser e)) s)
      | None => next_close rest (set_browsers (delete index (browsers s)) s)
      end
  end.

(** The first loop up to its next [await]; the array iterator looks the
    entry up in the array as it is now. *)
Definition next_probe (index : nat) (unhealthy : list nat) (s : Sys)
  : task * Sys :=
  match browsers s !! index with
  | Some e =>
      (AtProbe index (browser e) unhealthy, emit (ChromeProbe (browser e)) s)
  | None => next_close (rev unhealthy) s
  end.

(** Run a task from where it is suspended to its next [await]; [w] holds
    the reply it was waiting for. *)
Definition resume (w : World) (t : task) (s : Sys) : task * Sys :=
  match t with
  | Fresh => next_probe 0 [] s
  | AtProbe index b unhealthy =>
      next_probe (S index)
        (if chrome_alive w b then unhealthy else unhealthy ++ [index]) s
  | AtClose index rest =>
      next_close rest (set_browsers (delete index (browsers s)) s)
  | AtSweep =>
      if (length (browsers s) <? BrowserPool.maxBrowsers)%nat
      then (AtLaunch, emit ChromeLaunch s)
      else
        match BrowserPool.reduce (browsers s) with
        | Ret leastRecentlyUsed =>
            (Settled (Ret (browser (snd leastRecentlyUsed))),
             set_browsers
               (<[fst leastRecentlyUsed :=
                    {| browser := browser (snd leastRecentlyUsed);
                       lastUsed := date_now w |}]> (browsers s)) s)
        | Throw error => (failed error, s)
        end
  | AtLaunch =>
      match chrome_launch w with
      | Some error => (failed error, s)
      | None =>
          let b := launched s in
          (Settled (Ret b),
           set_browsers (browsers s ++ [{| browser := b;
                                           lastUsed := date_now w |}])
                        (set_launched (S b) s))
      end
  | Settled r => (Settled r, s)
  end.

(** The process: its state and the calls in flight. The scheduler picks
    which call resumes and what the world replies. *)
Definition process : Type := Sys * list task.

Definition step (p : process) (pick : nat * World) : process :=
  match snd p !! fst pick with
  | Some t =>
      match resume (snd pick) t (fst p) with
      | (t', s') => (s', <[fst pick := t']> (snd p))
      end
  | None => p
  end.

Definition run (schedule : list (nat * World)) (p : process) : process :=
  fold_left step schedule p.

(** One call run alone for [n] resumptions. *)
Fixpoint alone (n : nat) (w : World) (t : task) (s : Sys) : task * Sys :=
  match n with
  | O => (t, s)
  | S n' => match resume w t s with (t', s') => alone n' w t' s' end
  end.

End PoolTask.

(* ===================================================================== *)
(** ** [contentProcessor.ts] *)
(* ===================================================================== *)

Module ContentProcessor.

Record ProcessedContent : Type := {
  pc_content : jsstring;
  wasFiltered : bool;
  filterReason : option jsstring
}.

(** [.replace(/```json|```/g, '')]; [skip] counts the code units of a
    match still to be dropped. *)
Fixpoint strip_fences (skip : nat) (s : jsstring) : jsstring :=
  match s with
  | [] => []
  | c :: t =>
      match skip with
      | S k => strip_fences k t
      | O =>
          if Js.startsWith (Js.lit "```json") s then strip_fences 6 t
          else if Js.startsWith (Js.lit "```") s then strip_fences 2 t
          else c :: strip_fences O t
      end
  end.

(** [.replace(/<[^>]*>/g, '')]: a [<] opens a match when a [>] follows
    somewhere, and the match ends at the first one. *)
Fixpoint strip_tags (inside : bool) (s : jsstring) : jsstring :=
  match s with
  | [] => []
  | c :: t =>
      if inside then strip_tags (negb (c =? 62)) t
      else if (c =? 60) && existsb (N.eqb 62) t then strip_tags true t
      else c :: strip_tags false t
  end.

(** [.replace(/\s+/g, ' ')] *)
Fixpoint collapse_spaces (prev : bool) (s : jsstring) : jsstring :=
  match s with
  | [] => []
  | c :: t =>
      if Js.is_space c
      then (if prev then collapse_spaces true t
            else 32 :: collapse_spaces true t)
      else c :: collapse_spaces false t
  end.

(** The class [[!?,.]] *)
Definition is_punct (c : N) : bool :=
  (c =? 33) || (c =? 63) || (c =? 44) || (c =? 46).

(** [.replace(/([!?,.]){2,}/g, '$1')]: a run of two or more becomes its
    last code unit, the last capture of the group. *)
Fixpoint squeeze_punct (s : jsstring) : jsstring :=
  match s with
  | [] => []
  | c :: t =>
      if is_punct c && match t with c' :: _ => is_punct c' | [] => false end
      then squeeze_punct t
      else c :: squeeze_punct t
  end.

(** The class of the apostrophe, U+201C and U+201D, replaced by the
    straight double quote (code 34). *)
Definition normalize_quote (c : N) : N :=
  if (c =? 39) || (c =? 8220) || (c =? 8221) then 34 else c.

(** The class [[\x00-\x1F\x7F-\x9F]] *)
Definition is_control (c : N) : bool :=
  (c <=? 31) || ((127 <=? c) && (c <=? 159)).

(** [sanitizeContent(content)] *)
Definition sanitizeContent (content : jsstring) : jsstring :=
  Js.trim
    (List.filter (fun c => negb (is_control c))
       (List.map normalize_quote
          (squeeze_punct
             (collapse_spaces false
                (strip_tags false
                   (strip_fences O content)))))).

Definition truncation_marker : jsstring :=
  Js.lit "... (content truncated for length)".

(** The cap, 30000 code units. *)
Definition limit : nat := N.to_nat 30000.

(** [processContentForAI(scrapingResults)] *)
Definition processContentForAI (scrapingResults : list ScrapingResult)
  : ProcessedContent :=
  let combinedContent :=
    Js.join ([10; 10] ++ Js.lit "---" ++ [10; 10])
      (List.map
         (fun result =>
            let source :=
              if Js.truthy (url result)
              then Js.lit "Source: " ++ url result ++ [10]
              else [] in
            source ++ content result)
         scrapingResults) in
  let combinedContent := sanitizeContent combinedContent in
  let combinedContent :=
    if (limit <? length combinedContent)%nat
    then Js.substring0 limit combinedContent ++ truncation_marker
    else combinedContent in
  {| pc_content := combinedContent; wasFiltered := false;
     filterReason := None |}.

End ContentProcessor.

(* ===================================================================== *)
(** ** [search.ts]: the information gatherer *)
(* ===================================================================== *)

Module Search.

(** The key of the gatherer, [`${SCRAPE_CACHE_PREFIX}${url}`]. *)
Definition gather_key (url : jsstring) : jsstring :=
  Cache.SCRAPE_CACHE_PREFIX ++ url.

(** One turn of the loop of [gatherInformation]; [results] is the array
    the loop pushes to. *)
Definition gather_one (url : jsstring) (results : list ScrapingResult)
  : Eff Sys (list ScrapingResult) :=
  let cacheKey := gather_key url in
  let! cachedResult := Cache.getCachedContent cacheKey in
  match cachedResult with
  | Some cached => ret (results ++ [cached])
  | None =>
      try_catch
        (let! scrapingResult := Scrape.scrapeWebContent url in
         (if success scrapingResult
          then Cache.setCachedContent cacheKey (Cache.CResult scrapingResult)
          else ret tt);;;
         ret (results ++ [scrapingResult]))
        (fun error => ret results)
  end.

(** [gatherInformation(query, conversationId, urls)]; the world of each
    turn comes with its URL. *)
Fixpoint gather_loop (urls : list (jsstring * World))
    (results : list ScrapingResult) (s : Sys)
  : outcome (list ScrapingResult) * Sys :=
  match urls with
  | [] => (Ret results, s)
  | (url, w) :: rest =>
      match gather_one url results w s with
      | (Ret results', s') => gather_loop rest results' s'
      | (Throw e, s') => (Throw e, s')
      end
  end.

Definition gatherInformation (query conversationId : jsstring)
    (urls : list (jsstring * World)) (s : Sys)
  : outcome (list ScrapingResult) * Sys :=
  gather_loop urls [] s.

End Search.

(* ===================================================================== *)
(** * Derived definitions

    Pure descriptions of what the functions above compute, the states the
    process can reach, and sample worlds. The lemmas below relate them to
    the code. *)
(* ===================================================================== *)

(** ** What the cache layer computes *)

Module CacheSpec.

(** What a lookup finds: a store fault, a missing or expired key, a list
    under the key and text that does not parse are all a miss. *)
Definition looked_up (w : World) (d : gmap jsstring rvalue) (key : jsstring)
  : option ScrapingResult :=
  match redis_get_fault w key with
  | Some _ => None
  | None =>
      match Redis.live (redis_clock w) d key with
      | Some (RStr (SResult r) _) => Some r
      | Some (RStr (SText []) _) => None
      | Some (RStr (SText data) _) => json_parse w data
      | Some (RList _) => None
      | None => None
      end
  end.

(** What a write leaves in the database. *)
Definition written (w : World) (key : jsstring) (v : stored)
    (d : gmap jsstring rvalue) : gmap jsstring rvalue :=
  match redis_set_fault w key with
  | Some _ => d
  | None => <[key := RStr v (redis_clock w + Cache.CACHE_DURATION)]> d
  end.

Definition after_set (w : World) (key : jsstring) (c : Cache.cacheable)
    (d : gmap jsstring rvalue) : gmap jsstring rvalue :=
  match c with
  | Cache.CNull => d
  | Cache.CResult r => written w key (SResult r) d
  | Cache.COther json => written w key (SText json) d
  end.

Definition set_events (key : jsstring) (c : Cache.cacheable) : list event :=
  match c with Cache.CNull => [] | _ => [RedisSet key] end.

End CacheSpec.

(** ** What the browser pool computes, one call at a time *)

Module PoolSpec.

Import BrowserPool.

(** Entries whose probe resolves. *)
Definition sweep (w : World) (bs : list Pooled) : list Pooled :=
  List.filter (fun e => chrome_alive w (browser e)) bs.

(** Indices whose probe throws, counted from [index]. *)
Fixpoint unhealthy (w : World) (index : nat) (entries : list Pooled)
  : list nat :=
  match entries with
  | [] => []
  | e :: rest =>
      if chrome_alive w (browser e) then unhealthy w (S index) rest
      else index :: unhealthy w (S index) rest
  end.

(** [splice(index, 1)] for each index in turn. *)
Fixpoint evicted (indices : list nat) (bs : list Pooled) : list Pooled :=
  match indices with
  | [] => bs
  | index :: rest => evicted rest (delete index bs)
  end.

Fixpoint evict_log (indices : list nat) (bs : list Pooled) : list event :=
  match indices with
  | [] => []
  | index :: rest =>
      evict_log rest (delete index bs)
      ++ match bs !! index with
         | Some e => [ChromeClose (browser e)]
         | None => []
         end
  end.

Definition logged (evs : list event) (s : Sys) : Sys :=
  {| db := db s; browsers := browsers s; launched := launched s;
     log := evs ++ log s |}.

Definition chrome_only (evs : list event) : Prop :=
  Forall (fun e => is_redis e = false) evs.

(** The calls of one sweep, newest first. *)
Definition sweep_log (w : World) (bs : list Pooled) : list event :=
  evict_log (rev (unhealthy w 0 bs)) bs
  ++ rev (List.map (fun e => ChromeProbe (browser e)) bs).

Definition launch_error (error : Js.exn) : Js.exn :=
  Js.ScrapingError
    (Js.lit "Failed to launch browser: " ++ Js.message_field error)
    (Js.lit "browser-pool") (Js.lit "puppeteer").

Definition fresh (w : World) (s : Sys) : Pooled :=
  {| browser := launched s; lastUsed := date_now w |}.

Definition touched (w : World) (e : Pooled) : Pooled :=
  {| browser := browser e; lastUsed := date_now w |}.

(** What [getBrowser] returns, from the pool as the sweep leaves it. *)
Definition acquired (w : World) (s : Sys) : outcome nat :=
  let bs := sweep w (browsers s) in
  if (length bs <? maxBrowsers)%nat then
    match chrome_launch w with
    | Some error => Throw (launch_error error)
    | None => Ret (launched s)
    end
  else
    match reduce bs with
    | Ret lru => Ret (browser (snd lru))
    | Throw error => Throw (launch_error error)
    end.

(** The pool it leaves. *)
Definition pool_after (w : World) (s : Sys) : list Pooled :=
  let bs := sweep w (browsers s) in
  if (length bs <? maxBrowsers)%nat then
    match chrome_launch w with
    | Some _ => bs
    | None => bs ++ [fresh w s]
    end
  else
    match reduce bs with
    | Ret lru => <[fst lru := touched w (snd lru)]> bs
    | Throw _ => bs
    end.

Definition launched_after (w : World) (s : Sys) : nat :=
  if (length (sweep w (browsers s)) <? maxBrowsers)%nat then
    match chrome_launch w with
    | Some _ => launched s
    | None => S (launched s)
    end
  else launched s.

(** The calls of one [getBrowser], newest first. *)
Definition pool_log (w : World) (s : Sys) : list event :=
  (if (length (sweep w (browsers s)) <? maxBrowsers)%nat
   then [ChromeLaunch] else [])
  ++ sweep_log w (browsers s).

End PoolSpec.

(** ** What the orchestrator computes *)

Module ScrapeSpec.

Import Scrape.

Definition valid (url : jsstring) : Prop :=
  Js.truthy url = true /\ Js.startsWith (Js.lit "http") url = true.

Definition frame0 (w : World) (s : Sys) : Frame :=
  {| the_metrics := initial_metrics w; sys := s |}.

(** The metrics of a cache hit. *)
Definition hit_metrics (w : World) : Metrics.t :=
  {| Metrics.startTime := now_start w;
     Metrics.cheerioAttemptTime := None;
     Metrics.puppeteerAttemptTime := None;
     Metrics.totalTime := now_end w - now_start w;
     Metrics.success := false;
     Metrics.method_ := Metrics.cache |}.

(** *** The extraction strategies as the world decides them *)

Definition unique_texts (texts : list jsstring) : list jsstring :=
  fold_left
    (fun set element =>
       let text := Js.trim element in
       if (50 <? length text)%nat then set_add text set else set)
    texts [].

(** Fetch, read the body, extract statically. *)
Definition static_text (w : World) (url : jsstring) : outcome jsstring :=
  match http_fetch w url with
  | Throw e => Throw e
  | Ret response =>
      match text response with
      | Throw e => Throw e
      | Ret html =>
          match cheerio_texts w html with
          | Ret texts => Ret (Js.join [10; 10] (unique_texts texts))
          | Throw e => Throw e
          end
      end
  end.

(** Borrow a session, open a page, extract, close the page. *)
Definition rendered (w : World) (s : Sys) (url : jsstring)
  : outcome jsstring :=
  match PoolSpec.acquired w s with
  | Throw e => Throw e
  | Ret b =>
      match page_open_fault w b with
      | Some e => Throw e
      | None =>
          match page_close_fault w b with
          | Some e => Throw e
          | None => page_extract w b url
          end
      end
  end.

(** *** The result and the database after a call *)

Definition static_metrics (w : World) (ok : bool) : Metrics.t :=
  {| Metrics.startTime := now_start w;
     Metrics.cheerioAttemptTime := Some (now_cheerio w);
     Metrics.puppeteerAttemptTime := None;
     Metrics.totalTime := now_end w - now_start w;
     Metrics.success := ok;
     Metrics.method_ := Metrics.cheerio |}.

Definition dynamic_metrics (w : World) (ok : bool) : Metrics.t :=
  {| Metrics.startTime := now_start w;
     Metrics.cheerioAttemptTime := Some (now_cheerio w);
     Metrics.puppeteerAttemptTime := Some (now_puppeteer w);
     Metrics.totalTime := now_end w - now_start w;
     Metrics.success := ok;
     Metrics.method_ := Metrics.puppeteer |}.

Definition scraping_failed (url : jsstring) (w : World) (e : Js.exn)
    (m : Metrics.t) : ScrapingResult :=
  failure (Js.lit "Scraping Failed") (Js.message_or_string e) url
          (iso_date w) m.

Definition validation_failed (url : jsstring) (w : World) : ScrapingResult :=
  failure (Js.lit "Failed to extract meaningful content")
          (Js.lit "Content validation failed") url (iso_date w)
          (dynamic_metrics w false).

Definition static_found (url : jsstring) (w : World) (c : jsstring)
  : ScrapingResult :=
  Scrape.found c url (iso_date w) (Js.lit "cheerio") (static_metrics w true).

Definition dynamic_found (url : jsstring) (w : World) (c : jsstring)
  : ScrapingResult :=
  Scrape.found c url (iso_date w) (Js.lit "puppeteer")
               (dynamic_metrics w true).

(** What a call on a well-formed URL that misses the cache returns, and
    what it leaves in the database. *)
Definition miss_result (url : jsstring) (w : World) (s : Sys)
  : ScrapingResult :=
  match static_text w url with
  | Throw e => scraping_failed url w e (static_metrics w false)
  | Ret c =>
      if isContentMeaningful c then static_found url w c
      else
        match rendered w s url with
        | Throw e => scraping_failed url w e (dynamic_metrics w false)
        | Ret d =>
            if isContentMeaningful d then dynamic_found url w d
            else validation_failed url w
        end
  end.

Definition miss_db (url : jsstring) (w : World) (s : Sys)
  : gmap jsstring rvalue :=
  match static_text w url with
  | Throw e => db s
  | Ret c =>
      if isContentMeaningful c
      then CacheSpec.written w (scrape_key url)
             (SResult (static_found url w c)) (db s)
      else
        match rendered w s url with
        | Throw e => db s
        | Ret d =>
            if isContentMeaningful d
            then CacheSpec.written w (scrape_key url)
                   (SResult (dynamic_found url w d)) (db s)
            else db s
        end
  end.

(** No cache write among the events unless [ok]. *)
Definition quiet (ok : bool) (evs : list event) : Prop :=
  Forall (fun e => is_cache_write e = true -> ok = true) evs.

End ScrapeSpec.

(** ** Sample worlds and states *)

Module Sample.

(** No network: [fetch] rejects; Redis and Chrome answer. *)
Definition offline : World :=
  {| now_start := 0; now_cheerio := 1; now_puppeteer := 2; now_end := 3;
     iso_date := Js.lit "2024-12-15T10:00:00.000Z";
     date_now := 1734256800000;
     redis_clock := 1000;
     redis_get_fault := fun _ => None;
     redis_set_fault := fun _ => None;
     redis_lpush_fault := fun _ => None;
     redis_ltrim_fault := fun _ => None;
     json_parse := fun _ => None;
     http_fetch := fun _ => Throw (Js.Error (Js.lit "fetch failed"));
     cheerio_texts := fun _ => Ret [];
     chrome_launch := None;
     chrome_alive := fun _ => true;
     chrome_close_fault := fun _ => None;
     page_open_fault := fun _ => None;
     page_extract := fun _ _ => Ret [];
     page_close_fault := fun _ => None |}.

(** A page whose markup is [html] and whose elements carry [texts];
    the rendered page carries [dynamic]. *)
Definition serving (html : jsstring) (texts : list jsstring)
    (dynamic : jsstring) : World :=
  {| now_start := 0; now_cheerio := 1; now_puppeteer := 2; now_end := 3;
     iso_date := Js.lit "2024-12-15T10:00:00.000Z";
     date_now := 1734256800000;
     redis_clock := 1000;
     redis_get_fault := fun _ => None;
     redis_set_fault := fun _ => None;
     redis_lpush_fault := fun _ => None;
     redis_ltrim_fault := fun _ => None;
     json_parse := fun _ => None;
     http_fetch := fun _ => Ret {| text := Ret html |};
     cheerio_texts := fun _ => Ret texts;
     chrome_launch := None;
     chrome_alive := fun _ => true;
     chrome_close_fault := fun _ => None;
     page_open_fault := fun _ => None;
     page_extract := fun _ _ => Ret dynamic;
     page_close_fault := fun _ => None |}.

(** Redis is down: every command rejects. *)
Definition redis_down : World :=
  {| now_start := 0; now_cheerio := 1; now_puppeteer := 2; now_end := 3;
     iso_date := Js.lit "2024-12-15T10:00:00.000Z";
     date_now := 1734256800000;
     redis_clock := 1000;
     redis_get_fault := fun _ => Some (Js.Error (Js.lit "ECONNREFUSED"));
     redis_set_fault := fun _ => Some (Js.Error (Js.lit "ECONNREFUSED"));
     redis_lpush_fault := fun _ => Some (Js.Error (Js.lit "ECONNREFUSED"));
     redis_ltrim_fault := fun _ => Some (Js.Error (Js.lit "ECONNREFUSED"));
     json_parse := fun _ => None;
     http_fetch := fun _ => Throw (Js.Error (Js.lit "fetch failed"));
     cheerio_texts := fun _ => Ret [];
     chrome_launch := None;
     chrome_alive := fun _ => true;
     chrome_close_fault := fun _ => None;
     page_open_fault := fun _ => None;
     page_extract := fun _ _ => Ret [];
     page_close_fault := fun _ => None |}.

(** The world [w] with the store rejecting writes as [f] says. *)
Definition with_set_fault (f : jsstring -> option Js.exn) (w : World)
  : World :=
  {| now_start := now_start w; now_cheerio := now_cheerio w;
     now_puppeteer := now_puppeteer w; now_end := now_end w;
     iso_date := iso_date w; date_now := date_now w;
     redis_clock := redis_clock w;
     redis_get_fault := redis_get_fault w;
     redis_set_fault := f;
     redis_lpush_fault := redis_lpush_fault w;
     redis_ltrim_fault := redis_ltrim_fault w;
     json_parse := json_parse w;
     http_fetch := http_fetch w;
     cheerio_texts := cheerio_texts w;
     chrome_launch := chrome_launch w;
     chrome_alive := chrome_alive w;
     chrome_close_fault := chrome_close_fault w;
     page_open_fault := page_open_fault w;
     page_extract := page_extract w;
     page_close_fault := page_close_fault w |}.

(** A fresh process: empty database, empty pool. *)
Definition boot : Sys :=
  {| db := ∅; browsers := []; launched := 0; log := [] |}.

Definition a_url : jsstring := Js.lit "http://a".

(** A hundred short sentences: passes the quality gate. *)
Definition prose : jsstring := concat (repeat (Js.lit "word. ") 100).

(** An error page. *)
Definition not_found : jsstring := Js.lit "404 Not Found".

(** The article page and the state of the process after scraping it. *)
Definition article : World := serving (Js.lit "<article/>") [prose] [].

Definition warm : Sys := snd (Scrape.scrapeWebContent a_url article boot).

(** A page that shows an error text statically and when rendered. *)
Definition missing : World :=
  serving (Js.lit "<p/>") [not_found] not_found.

(** Many words, two sentences. *)
Definition two_sentences : jsstring :=
  concat (repeat (Js.lit "word ") 150) ++ Js.lit "end. tail".

End Sample.

(** ** The states the process can reach *)

Module SystemSpec.

Import Scrape ScrapeSpec.

(** Every string value of the database is a result that passed the
    quality gate. *)
Definition db_sound (d : gmap jsstring rvalue) : Prop :=
  forall (k : jsstring) (v : stored) (expires : N),
    d !! k = Some (RStr v expires) ->
    exists r : ScrapingResult,
      v = SResult r /\ success r = true
      /\ isContentMeaningful (content r) = true.

(** The invariant of a scraping result. *)
Definition gated (r : ScrapingResult) : Prop :=
  (success r = true <->
     content r <> [] /\ isContentMeaningful (content r) = true)
  /\ (success r = false -> content r = []).

(** From an empty database the process scrapes, gathers and stores chat
    turns, in any order and in any worlds, and Redis drops keys. *)
Inductive reachable : Sys -> Prop :=
| reach_boot : reachable Sample.boot
| reach_scrape (s : Sys) (u : jsstring) (w : World) :
    reachable s -> reachable (snd (scrapeWebContent u w s))
| reach_gather (s : Sys) (query conversationId : jsstring)
    (urls : list (jsstring * World)) :
    reachable s ->
    reachable (snd (Search.gatherInformation query conversationId urls s))
| reach_chat (s : Sys) (conversationId userMessage aiResponse : jsstring)
    (w : World) :
    reachable s ->
    reachable
      (snd (Cache.storeChat conversationId userMessage aiResponse w s))
| reach_drop (s : Sys) (k : jsstring) :
    reachable s -> reachable (set_db (delete k (db s)) s).

End SystemSpec.

(** ** Store failures *)

Module StoreSpec.

Definition chat_failure : Js.exn :=
  Js.Error (Js.lit "Failed to store chat history").

End StoreSpec.

(** ** Runs of the pool tasks *)

Module TaskSpec.

Import PoolTask PoolSpec.

Definition alone_from (n : nat) (w : World) (p : task * Sys) : task * Sys :=
  alone n w (fst p) (snd p).

(** *** Calls made one after the other *)

(** [getBrowser] called once per world, each call run to its end. *)
Fixpoint in_turn (ws : list World) (s : Sys) : Sys :=
  match ws with
  | [] => s
  | w :: rest => in_turn rest (snd (BrowserPool.getBrowser w s))
  end.

(** Sessions are numbered as they are launched. *)
Definition numbered (s : Sys) : Prop :=
  Forall (fun e => (browser e < launched s)%nat) (browsers s).

(** *** Calls in flight together *)

(** Four calls on the empty pool of a fresh process. *)
Definition four_calls : process :=
  (Sample.boot, [Fresh; Fresh; Fresh; Fresh]).

(** Each call in turn runs to its next [await], three times over: the
    calls enter, pass the check of line 72, and see their launch
    resolve. *)
Definition each_once : list (nat * World) :=
  List.map (fun i => (i, Sample.offline)) [0; 1; 2; 3]%nat.

Definition overlapped : list (nat * World) :=
  each_once ++ each_once ++ each_once.

End TaskSpec.

(* ===================================================================== *)
(** * The rest of the code

    The functions that the properties of the first part do not reach: the
    reading of the chat history, the shutdown of the pool, the shape
    check of the gatherer's results, the retry helper, the search, the
    analysis of the query and the prompts of [GeminiClient.ts], and the
    route handler that ties them together. Further replies of the
    outside world (the language model, the search API, the environment)
    come in a record of their own, [Replies]. *)
(* ===================================================================== *)

(* ===================================================================== *)
(** ** [cache.ts]: reading the chat history *)
(* ===================================================================== *)

(** A field of an object that can be absent or [null]. *)
Inductive field (A : Type) : Type :=
| Absent
| IsNull
| Given (a : A).
Arguments Absent {A}.
Arguments IsNull {A}.
Arguments Given {A} a.

(** [interface SearchResult] *)
Record SearchResult : Type := {
  sr_url : jsstring;
  sr_title : jsstring;
  snippet : jsstring;
  domain : jsstring;
  searchScore : Q
}.

(** An entry of [items] in the reply of the search API, with the fields
    that are read; they are taken to be strings. *)
Record Item : Type := {
  link : jsstring;
  item_title : jsstring;
  item_snippet : jsstring
}.

(** The response of [fetch] as [googleSearch] reads it; [json] is [None]
    when the reply has no [items]. *)
Record SearchReply : Type := {
  ok : bool;
  status : nat;
  json : outcome (option (list Item))
}.

(** Replies of the outside world that the functions below need beside
    those of [World]. *)
Record Replies : Type := {
  redis_lrange_fault : jsstring -> option Js.exn;
  (* [JSON.parse] of what [lrange] hands back for a stored entry;
     [None] when it throws *)
  parse_entry : ChatEntry -> option ChatEntry;
  (* [process.env] *)
  env_google_api_key : option jsstring;
  env_search_engine_id : option jsstring;
  env_development : bool;        (* NODE_ENV === 'development' *)
  (* [fetch(url)] of the search API *)
  search_fetch : jsstring -> outcome SearchReply;
  (* [new URL(link).hostname] *)
  hostname : jsstring -> outcome jsstring;
  (* [generateContent(prompt)] followed by [response.text()] *)
  generate : jsstring -> outcome jsstring;
  (* [error.stack] *)
  stack_of : Js.exn -> jsstring
}.

Module ChatHistory.

(** [redis.lrange(key, 0, stop)]: the entries from the first to the one at
    [stop], both included; a negative [stop] counts from the end of the
    list. A key that is missing is an empty list. The read has no entry
    of its own in [log]. *)
Definition lrange0 (x : Replies) (key : jsstring) (stop : Z)
  : Eff Sys (list ChatEntry) :=
  fault (fun _ => redis_lrange_fault x key);;;
  let! now := ask redis_clock in
  let! s := state in
  match Redis.live now (db s) key with
  | Some (RStr _ _) => throw Redis.wrongtype
  | Some (RList items) =>
      let last :=
        (if stop <? 0 then Z.of_nat (length items) + stop else stop)%Z in
      ret (if (last <? 0)%Z then [] else firstn (Z.to_nat (last + 1)) items)
  | None => ret []
  end.

(** [getChatHistory(conversationId, limit)] *)
Definition getChatHistory (x : Replies) (conversationId : jsstring)
    (limit : Z) : Eff Sys (list ChatEntry) :=
  try_catch
    (let! rawHistory :=
       lrange0 x (Cache.CHAT_HISTORY_PREFIX ++ conversationId) (limit - 1) in
     ret (omap (parse_entry x) rawHistory))
    (fun error => ret []).

End ChatHistory.

(* ===================================================================== *)
(** ** [scrape.ts]: shutting the pool down *)
(* ===================================================================== *)

Module PoolCleanup.

(** The rejection that [Promise.all] passes on, the first one; the
    [close] calls are taken to settle in the order of the array. *)
Fixpoint first_rejection (w : World) (entries : list Pooled)
  : option Js.exn :=
  match entries with
  | [] => None
  | e :: rest =>
      match chrome_close_fault w (browser e) with
      | Some error => Some error
      | None => first_rejection w rest
      end
  end.

(** [cleanup()]: [map] starts every [close], [Promise.all] waits for all
    of them and rejects when one does; the array is emptied only after
    that. (The timer is not part of the state.) *)
Definition cleanup : Eff Sys unit :=
  let! s := state in
  modify (fun s =>
    fold_left (fun s e => emit (ChromeClose (browser e)) s) (browsers s) s);;;
  fault (fun w => first_rejection w (browsers s));;;
  modify (set_browsers []).

End PoolCleanup.

(* ===================================================================== *)
(** ** [search.ts]: the shape check *)
(* ===================================================================== *)

(** A value of type [any]. Numbers are taken as rationals. *)
Inductive any : Type :=
| Null
| Undefined
| Bool (b : bool)
| Num (n : Q)
| Str (s : jsstring)
| Arr (items : list any)
| Obj (fields : list (jsstring * any)).

Module Shape.

(** Truthiness. *)
Definition truthy (v : any) : bool :=
  match v with
  | Null | Undefined => false
  | Bool b => b
  | Num n => negb (Qeq_bool n 0)
  | Str s => Js.truthy s
  | Arr _ | Obj _ => true
  end.

(** [typeof v === 'object'] *)
Definition is_object (v : any) : bool :=
  match v with
  | Null | Arr _ | Obj _ => true
  | _ => false
  end.

(** [v.name] on a value that is not [null] or [undefined]; an array and a
    primitive have no such property (the names used here are not those
    of built-in properties). *)
Definition prop (name : jsstring) (v : any) : any :=
  match v with
  | Obj fields =>
      match List.find (fun kv => Js.str_eqb name (fst kv)) fields with
      | Some kv => snd kv
      | None => Undefined
      end
  | _ => Undefined
  end.

(** The test of the filter of [validateScrapingResults]. *)
Definition isValid (result : any) : bool :=
  truthy result
  && is_object result
  && match prop (Js.lit "content") result with
     | Str content => (0 <? length (Js.trim content))%nat
     | _ => false
     end.

(** [validateScrapingResults(results)] *)
Definition validateScrapingResults (results : any) : list any :=
  match results with
  | Arr items => List.filter isValid items
  | _ => []
  end.

(** A scraping result as a value. *)
Definition optional (name : string) (v : option any)
  : list (jsstring * any) :=
  match v with Some x => [(Js.lit name, x)] | None => [] end.

Definition of_method (m : Metrics.method) : any :=
  Str (match m with
       | Metrics.cheerio => Js.lit "cheerio"
       | Metrics.puppeteer => Js.lit "puppeteer"
       | Metrics.cache => Js.lit "cache"
       end).

Definition of_metrics (m : Metrics.t) : any :=
  Obj ([ (Js.lit "startTime", Num (inject_Z (Metrics.startTime m))) ]
       ++ optional "cheerioAttemptTime"
            (option_map (fun d => Num (inject_Z d))
               (Metrics.cheerioAttemptTime m))
       ++ optional "puppeteerAttemptTime"
            (option_map (fun d => Num (inject_Z d))
               (Metrics.puppeteerAttemptTime m))
       ++ [ (Js.lit "totalTime", Num (inject_Z (Metrics.totalTime m)));
            (Js.lit "success", Bool (Metrics.success m));
            (Js.lit "method", of_method (Metrics.method_ m)) ]).

Definition of_stats (c : ContentStats) : any :=
  Obj [ (Js.lit "wordCount", Num (inject_Z (Z.of_nat (wordCount c))));
        (Js.lit "characterCount",
         Num (inject_Z (Z.of_nat (characterCount c))));
        (Js.lit "paragraphCount",
         Num (inject_Z (Z.of_nat (paragraphCount c))));
        (Js.lit "averageWordLength", Num (averageWordLength c)) ].

Definition of_result (r : ScrapingResult) : any :=
  Obj ([ (Js.lit "content", Str (content r));
         (Js.lit "title", Str (title r));
         (Js.lit "success", Bool (success r)) ]
       ++ optional "error" (option_map Str (error r))
       ++ [ (Js.lit "url", Str (url r));
            (Js.lit "timestamp", Str (timestamp r)) ]
       ++ optional "scrapeMethod" (option_map Str (scrapeMethod r))
       ++ optional "metrics" (option_map of_metrics (metrics r))
       ++ optional "contentStats" (option_map of_stats (contentStats r))).

End Shape.

(* ===================================================================== *)
(** ** The retry helper *)
(* ===================================================================== *)

Module Retry.

Definition MAX_RETRIES : nat := 3.
Definition RETRY_DELAY : Z := 1000.

Definition rate_limited : jsstring := Js.lit "429 Too Many Requests".

(** What one run of [withRetry] did: its outcome, how often it called the
    operation and how long it waited in all. *)
Record Run (A : Type) : Type := {
  result : outcome A;
  calls : nat;
  waited : Z
}.
Arguments result {A} r.
Arguments calls {A} r.
Arguments waited {A} r.

(** A thrown [null] or [undefined], written as in [loop] below. *)
Definition nullish (error : Js.exn) : bool :=
  match error with
  | Js.Thrown s =>
      Js.str_eqb s (Js.lit "null") || Js.str_eqb s (Js.lit "undefined")
  | _ => false
  end.

(** [error?.message.includes('429 Too Many Requests')]: [Some b] when the
    test is truthy or not, [None] when it throws. On [null] and
    [undefined] the [?.] ends the whole chain with [undefined], which is
    not truthy; any other thrown value that is no [Error] has no
    [message], and [.includes] on [undefined] throws. *)
Definition is_rate_limit (error : Js.exn) : option bool :=
  match error with
  | Js.Error m => Some (Js.includes rate_limited m)
  | Js.ScrapingError m _ _ => Some (Js.includes rate_limited m)
  | Js.Thrown _ => if nullish error then Some false else None
  end.

Definition no_includes : Js.exn :=
  Js.Error (Js.lit
    "Cannot read properties of undefined (reading 'includes')").

(** The loop from [attempt] on, with [left] turns to go; [operation k] is
    the outcome of the [k]-th call. [lastError] is [None] for [null]. *)
Fixpoint loop {A} (operation : nat -> outcome A) (delay : Z)
    (left attempt : nat) (lastError : option Js.exn) (waited : Z) : Run A :=
  match left with
  | O =>
      {| result := Throw (match lastError with
                          | Some e => e
                          | None => Js.Thrown (Js.lit "null")
                          end);
         calls := Nat.pred attempt; waited := waited |}
  | S left' =>
      match operation attempt with
      | Ret a => {| result := Ret a; calls := attempt; waited := waited |}
      | Throw error =>
          match is_rate_limit error with
          | None =>
              {| result := Throw no_includes; calls := attempt;
                 waited := waited |}
          | Some true =>
              loop operation delay left' (S attempt) (Some error)
                   (waited + delay * Z.of_nat attempt)
          | Some false =>
              {| result := Throw error; calls := attempt; waited := waited |}
          end
      end
  end.

(** [withRetry(operation, maxRetries, delay)] *)
Definition withRetry {A} (operation : nat -> outcome A) (maxRetries : nat)
    (delay : Z) : Run A :=
  loop operation delay maxRetries 1 None 0.

End Retry.

(* ===================================================================== *)
(** ** The chat history, as a list *)
(* ===================================================================== *)

Module HistorySpec.

Definition chat_key (conversationId : jsstring) : jsstring :=
  Cache.CHAT_HISTORY_PREFIX ++ conversationId.

(** The entries kept for a conversation, newest first. *)
Definition stored_chat (w : World) (s : Sys) (conversationId : jsstring)
  : list ChatEntry :=
  match Redis.live (redis_clock w) (db s) (chat_key conversationId) with
  | Some (RList items) => items
  | _ => []
  end.

(** [lrange(key, 0, stop)] on a list. *)
Definition range (items : list ChatEntry) (stop : Z) : list ChatEntry :=
  let last :=
    (if stop <? 0 then Z.of_nat (length items) + stop else stop)%Z in
  if (last <? 0)%Z then [] else firstn (Z.to_nat (last + 1)) items.

(** The key holds no string. *)
Definition chat_free (w : World) (s : Sys) (conversationId : jsstring)
  : Prop :=
  forall v ex,
    Redis.live (redis_clock w) (db s) (chat_key conversationId)
    <> Some (RStr v ex).

(** The store takes the push and the trim. *)
Definition store_up (w : World) (conversationId : jsstring) : Prop :=
  redis_lpush_fault w (chat_key conversationId) = None
  /\ redis_ltrim_fault w (chat_key conversationId) = None.

(** The entry [storeChat] writes. *)
Definition entry_of (w : World) (userMessage aiResponse : jsstring)
  : ChatEntry :=
  {| userMessage := userMessage; aiResponse := aiResponse;
     chat_timestamp := iso_date w |}.

(** The client of the source, [@upstash/redis], deserialises what it
    reads (which is why [getCachedContent] finds a stored result to be an
    object): the entries of a list come back as objects, [JSON.parse]
    takes an object as the text [[object Object]] and throws. *)
Definition as_objects (x : Replies) : Prop :=
  forall e : ChatEntry, parse_entry x e = None.

(** A world in which the chat store is down. *)
Definition chat_down (w : World) : World :=
  {| now_start := now_start w; now_cheerio := now_cheerio w;
     now_puppeteer := now_puppeteer w; now_end := now_end w;
     iso_date := iso_date w; date_now := date_now w;
     redis_clock := redis_clock w;
     redis_get_fault := redis_get_fault w;
     redis_set_fault := redis_set_fault w;
     redis_lpush_fault := fun _ => Some (Js.Error (Js.lit "fetch failed"));
     redis_ltrim_fault := redis_ltrim_fault w;
     json_parse := json_parse w;
     http_fetch := http_fetch w;
     cheerio_texts := cheerio_texts w;
     chrome_launch := chrome_launch w;
     chrome_alive := chrome_alive w;
     chrome_close_fault := chrome_close_fault w;
     page_open_fault := page_open_fault w;
     page_extract := page_extract w;
     page_close_fault := page_close_fault w |}.

(** Replies of a store that answers, with entries that parse. *)
Definition plain : Replies :=
  {| redis_lrange_fault := fun _ => None; parse_entry := Some;
     env_google_api_key := None; env_search_engine_id := None;
     env_development := false;
     search_fetch := fun _ => Throw (Js.Error (Js.lit "fetch failed"));
     hostname := fun _ => Throw (Js.Error (Js.lit "Invalid URL"));
     generate := fun _ => Throw (Js.Error (Js.lit "fetch failed"));
     stack_of := fun _ => [] |}.

(** Replies of a store that answers through that client. *)
Definition upstash : Replies :=
  {| redis_lrange_fault := fun _ => None; parse_entry := fun _ => None;
     env_google_api_key := None; env_search_engine_id := None;
     env_development := false;
     search_fetch := fun _ => Throw (Js.Error (Js.lit "fetch failed"));
     hostname := fun _ => Throw (Js.Error (Js.lit "Invalid URL"));
     generate := fun _ => Throw (Js.Error (Js.lit "fetch failed"));
     stack_of := fun _ => [] |}.

(** A conversation of [n] exchanges, newest first. *)
Definition talk (n : nat) : list ChatEntry :=
  List.map
    (fun k =>
       {| userMessage := Js.lit "question"; aiResponse := Js.lit "answer";
          chat_timestamp := [N.of_nat k] |})
    (seq 0 n).

Definition with_chat (conversationId : jsstring) (items : list ChatEntry)
    (s : Sys) : Sys :=
  set_db (<[chat_key conversationId := RList items]> (db s)) s.

End HistorySpec.

(** ** Shutting down *)

Module CleanupSpec.

(** One [close] per pooled session, newest first. *)
Definition close_log (bs : list Pooled) : list event :=
  rev (List.map (fun e => ChromeClose (browser e)) bs).

(** Every [close] of the pool resolves. *)
Definition closes_cleanly (w : World) (s : Sys) : Prop :=
  forall e : Pooled, In e (browsers s) ->
    chrome_close_fault w (browser e) = None.

End CleanupSpec.

(** ** Retries *)

Module RetrySpec.

Import Retry.

(** How the loop leaves on the outcome of one call; [None] when it goes
    round again. *)
Definition final {A} (o : outcome A) : option (outcome A) :=
  match o with
  | Ret a => Some (Ret a)
  | Throw error =>
      match is_rate_limit error with
      | Some true => None
      | Some false => Some (Throw error)
      | None => Some (Throw no_includes)
      end
  end.

(** [attempt + (attempt + 1) + ...], [turns] terms: the waits of that
    many turns from [attempt] on, in units of [delay]. *)
Fixpoint total (attempt turns : nat) : Z :=
  match turns with
  | O => 0
  | S turns' => Z.of_nat attempt + total (S attempt) turns'
  end.

(** An operation that is turned away [n] times and then answers. *)
Definition busy (n : nat) (k : nat) : outcome jsstring :=
  if (k <=? n)%nat
  then Throw (Js.Error (Js.lit "[429 Too Many Requests] quota exceeded"))
  else Ret (Js.lit "done").

End RetrySpec.

(** ** What the content processor hands on *)

Module ProcessorSpec.

Import ContentProcessor.

(** No [<] with a [>] somewhere after it: no text that the pattern of
    tags, [<[^>]*>], matches. *)
Fixpoint no_tag (s : jsstring) : bool :=
  match s with
  | [] => true
  | c :: t => (negb (c =? 60) || negb (existsb (N.eqb 62) t)) && no_tag t
  end.

(** A code unit that the sanitizer lets through: no control character,
    none of the three quotes it rewrites, and of white space only the
    plain space. *)
Definition clean (c : N) : bool :=
  negb (is_control c)
  && negb ((c =? 39) || (c =? 8220) || (c =? 8221))
  && (negb (Js.is_space c) || (c =? 32)).

(** [s'] is [s] with code units dropped or replaced, where no replacement
    makes an angle bracket. *)
Inductive thinned : jsstring -> jsstring -> Prop :=
| thinned_nil : thinned [] []
| thinned_drop (c : N) (s' s : jsstring) :
    thinned s' s -> thinned s' (c :: s)
| thinned_keep (c' c : N) (s' s : jsstring) :
    (c' = 60 -> c = 60) -> (c' = 62 -> c = 62) ->
    thinned s' s -> thinned (c' :: s') (c :: s).

(** Two pages as they come from the scraper. *)
Definition two_pages : list ScrapingResult :=
  [ {| content := Js.lit "<p>It's <b>here</b>...</p>" ++ [9; 1; 10];
       title := Js.lit "One"; success := true; error := None;
       url := Js.lit "https://example.org/1";
       timestamp := Js.lit "2024-12-15T10:00:00.000Z";
       scrapeMethod := Some (Js.lit "cheerio"); metrics := None;
       contentStats := None |};
    {| content := Js.lit "a < b and c > d";
       title := Js.lit "Two"; success := true; error := None;
       url := []; timestamp := Js.lit "2024-12-15T10:00:00.000Z";
       scrapeMethod := Some (Js.lit "puppeteer"); metrics := None;
       contentStats := None |} ].

End ProcessorSpec.

(* ===================================================================== *)
(** ** Strings of the search request *)
(* ===================================================================== *)

Module Uri.

(** A number in a template, for a natural number: its decimal digits. *)
Fixpoint digits (u : Decimal.uint) : jsstring :=
  match u with
  | Decimal.Nil => []
  | Decimal.D0 r => 48 :: digits r
  | Decimal.D1 r => 49 :: digits r
  | Decimal.D2 r => 50 :: digits r
  | Decimal.D3 r => 51 :: digits r
  | Decimal.D4 r => 52 :: digits r
  | Decimal.D5 r => 53 :: digits r
  | Decimal.D6 r => 54 :: digits r
  | Decimal.D7 r => 55 :: digits r
  | Decimal.D8 r => 56 :: digits r
  | Decimal.D9 r => 57 :: digits r
  end.

Definition decimal (n : nat) : jsstring := digits (Nat.to_uint n).

(** No surrogate on its own. *)
Fixpoint well_formed (s : jsstring) : bool :=
  match s with
  | [] => true
  | c :: t =>
      if Sha256.is_high c then
        match t with
        | d :: t' => Sha256.is_low d && well_formed t'
        | [] => false
        end
      else negb (Sha256.is_low c) && well_formed t
  end.

(** The characters that [encodeURIComponent] leaves as they are: letters,
    digits and [-_.!~*'()]. *)
Definition unreserved (b : N) : bool :=
  ((65 <=? b) && (b <=? 90)) || ((97 <=? b) && (b <=? 122))
  || ((48 <=? b) && (b <=? 57))
  || (b =? 45) || (b =? 95) || (b =? 46) || (b =? 33) || (b =? 126)
  || (b =? 42) || (b =? 39) || (b =? 40) || (b =? 41).

Definition upper_hex (d : N) : N := if d <? 10 then 48 + d else 55 + d.

Definition escape (b : N) : jsstring :=
  if unreserved b then [b]
  else [37; upper_hex (b / 16); upper_hex (b mod 16)].

(** [encodeURIComponent(s)]; [None] is the [URIError] of a surrogate on
    its own. *)
Definition encodeURIComponent (s : jsstring) : option jsstring :=
  if well_formed s then Some (flat_map escape (Sha256.utf8 s)) else None.

(** [s.endsWith(p)] *)
Definition endsWith (p s : jsstring) : bool :=
  Js.startsWith (rev p) (rev s).

End Uri.

(* ===================================================================== *)
(** ** [search.ts]: the search *)
(* ===================================================================== *)

Module GoogleSearch.

(** [process.env.X || fallback] *)
Definition env_or (v : option jsstring) (fallback : jsstring) : jsstring :=
  match v with
  | Some s => if Js.truthy s then s else fallback
  | None => fallback
  end.

Definition authorityScore (domain : jsstring) : Q :=
  if Uri.endsWith (Js.lit ".gov") domain then 1
  else if Uri.endsWith (Js.lit ".edu") domain then 9 # 10
  else if Uri.endsWith (Js.lit ".org") domain then 8 # 10
  else 5 # 10.

(** [data.items.map(...)]: the callback throws when [link] is no URL. *)
Fixpoint to_results (x : Replies) (items : list Item)
  : outcome (list SearchResult) :=
  match items with
  | [] => Ret []
  | item :: rest =>
      match hostname x (link item) with
      | Throw error => Throw error
      | Ret domain =>
          match to_results x rest with
          | Throw error => Throw error
          | Ret results =>
              Ret ({| sr_url := link item; sr_title := item_title item;
                      snippet := item_snippet item; domain := domain;
                      searchScore := authorityScore domain |} :: results)
          end
      end
  end.

Definition request_url (key engine query : jsstring) (numResults : nat)
  : jsstring :=
  Js.lit "https://www.googleapis.com/customsearch/v1?key=" ++ key
  ++ Js.lit "&cx=" ++ engine ++ Js.lit "&q=" ++ query
  ++ Js.lit "&num=" ++ Uri.decimal numResults.

(** [googleSearch(query, numResults)] *)
Definition googleSearch (x : Replies) (query : jsstring) (numResults : nat)
  : list SearchResult :=
  let GOOGLE_API_KEY :=
    env_or (env_google_api_key x) (Js.lit "your-hardcoded-api-key") in
  let SEARCH_ENGINE_ID :=
    env_or (env_search_engine_id x)
           (Js.lit "your-hardcoded-search-engine-id") in
  if negb (Js.truthy GOOGLE_API_KEY) || negb (Js.truthy SEARCH_ENGINE_ID)
  then []
  else
    (* the [try] block; its [catch] returns the empty list *)
    match Uri.encodeURIComponent query with
    | None => []
    | Some encoded =>
        match search_fetch x
                (request_url GOOGLE_API_KEY SEARCH_ENGINE_ID encoded
                   numResults) with
        | Throw _ => []
        | Ret response =>
            if negb (ok response) then []
            else
              match json response with
              | Throw _ => []
              | Ret (Some (item :: rest)) =>
                  match to_results x (item :: rest) with
                  | Ret results => results
                  | Throw _ => []
                  end
              | Ret _ => []
              end
        end
    end.

End GoogleSearch.

(* ===================================================================== *)
(** ** [GeminiClient.ts] *)
(* ===================================================================== *)

Definition MIN_CONFIDENCE_SCORE : Q := 5 # 10.

Record ContentRequirements : Type := {
  needsFullText : bool;
  needsFactChecking : bool;
  needsMultipleSources : bool;
  specificFocus : option jsstring        (* [None] is [null] *)
}.

(** [type QueryAnalysis], with the [contentRequirements] that two of the
    three places add to it. *)
Record QueryAnalysis : Type := {
  isCasual : bool;
  needsSearch : bool;
  reasoning : jsstring;
  suggestedApproach : jsstring;
  searchQuery : field jsstring;
  confidenceScore : Q;
  extractedUrls : list jsstring;
  isFollowUp : bool;
  contentRequirements : option ContentRequirements
}.

Module Gemini.

(** *** The pattern of URLs, [/(https?:\/\/[^\s]+)/g] *)

(** The longest run of code units that are not white space. *)
Fixpoint run (s : jsstring) : jsstring :=
  match s with
  | [] => []
  | c :: t => if Js.is_space c then [] else c :: run t
  end.

(** A match of the pattern at the head of [s]. *)
Definition url_at (s : jsstring) : option jsstring :=
  let after (scheme : jsstring) : option jsstring :=
    if Js.startsWith scheme s then
      match run (skipn (length scheme) s) with
      | [] => None
      | c :: r => Some (scheme ++ c :: r)
      end
    else None in
  match after (Js.lit "https://") with
  | Some m => Some m
  | None => after (Js.lit "http://")
  end.

(** The matches from left to right; [skip] counts the code units of the
    last match that are still to be passed. *)
Fixpoint urls_go (skip : nat) (s : jsstring) : list jsstring :=
  match s with
  | [] => []
  | _ :: t =>
      match skip with
      | S k => urls_go k t
      | O =>
          match url_at s with
          | Some m => m :: urls_go (length m - 1) t
          | None => urls_go O t
          end
      end
  end.

(** [query.match(urlRegex) || []] *)
Definition match_urls (query : jsstring) : list jsstring := urls_go O query.

(** *** The prompt of the analysis *)

(** [`Message ${index + 1}: ${message}`] from [index] on. *)
Fixpoint numbered (index : nat) (messages : list jsstring)
  : list jsstring :=
  match messages with
  | [] => []
  | message :: rest =>
      (Js.lit "Message " ++ Uri.decimal (index + 1) ++ Js.lit ": "
       ++ message)
      :: numbered (S index) rest
  end.

(** The template of [analyzerPrompt]. *)
Definition analyzerPrompt (query chatHistoryContext : jsstring) : jsstring :=
  List.concat
    [ [10];
      Js.lit "  Analyze the intent of the following user query in the ";
      Js.lit "context of the conversation:";
      [10];
      Js.lit "  ";
      [10];
      Js.lit "  Query: ";
      [34]; query; [34]; [10];
      Js.lit "  ";
      [10];
      Js.lit "  Conversation history:";
      [10];
      Js.lit "  ";
      chatHistoryContext; [10];
      Js.lit "  ";
      [10];
      Js.lit "  Provide the following details in a numbered list ";
      Js.lit "format. Respond strictly in this format:";
      [10];
      Js.lit "  1. Is the query casual? (true/false)";
      [10];
      Js.lit "  2. Does the query require additional information from ";
      Js.lit "external sources? (true/false)";
      [10];
      Js.lit "  3. Reasoning behind your analysis.";
      [10];
      Js.lit "  4. Suggested approach for answering the query.";
      [10];
      Js.lit "  5. Suggested search query (if applicable, otherwise ";
      [34];
      Js.lit "null";
      [34];
      Js.lit ").";
      [10];
      Js.lit "  6. Specific content requirements (if applicable, ";
      Js.lit "otherwise ";
      [34];
      Js.lit "none";
      [34];
      Js.lit ").";
      [10];
      Js.lit "  7. Is this query a follow-up to the previous messages? ";
      Js.lit "(true/false)";
      [10];
      Js.lit "  " ].

(** *** The reply of the analysis *)

(** One group [(.+)] followed by [sep] and by what [rest] matches, in a
    string that has to be matched to its end: the group is tried at its
    longest first, [n] code units, and then shorter; [rest] gives the
    groups of what follows. *)
Fixpoint group_then (rest : jsstring -> option (list jsstring))
    (sep s : jsstring) (n : nat) : option (list jsstring) :=
  match n with
  | O => None
  | S n' =>
      if Js.startsWith sep (skipn n s) then
        match rest (skipn (n + length sep) s) with
        | Some gs => Some (firstn n s :: gs)
        | None => group_then rest sep s n'
        end
      else group_then rest sep s n'
  end.

(** The groups of [(.+)sep(.+)sep...(.+)$] with [.] matching every code
    unit: each group takes as much as a match of the rest allows, the
    first one first. *)
Fixpoint groups (seps : list jsstring) (s : jsstring)
  : option (list jsstring) :=
  match seps with
  | [] => match s with [] => None | _ :: _ => Some [s] end
  | sep :: rest => group_then (groups rest) sep s (length s)
  end.

(** [\nK. ] *)
Definition item_mark (k : string) : jsstring := [10] ++ Js.lit k ++ Js.lit ". ".

(** [parseListResponse(response)] *)
Definition parseListResponse (response : jsstring)
  : option (list jsstring) :=
  if Js.startsWith (Js.lit "1. ") response then
    option_map (List.map Js.trim)
      (groups [ item_mark "2"; item_mark "3"; item_mark "4";
                item_mark "5"; item_mark "6"; item_mark "7" ]
         (skipn 3 response))
  else None.

(** The class of the two quotes, and [.replace(/^["']|["']$/g, '')]. *)
Definition is_quote (c : N) : bool := (c =? 34) || (c =? 39).

Definition strip_quotes (s : jsstring) : jsstring :=
  let s1 :=
    match s with
    | c :: t => if is_quote c then t else s
    | [] => []
    end in
  match rev s1 with
  | c :: t => if is_quote c then rev t else s1
  | [] => s1
  end.

(** [createFallbackAnalysis(extractedUrls)] *)
Definition createFallbackAnalysis (extractedUrls : list jsstring)
  : QueryAnalysis :=
  {| isCasual := true;
     needsSearch := false;
     reasoning := Js.lit "Fallback due to analysis failure.";
     suggestedApproach := Js.lit "Respond conversationally.";
     searchQuery := Absent;
     confidenceScore := MIN_CONFIDENCE_SCORE;
     extractedUrls := extractedUrls;
     isFollowUp := false;
     contentRequirements :=
       Some {| needsFullText := false; needsFactChecking := false;
               needsMultipleSources := false; specificFocus := None |} |}.

(** [analyzeQueryIntent(query, chatHistory)] *)
Definition analyzeQueryIntent (x : Replies) (query : jsstring)
    (chatHistory : list jsstring) : QueryAnalysis :=
  let extractedUrls := match_urls query in
  if (0 <? length extractedUrls)%nat then
    {| isCasual := false;
       needsSearch := false;
       reasoning :=
         Js.lit "User provided URLs directly in the query. "
         ++ Js.lit "Prioritize scraping these URLs for context.";
       suggestedApproach :=
         Js.lit "Scrape provided URLs to gather relevant information.";
       searchQuery := IsNull;
       confidenceScore := 1;
       extractedUrls := extractedUrls;
       isFollowUp := false;
       contentRequirements := None |}
  else
    let chatHistoryContext := Js.join [10] (numbered O chatHistory) in
    let analyzerPrompt := analyzerPrompt query chatHistoryContext in
    (* the [try] block; its [catch] returns the fallback *)
    match generate x analyzerPrompt with
    | Throw _ => createFallbackAnalysis extractedUrls
    | Ret rawResponse =>
        match parseListResponse rawResponse with
        | Some [ isCasual; needsSearch; reasoning; suggestedApproach;
                 searchQuery; specificFocus; isFollowUp ] =>
            {| isCasual := Js.str_eqb isCasual (Js.lit "true");
               needsSearch := Js.str_eqb needsSearch (Js.lit "true");
               reasoning := reasoning;
               suggestedApproach := suggestedApproach;
               searchQuery :=
                 if Js.str_eqb searchQuery (Js.lit "null") then IsNull
                 else Given (strip_quotes searchQuery);
               confidenceScore := 1;
               extractedUrls := extractedUrls;
               isFollowUp := Js.str_eqb isFollowUp (Js.lit "true");
               contentRequirements :=
                 Some {| needsFullText := false;
                         needsFactChecking := false;
                         needsMultipleSources := false;
                         specificFocus :=
                           if Js.str_eqb specificFocus (Js.lit "none")
                           then None else Some specificFocus |} |}
        (* no match of the pattern, which has seven groups *)
        | _ => createFallbackAnalysis extractedUrls
        end
    end.

(** *** Prompts and answers *)

(** The template of [createEnhancedPrompt], around its two holes. *)
Definition prompt_text (query context_part : jsstring) : jsstring :=
  List.concat
    [ [10];
      Js.lit "You are a knowledgeable assistant. Always provide a ";
      Js.lit "direct and complete response to the user's query. Avoid ";
      Js.lit "asking follow-up questions or requesting additional ";
      Js.lit "information. Respond concisely, accurately, and in a ";
      Js.lit "helpful tone.";
      [10];
      Js.lit "Based on the context --- if there are any sources or ";
      Js.lit "links be sure to cite them in your responses! ";
      [10];
      Js.lit "Do not however, refer directly to the context as 'the ";
      Js.lit "provided text' address the user's query directly, as if ";
      Js.lit "you collected the context, not as if they provided it.";
      [10]; context_part; [10]; [10];
      Js.lit "Query: ";
      [34]; query; [34]; [10]; [10];
      Js.lit "Response:" ].

(** [createEnhancedPrompt({ query, context, reasoning, isCasual })] *)
Definition createEnhancedPrompt (query context reasoning : jsstring)
    (isCasual : bool) : jsstring :=
  prompt_text query
    (if Js.truthy context
     then Js.lit "Context:" ++ [10] ++ context ++ [10]
     else []).

Definition generation_failed : Js.exn :=
  Js.Error (Js.lit "Failed to generate AI response").

(** [generateProgressiveResponse(prompt, conversationId)] *)
Definition generateProgressiveResponse (x : Replies)
    (prompt conversationId : jsstring) : outcome jsstring :=
  match generate x prompt with
  | Ret text => Ret (Js.trim text)
  | Throw _ => Throw generation_failed
  end.

(** The template of [summaryPrompt]. *)
Definition summaryPrompt (content : jsstring) : jsstring :=
  List.concat
    [ [10];
      Js.lit "Summarize the following content. Avoid omitting important ";
      Js.lit "information:";
      [10]; [10]; content; [10]; [10];
      Js.lit "Provide a concise and structured summary." ].

Definition MAX_SUMMARY_LENGTH : nat := N.to_nat 15000.

Definition summary_failed : Js.exn :=
  Js.Error (Js.lit "Summarization failed. Please refine your input.").

(** [summarizeContent(content)] *)
Definition summarizeContent (x : Replies) (content : jsstring)
  : outcome jsstring :=
  match generate x (summaryPrompt content) with
  | Ret text =>
      let summary := Js.trim text in
      Ret (if (MAX_SUMMARY_LENGTH <? length summary)%nat
           then Js.substring0 MAX_SUMMARY_LENGTH summary ++ Js.lit "..."
           else summary)
  | Throw _ => Throw summary_failed
  end.

(** The worlds of the turns of one run of the gatherer, from turn [from]
    on. *)
Definition with_worlds (turn : nat -> World) (from : nat)
    (urls : list jsstring) : list (jsstring * World) :=
  combine urls (List.map turn (seq from (length urls))).

(** [result.content] of a validated result. *)
Definition content_of (result : any) : jsstring :=
  match Shape.prop (Js.lit "content") result with
  | Str c => c
  | _ => []
  end.

(** The object [{ scrapingResults }] that [gatherInformation] returns. *)
Definition gathered (results : list ScrapingResult) : any :=
  Obj [ (Js.lit "scrapingResults", Arr (List.map Shape.of_result results)) ].

(** [handleQuery(query, conversationId, chatHistory)]; [turn k] is the
    world of the [k]-th URL that is gathered. *)
Definition handleQuery (x : Replies) (turn : nat -> World)
    (query conversationId : jsstring) (chatHistory : list jsstring)
    (s : Sys) : outcome jsstring * Sys :=
  let queryAnalysis := analyzeQueryIntent x query chatHistory in
  let direct (s : Sys) : outcome jsstring * Sys :=
    (Ret (createEnhancedPrompt query [] (reasoning queryAnalysis)
            (isCasual queryAnalysis)), s) in
  let searched (from : nat) (s : Sys) : outcome jsstring * Sys :=
    if needsSearch queryAnalysis then
      let searchResults :=
        GoogleSearch.googleSearch x
          (match searchQuery queryAnalysis with
           | Given q => if Js.truthy q then q else query
           | _ => query
           end) 3 in
      let searchUrls := List.map sr_url searchResults in
      match Search.gatherInformation query conversationId
              (with_worlds turn from searchUrls) s with
      | (Throw error, s') => (Throw error, s')
      | (Ret results, s') =>
          let validatedResults :=
            Shape.validateScrapingResults (gathered results) in
          if (0 <? length validatedResults)%nat then
            let context :=
              Js.join [10; 10] (List.map content_of validatedResults) in
            (Ret (createEnhancedPrompt query context
                    (reasoning queryAnalysis) (isCasual queryAnalysis)), s')
          else direct s'
      end
    else direct s in
  if (0 <? length (extractedUrls queryAnalysis))%nat then
    match Search.gatherInformation query conversationId
            (with_worlds turn O (extractedUrls queryAnalysis)) s with
    | (Throw error, s') => (Throw error, s')
    | (Ret results, s') =>
        let validatedResults :=
          Shape.validateScrapingResults (gathered results) in
        if (0 <? length validatedResults)%nat then
          let context :=
            Js.join [10; 10] (List.map content_of validatedResults) in
          (Ret (createEnhancedPrompt query context
                  (reasoning queryAnalysis) (isCasual queryAnalysis)), s')
        else searched (length (extractedUrls queryAnalysis)) s'
    end
  else searched O s.

End Gemini.

(* ===================================================================== *)
(** ** The route [POST /api/chat] *)
(* ===================================================================== *)

Module Route.

Definition MAX_SCRAPING_RESULTS : nat := 5.
Definition MAX_SEARCH_RESULTS : nat := 5.

(** The body of the request after [const { message, conversationId } =
    body]; the two are taken to be strings where they are there. *)
Record Body : Type := {
  message : field jsstring;
  conversationId : field jsstring
}.

(** What one request meets. *)
Record Request : Type := {
  body : outcome Body;        (* [req.json()] and the destructuring *)
  history_world : World;      (* the world of [getChatHistory] *)
  turn : nat -> World;        (* the world of the k-th gathered URL *)
  store_world : World;        (* the world of [storeChat] *)
  clock : nat -> Z            (* the k-th reading of [performance.now()] *)
}.

Record Timing : Type := {
  startTime : Z;
  analysisTime : Z;
  scrapingTime : Z;
  processingTime : Z;
  responseTime : Z;
  totalTime : Z
}.

Record Preview : Type := {
  pv_url : jsstring;
  pv_title : jsstring;
  contentPreview : jsstring;
  pv_scrapeMethod : option jsstring
}.

(** The three responses, with status 200, 400 and 500. *)
Inductive Response : Type :=
| Answered (aiResponse : jsstring) (metrics : Timing)
    (context : option (list Preview * QueryAnalysis))
| Rejected (message : jsstring)
| Failed (message error : jsstring) (stack : option jsstring).

Definition status_of (r : Response) : nat :=
  match r with
  | Answered _ _ _ => 200
  | Rejected _ => 400
  | Failed _ _ _ => 500
  end.

(** [validateScrapingResults] on an array of results, as results. *)
Definition validated (results : list ScrapingResult)
  : list ScrapingResult :=
  List.filter (fun r => Shape.isValid (Shape.of_result r)) results.

Definition preview (result : ScrapingResult) : Preview :=
  {| pv_url := url result;
     pv_title := title result;
     contentPreview := Js.substring0 100 (content result) ++ Js.lit "...";
     pv_scrapeMethod := scrapeMethod result |}.

(** [query.match] on a message that is no string. *)
Definition no_match (what : string) : Js.exn :=
  Js.Error (Js.lit "Cannot read properties of " ++ Js.lit what
            ++ Js.lit " (reading 'match')").

(** Step 2 of the handler, the gathering; the search is asked only when
    the message holds no URL and the analysis wants it. *)
Definition gather (x : Replies) (q : Request) (message id : jsstring)
    (queryAnalysis : QueryAnalysis) (s : Sys)
  : outcome (list ScrapingResult) * Sys :=
  let searchUrls := extractedUrls queryAnalysis in
  if (0 <? length searchUrls)%nat then
    match Search.gatherInformation message id
            (Gemini.with_worlds (turn q) O searchUrls) s with
    | (Ret results, s') => (Ret (validated results), s')
    | (Throw error, s') => (Throw error, s')
    end
  else if needsSearch queryAnalysis then
    let searchResults :=
      GoogleSearch.googleSearch x
        (match searchQuery queryAnalysis with
         | Given sq => if Js.truthy sq then sq else message
         | _ => message
         end) MAX_SEARCH_RESULTS in
    let searchUrls := List.map sr_url searchResults in
    if (0 <? length searchUrls)%nat then
      match Search.gatherInformation message id
              (Gemini.with_worlds (turn q) O searchUrls) s with
      | (Ret results, s') => (Ret (validated results), s')
      | (Throw error, s') => (Throw error, s')
      end
    else (Ret [], s)
  else (Ret [], s).

(** The [try] block of the handler. *)
Definition attempt (x : Replies) (q : Request) (s : Sys)
  : outcome Response * Sys :=
  match body q with
  | Throw error => (Throw error, s)
  | Ret b =>
      match conversationId b with
      | Given id =>
          if Js.truthy id then
            match ChatHistory.getChatHistory x id 5 (history_world q) s with
            | (Throw error, s1) => (Throw error, s1)
            | (Ret chatHistory, s1) =>
                match message b with
                | Absent => (Throw (no_match "undefined"), s1)
                | IsNull => (Throw (no_match "null"), s1)
                | Given message =>
                    let queryAnalysis :=
                      Gemini.analyzeQueryIntent x message
                        (List.map (fun _ => Js.lit "[object Object]")
                                  chatHistory) in
                    match gather x q message id queryAnalysis s1 with
                    | (Throw error, s2) => (Throw error, s2)
                    | (Ret scrapingResults, s2) =>
                        let scrapingResults :=
                          firstn MAX_SCRAPING_RESULTS scrapingResults in
                        let enhancedPrompt :=
                          if (0 <? length scrapingResults)%nat then
                            Gemini.createEnhancedPrompt message
                              (ContentProcessor.pc_content
                                 (ContentProcessor.processContentForAI
                                    scrapingResults))
                              (reasoning queryAnalysis)
                              (isCasual queryAnalysis)
                          else
                            Gemini.createEnhancedPrompt message []
                              (reasoning queryAnalysis)
                              (isCasual queryAnalysis) in
                        match Gemini.generateProgressiveResponse x
                                enhancedPrompt id with
                        | Throw error => (Throw error, s2)
                        | Ret aiResponse =>
                            match Cache.storeChat id message aiResponse
                                    (store_world q) s2 with
                            | (Throw error, s3) => (Throw error, s3)
                            | (Ret _, s3) =>
                                (Ret (Answered aiResponse
                                   {| startTime := clock q 0;
                                      analysisTime := clock q 2 - clock q 1;
                                      scrapingTime := clock q 3 - clock q 1;
                                      processingTime :=
                                        clock q 5 - clock q 4;
                                      responseTime := clock q 7 - clock q 6;
                                      totalTime := clock q 8 - clock q 0 |}
                                   (if (0 <? length scrapingResults)%nat
                                    then Some (List.map preview
                                                 scrapingResults,
                                               queryAnalysis)
                                    else None)), s3)
                            end
                        end
                    end
                end
            end
          else
            (Ret (Rejected (Js.lit "Conversation ID is required")), s)
      | _ => (Ret (Rejected (Js.lit "Conversation ID is required")), s)
      end
  end.

(** [POST(req)] *)
Definition POST (x : Replies) (q : Request) (s : Sys) : Response * Sys :=
  match attempt x q s with
  | (Ret response, s') => (response, s')
  | (Throw error, s') =>
      (Failed (Js.lit "Internal server error")
         (match error with
          | Js.Thrown _ => Js.lit "Unknown error"
          | _ => Js.message_field error
          end)
         (if env_development x then
            match error with
            | Js.Thrown _ => None
            | _ => Some (stack_of x error)
            end
          else None),
       s')
  end.

End Route.

(** ** Answers in the format of the analysis *)

Module FormatSpec.

(** An item of the list: something, on one line. *)
Definition one_line (item : jsstring) : Prop :=
  item <> [] /\ ~ In 10 item.

(** [first], then each mark with its item. *)
Definition layout (first : jsstring) (rest : list (jsstring * jsstring))
  : jsstring :=
  first ++ concat (List.map (fun p => fst p ++ snd p) rest).

(** The answer that the prompt asks for. *)
Definition formatted (i1 i2 i3 i4 i5 i6 i7 : jsstring) : jsstring :=
  Js.lit "1. "
  ++ layout i1
       [ (Gemini.item_mark "2", i2); (Gemini.item_mark "3", i3);
         (Gemini.item_mark "4", i4); (Gemini.item_mark "5", i5);
         (Gemini.item_mark "6", i6); (Gemini.item_mark "7", i7) ].

(** No match of the mark [\n] followed by [m] anywhere in [t]. *)
Definition clear_of (m t : jsstring) : Prop :=
  forall i : nat, Js.startsWith (10 :: m) (skipn i t) = false.

(** Marks that begin with a line break and differ in what follows it. *)
Inductive marked : list (jsstring * jsstring) -> Prop :=
| marked_nil : marked []
| marked_cons (x : N) (r item : jsstring)
    (rest : list (jsstring * jsstring)) :
    ~ In 10 (x :: r) ->
    one_line item ->
    Forall (fun p => exists (x' : N) (r' : jsstring),
                fst p = 10 :: x' :: r' /\ x <> x') rest ->
    marked rest ->
    marked ((10 :: x :: r, item) :: rest).

End FormatSpec.

(** ** Requests *)

Module RouteSample.

Import Route.

(** A model that answers every prompt with the same words. *)
Definition chatty : Replies :=
  {| redis_lrange_fault := fun _ => None; parse_entry := Some;
     env_google_api_key := None; env_search_engine_id := None;
     env_development := false;
     search_fetch := fun _ => Throw (Js.Error (Js.lit "fetch failed"));
     hostname := fun _ => Throw (Js.Error (Js.lit "Invalid URL"));
     generate := fun _ => Ret (Js.lit " Hello! ");
     stack_of := fun _ => [] |}.

(** A request of conversation [c1], whose pages are the article. *)
Definition asking (text : string) (store : World) : Request :=
  {| body := Ret {| message := Given (Js.lit text);
                    conversationId := Given (Js.lit "c1") |};
     history_world := Sample.offline;
     turn := fun _ => Sample.article;
     store_world := store;
     clock := fun k => Z.of_nat k |}.

(** A request that names no conversation. *)
Definition anonymous : Request :=
  {| body := Ret {| message := Given (Js.lit "hi");
                    conversationId := Absent |};
     history_world := Sample.offline;
     turn := fun _ => Sample.article;
     store_world := Sample.offline;
     clock := fun k => Z.of_nat k |}.



End RouteSample.

(** ** More derived definitions *)

(** ** The calls of the orchestrator, in full *)

Module CallSpec.

Import Scrape ScrapeSpec PoolSpec.

(** The calls to Chrome of one [scrapeWithPuppeteer], newest first: the
    page is opened when a session was acquired, and closed when it was
    opened. *)
Definition page_log (w : World) (s : Sys) (url : jsstring) : list event :=
  match acquired w s with
  | Throw _ => []
  | Ret b =>
      match page_open_fault w b with
      | Some _ => [PageOpen b]
      | None => [PageClose b; PageExtract b url; PageOpen b]
      end
  end.

(** On a cache miss: does the call get as far as the browser pool? *)
Definition pool_used (w : World) (url : jsstring) : bool :=
  match static_text w url with
  | Ret c => negb (isContentMeaningful c)
  | Throw _ => false
  end.

(** The state a call on a well-formed URL leaves after a cache miss. *)
Definition miss_state (url : jsstring) (w : World) (s : Sys) : Sys :=
  {| db := miss_db url w s;
     browsers := if pool_used w url then pool_after w s else browsers s;
     launched := if pool_used w url then launched_after w s else launched s;
     log :=
       (if success (miss_result url w s)
        then [RedisSet (scrape_key url)] else [])
       ++ (if pool_used w url then page_log w s url ++ pool_log w s else [])
       ++ HttpFetch url :: RedisGet (scrape_key url) :: log s |}.

End CallSpec.

(** ** More sample worlds *)

Module Scenario.

(** The article page, with a store that rejects every read. *)
Definition lookup_down : World :=
  {| now_start := 0; now_cheerio := 1; now_puppeteer := 2; now_end := 3;
     iso_date := Js.lit "2024-12-15T10:00:00.000Z";
     date_now := 1734256800000;
     redis_clock := 1000;
     redis_get_fault := fun _ => Some (Js.Error (Js.lit "ECONNREFUSED"));
     redis_set_fault := fun _ => None;
     redis_lpush_fault := fun _ => None;
     redis_ltrim_fault := fun _ => None;
     json_parse := fun _ => None;
     http_fetch := fun _ => Ret {| text := Ret (Js.lit "<article/>") |};
     cheerio_texts := fun _ => Ret [Sample.prose];
     chrome_launch := None;
     chrome_alive := fun _ => true;
     chrome_close_fault := fun _ => None;
     page_open_fault := fun _ => None;
     page_extract := fun _ _ => Ret [];
     page_close_fault := fun _ => None |}.

(** The page of [Sample.missing], with Chrome unable to start. *)
Definition no_chrome : World :=
  {| now_start := 0; now_cheerio := 1; now_puppeteer := 2; now_end := 3;
     iso_date := Js.lit "2024-12-15T10:00:00.000Z";
     date_now := 1734256800000;
     redis_clock := 1000;
     redis_get_fault := fun _ => None;
     redis_set_fault := fun _ => None;
     redis_lpush_fault := fun _ => None;
     redis_ltrim_fault := fun _ => None;
     json_parse := fun _ => None;
     http_fetch := fun _ => Ret {| text := Ret (Js.lit "<p/>") |};
     cheerio_texts := fun _ => Ret [Sample.not_found];
     chrome_launch := Some (Js.Error (Js.lit "spawn chrome ENOENT"));
     chrome_alive := fun _ => true;
     chrome_close_fault := fun _ => None;
     page_open_fault := fun _ => None;
     page_extract := fun _ _ => Ret Sample.not_found;
     page_close_fault := fun _ => None |}.

(** A rendered page with prose, whose [close] rejects. *)
Definition close_fails : World :=
  {| now_start := 0; now_cheerio := 1; now_puppeteer := 2; now_end := 3;
     iso_date := Js.lit "2024-12-15T10:00:00.000Z";
     date_now := 1734256800000;
     redis_clock := 1000;
     redis_get_fault := fun _ => None;
     redis_set_fault := fun _ => None;
     redis_lpush_fault := fun _ => None;
     redis_ltrim_fault := fun _ => None;
     json_parse := fun _ => None;
     http_fetch := fun _ => Ret {| text := Ret (Js.lit "<p/>") |};
     cheerio_texts := fun _ => Ret [];
     chrome_launch := None;
     chrome_alive := fun _ => true;
     chrome_close_fault := fun _ => None;
     page_open_fault := fun _ => None;
     page_extract := fun _ _ => Ret Sample.prose;
     page_close_fault := fun _ => Some (Js.Error (Js.lit "Target closed")) |}.

(** Session 1 of the pool has died; the others answer. *)
Definition one_dead : World :=
  {| now_start := 0; now_cheerio := 1; now_puppeteer := 2; now_end := 3;
     iso_date := Js.lit "2024-12-15T10:00:00.000Z";
     date_now := 1734256800000;
     redis_clock := 1000;
     redis_get_fault := fun _ => None;
     redis_set_fault := fun _ => None;
     redis_lpush_fault := fun _ => None;
     redis_ltrim_fault := fun _ => None;
     json_parse := fun _ => None;
     http_fetch := fun _ => Throw (Js.Error (Js.lit "fetch failed"));
     cheerio_texts := fun _ => Ret [];
     chrome_launch := None;
     chrome_alive := fun b => negb (b =? 1)%nat;
     chrome_close_fault := fun b =>
       if (b =? 1)%nat then Some (Js.Error (Js.lit "Connection closed"))
       else None;
     page_open_fault := fun _ => None;
     page_extract := fun _ _ => Ret [];
     page_close_fault := fun _ => None |}.

(** A pool of three sessions, used at times 10, 30 and 20. *)
Definition full_pool : Sys :=
  {| db := ∅;
     browsers := [ {| browser := 0; lastUsed := 10 |};
                   {| browser := 1; lastUsed := 30 |};
                   {| browser := 2; lastUsed := 20 |} ];
     launched := 3; log := [] |}.

End Scenario.

(** ** Static extraction *)

Module CheerioSpec.

(** The pieces [scrapeWithCheerio] keeps of the element texts. *)
Definition kept (texts : list jsstring) (p : jsstring) : Prop :=
  (50 < length p)%nat /\ exists t : jsstring, In t texts /\ p = Js.trim t.

End CheerioSpec.

(* ===================================================================== *)
(** * Properties *)
(* ===================================================================== *)

Arguments Sha256.sha256_hex : simpl never.
Arguments Js.lit : simpl never.
Arguments Scrape.isContentMeaningful : simpl never.
Arguments Scrape.scrapeWithPuppeteer : simpl never.
Arguments Scrape.scrapeWithCheerio : simpl never.
Arguments Cache.getCachedContent : simpl never.
Arguments Cache.setCachedContent : simpl never.
Arguments BrowserPool.getBrowser : simpl never.
Arguments Scrape.title_of : simpl never.
Arguments Scrape.stats_of : simpl never.

(** Expose the state passing of a computation. *)
Ltac run_eff :=
  unfold bind, try_catch, try_finally, ret, throw, modify, ask, state,
    reply, fault;
  simpl.

(** ** The embedding on known values *)

Example sha256_abc :
  Sha256.sha256_hex (Js.lit "abc")
  = Js.lit "ba7816bf8f01cfea414140de5dae2223b00361a396177a9cb410ff61f20015ad".
Proof. vm_compute. reflexivity. Qed.

Example sha256_two_blocks :
  Sha256.sha256_hex (repeat 97 70)
  = Js.lit "6bd5e5034855a11241f0dee8fc72850ffd9955b28347a86428b5fa19119f6ad0".
Proof. vm_compute. reflexivity. Qed.

Example sha256_utf8 :
  Sha256.sha256_hex [104; 233; 8364]
  = Js.lit "295481c64a450d830f645d05cdffd7ef9f09d53691872548ff04345a458af99b".
Proof. vm_compute. reflexivity. Qed.

Example sha256_surrogate_pair :
  Sha256.sha256_hex [55357; 56832; 120]
  = Js.lit "10f5e9cdd01d869815a52f43599f9c372ffa4b41cda11b5180da85dc0928333c".
Proof. vm_compute. reflexivity. Qed.

Example split_words :
  Scrape.words (Js.lit " a b  c ")
  = [ []; Js.lit "a"; Js.lit "b"; Js.lit "c"; [] ].
Proof. reflexivity. Qed.

Example split_sentences :
  Scrape.sentences (Js.lit "a. b!? c")
  = [ Js.lit "a"; Js.lit " b"; Js.lit " c" ].
Proof. reflexivity. Qed.

Example split_paragraphs :
  Js.split_lit [10; 10] (Js.lit "a" ++ [10; 10; 10] ++ Js.lit "b")
  = [ Js.lit "a"; [10] ++ Js.lit "b" ].
Proof. reflexivity. Qed.

Example sanitize_sample :
  ContentProcessor.sanitizeContent
    (Js.lit "a ```json x``` <b>bold</b>  <  y > z!!?.. 'q' ,, end.  ")
  = Js.lit "a x bold z. " ++ [34] ++ Js.lit "q" ++ [34] ++ Js.lit " , end.".
Proof. reflexivity. Qed.

Example gate_accepts_prose : Scrape.isContentMeaningful Sample.prose = true.
Proof. vm_compute. reflexivity. Qed.

Example gate_rejects_error_page :
  Scrape.isContentMeaningful Sample.not_found = false.
Proof. vm_compute. reflexivity. Qed.

(** ** The cache layer *)

Module CacheFacts.

Import CacheSpec.

Lemma getCachedContent_eq (key : jsstring) (w : World) (s : Sys) :
  Cache.getCachedContent key w s
  = (Ret (looked_up w (db s) key), emit (RedisGet key) s).
Proof.
  unfold Cache.getCachedContent, Redis.get, looked_up, try_catch, bind, modify,
    fault, ask, state, ret, throw, Cache.JSON_parse, reply, emit.
  destruct (redis_get_fault w key); simpl; [reflexivity|].
  destruct (Redis.live (redis_clock w) (db s) key) as [[v ex|items]|];
    simpl; try reflexivity.
  destruct v as [r|[|c t]]; simpl; try reflexivity.
  destruct (json_parse w (c :: t)); reflexivity.
Qed.

Lemma setCachedContent_eq (key : jsstring) (c : Cache.cacheable)
    (w : World) (s : Sys) :
  Cache.setCachedContent key c w s
  = (Ret tt,
     {| db := after_set w key c (db s); browsers := browsers s;
        launched := launched s; log := set_events key c ++ log s |}).
Proof.
  unfold Cache.setCachedContent, Redis.set, after_set, written, set_events,
    try_catch, bind, modify, fault, ask, ret, throw, set_db, emit.
  destruct c as [|r|json]; cbn.
  - destruct s; reflexivity.
  - destruct (redis_set_fault w key); reflexivity.
  - destruct (redis_set_fault w key); reflexivity.
Qed.

End CacheFacts.

(** ** The browser pool, one call at a time *)

Module PoolFacts.

Import BrowserPool PoolSpec.

Lemma probe_eq (w : World) (entries : list Pooled) :
  forall (index : nat) (s : Sys),
    probe index entries w s
    = (Ret (unhealthy w index entries),
       logged (rev (List.map (fun e => ChromeProbe (browser e)) entries)) s).
Proof.
  induction entries as [|e rest IH]; intros index s.
  - destruct s; reflexivity.
  - cbn [probe unhealthy List.map rev].
    unfold bind at 1. unfold pages, bind at 1, modify, ask. cbn.
    unfold bind at 1. rewrite IH. unfold ret, logged, emit. cbn.
    rewrite <- app_assoc. cbn.
    destruct (chrome_alive w (browser e)); reflexivity.
Qed.

Lemma evict_eq (w : World) (indices : list nat) :
  forall s : Sys,
    evict indices w s
    = (Ret tt,
       {| db := db s; browsers := evicted indices (browsers s);
          launched := launched s;
          log := evict_log indices (browsers s) ++ log s |}).
Proof.
  induction indices as [|index rest IH]; intros s.
  - destruct s; reflexivity.
  - cbn [evict evicted evict_log].
    unfold close. run_eff.
    destruct (browsers s !! index) as [e|] eqn:E; simpl.
    + destruct (chrome_close_fault w (browser e)); simpl;
        rewrite IH; simpl; rewrite <- app_assoc; reflexivity.
    + rewrite IH. simpl. rewrite app_nil_r. reflexivity.
Qed.

Lemma evicted_app (a b : list nat) (bs : list Pooled) :
  evicted (a ++ b) bs = evicted b (evicted a bs).
Proof.
  revert bs. induction a as [|i a IH]; intros bs; cbn; [reflexivity|].
  apply IH.
Qed.

Lemma delete_middle (pre : list Pooled) (e : Pooled) (post : list Pooled) :
  delete (length pre) (pre ++ e :: post) = pre ++ post.
Proof.
  induction pre as [|p pre IH]; cbn; [reflexivity|].
  f_equal. exact IH.
Qed.

(** Removing the unhealthy indices from the highest down leaves the
    healthy entries, in their order. *)
Lemma evicted_unhealthy (w : World) (bs : list Pooled) :
  forall pre : list Pooled,
    evicted (rev (unhealthy w (length pre) bs)) (pre ++ bs)
    = pre ++ sweep w bs.
Proof.
  induction bs as [|e rest IH]; intros pre.
  - reflexivity.
  - cbn [unhealthy sweep List.filter].
    specialize (IH (pre ++ [e])).
    rewrite length_app, Nat.add_1_r, <- !app_assoc in IH. cbn in IH.
    destruct (chrome_alive w (browser e)).
    + exact IH.
    + cbn [rev]. rewrite evicted_app, IH. cbn.
      apply delete_middle.
Qed.

Lemma evict_log_chrome (indices : list nat) :
  forall bs : list Pooled, chrome_only (evict_log indices bs).
Proof.
  induction indices as [|i rest IH]; intros bs; simpl.
  - constructor.
  - apply Forall_app. split; [apply IH|].
    destruct (bs !! i); repeat constructor.
Qed.

Lemma probe_log_chrome (bs : list Pooled) :
  chrome_only (rev (List.map (fun e => ChromeProbe (browser e)) bs)).
Proof.
  apply List.Forall_forall. intros e H.
  apply in_rev, in_map_iff in H as [x [<- _]]. reflexivity.
Qed.

Lemma sweep_log_chrome (w : World) (bs : list Pooled) :
  chrome_only (sweep_log w bs).
Proof.
  apply Forall_app. split; [apply evict_log_chrome|apply probe_log_chrome].
Qed.

Lemma checkBrowserHealth_eq (w : World) (s : Sys) :
  checkBrowserHealth w s
  = (Ret tt,
     {| db := db s; browsers := sweep w (browsers s);
        launched := launched s;
        log := sweep_log w (browsers s) ++ log s |}).
Proof.
  unfold checkBrowserHealth, sweep_log. run_eff.
  rewrite probe_eq, evict_eq. simpl.
  pose proof (evicted_unhealthy w (browsers s) []) as H. simpl in H.
  rewrite H, app_assoc. reflexivity.
Qed.

Lemma pool_log_chrome (w : World) (s : Sys) : chrome_only (pool_log w s).
Proof.
  apply Forall_app. split; [|apply sweep_log_chrome].
  destruct (length (sweep w (browsers s)) <? maxBrowsers)%nat;
    repeat constructor.
Qed.

Lemma getBrowser_exact (w : World) (s : Sys) :
  getBrowser w s
  = (acquired w s,
     {| db := db s; browsers := pool_after w s;
        launched := launched_after w s; log := pool_log w s ++ log s |}).
Proof.
  unfold getBrowser, acquired, pool_after, launched_after, launch, pool_log.
  run_eff. rewrite checkBrowserHealth_eq. simpl.
  destruct (length (sweep w (browsers s)) <? maxBrowsers)%nat; simpl.
  - destruct (chrome_launch w) as [error|]; reflexivity.
  - destruct (reduce (sweep w (browsers s))) as [lru|error]; reflexivity.
Qed.

Lemma getBrowser_eq (w : World) (s : Sys) :
  exists evs : list event,
    chrome_only evs /\
    getBrowser w s
    = (acquired w s,
       {| db := db s; browsers := pool_after w s;
          launched := launched_after w s; log := evs ++ log s |}).
Proof.
  exists (pool_log w s). split; [apply pool_log_chrome|].
  apply getBrowser_exact.
Qed.

Lemma getBrowser_db (w : World) (s : Sys) :
  db (snd (getBrowser w s)) = db s.
Proof. destruct (getBrowser_eq w s) as [evs [_ ->]]. reflexivity. Qed.

Lemma sweep_length (w : World) (bs : list Pooled) :
  (length (sweep w bs) <= length bs)%nat.
Proof.
  induction bs as [|e bs IH]; simpl; [lia|].
  destruct (chrome_alive w (browser e)); simpl; lia.
Qed.

(** One call leaves at most [maxBrowsers] sessions when it found at most
    that many. *)
Lemma pool_after_cap (w : World) (s : Sys) :
  (length (browsers s) <= maxBrowsers)%nat ->
  (length (pool_after w s) <= maxBrowsers)%nat.
Proof.
  intros H. pose proof (sweep_length w (browsers s)) as L.
  unfold pool_after.
  destruct (length (sweep w (browsers s)) <? maxBrowsers)%nat eqn:C.
  - apply Nat.ltb_lt in C.
    destruct (chrome_launch w); [lia|].
    rewrite length_app. simpl. lia.
  - destruct (reduce (sweep w (browsers s))); [|lia].
    rewrite length_insert. lia.
Qed.

(** [reduce] picks an entry of the array, with its index. *)
Lemma fold_older_in (rest : list (nat * Pooled)) :
  forall first : nat * Pooled,
    In (fold_left older rest first) (first :: rest).
Proof.
  induction rest as [|x rest IH]; intros first; simpl; [auto|].
  destruct (IH (older first x)) as [H|H].
  - rewrite <- H. unfold older.
    destruct (lastUsed (snd first) <? lastUsed (snd x))%Z; auto.
  - auto.
Qed.

Lemma combine_seq_lookup (bs : list Pooled) :
  forall (start i : nat) (e : Pooled),
    In (i, e) (combine (seq start (length bs)) bs) ->
    (start <= i)%nat /\ bs !! (i - start)%nat = Some e.
Proof.
  induction bs as [|b bs IH]; intros start i e H; simpl in H; [tauto|].
  destruct H as [H|H].
  - inversion H; subst. rewrite Nat.sub_diag. split; [lia|reflexivity].
  - apply IH in H as [L H]. split; [lia|].
    replace (i - start)%nat with (S (i - S start)) by lia. exact H.
Qed.

Lemma reduce_lookup (bs : list Pooled) (i : nat) (e : Pooled) :
  reduce bs = Ret (i, e) -> bs !! i = Some e.
Proof.
  unfold reduce. intros H.
  destruct (combine (seq 0 (length bs)) bs) as [|first rest] eqn:C;
    [discriminate|].
  inversion H as [F].
  pose proof (fold_older_in rest first) as I. rewrite F, <- C in I.
  apply combine_seq_lookup in I as [_ I].
  rewrite Nat.sub_0_r in I. exact I.
Qed.

(** ... and no entry was used longer ago. *)
Lemma fold_older_least (rest : list (nat * Pooled)) :
  forall (first x : nat * Pooled),
    In x (first :: rest) ->
    (lastUsed (snd (fold_left older rest first)) <= lastUsed (snd x))%Z.
Proof.
  induction rest as [|y rest IH]; intros first x H; simpl in *.
  - destruct H as [H|[]]. subst x. lia.
  - assert (K : (lastUsed (snd (older first y)) <= lastUsed (snd first)
                 /\ lastUsed (snd (older first y)) <= lastUsed (snd y))%Z).
    { unfold older.
      destruct (lastUsed (snd first) <? lastUsed (snd y))%Z eqn:C;
        [apply Z.ltb_lt in C|apply Z.ltb_ge in C]; lia. }
    destruct H as [H|[H|H]]; try subst x.
    + pose proof (IH (older first y) (older first y) (or_introl eq_refl)).
      lia.
    + pose proof (IH (older first y) (older first y) (or_introl eq_refl)).
      lia.
    + apply IH. right. exact H.
Qed.

Lemma lookup_combine_seq (bs : list Pooled) :
  forall (start j : nat) (e : Pooled),
    bs !! j = Some e ->
    In ((start + j)%nat, e) (combine (seq start (length bs)) bs).
Proof.
  induction bs as [|b bs IH]; intros start j e H; [discriminate|].
  destruct j as [|j]; simpl in *.
  - left. inversion H. f_equal. lia.
  - right. replace (start + S j)%nat with (S start + j)%nat by lia.
    apply IH. exact H.
Qed.

Lemma reduce_least (bs : list Pooled) (lru : nat * Pooled)
    (j : nat) (e : Pooled) :
  reduce bs = Ret lru -> bs !! j = Some e ->
  (lastUsed (snd lru) <= lastUsed e)%Z.
Proof.
  unfold reduce. intros H L.
  apply (lookup_combine_seq bs 0) in L.
  destruct (combine (seq 0 (length bs)) bs) as [|first rest];
    [discriminate|].
  inversion H.
  apply (fold_older_least rest first ((0 + j)%nat, e)). exact L.
Qed.

Lemma sweep_alive (w : World) (bs : list Pooled) (i : nat) (e : Pooled) :
  sweep w bs !! i = Some e -> chrome_alive w (browser e) = true.
Proof.
  intros H. apply list_elem_of_lookup_2 in H.
  apply list_elem_of_In in H. apply filter_In in H. tauto.
Qed.

(** A call returns a session it has just launched or one whose probe
    resolved in this very call: never one the sweep evicted. *)
Lemma acquired_alive_or_fresh (w : World) (s : Sys) (b : nat) :
  acquired w s = Ret b ->
  b = launched s \/ chrome_alive w b = true.
Proof.
  unfold acquired.
  destruct (length (sweep w (browsers s)) <? maxBrowsers)%nat.
  - destruct (chrome_launch w); [discriminate|].
    intros H. inversion H. left. reflexivity.
  - destruct (reduce (sweep w (browsers s))) as [[i e]|] eqn:R;
      [|discriminate].
    intros H. inversion H. right.
    apply reduce_lookup in R. simpl. eapply sweep_alive. exact R.
Qed.

End PoolFacts.

(** ** The orchestrator *)

Module ScrapeFacts.

Import Scrape ScrapeSpec.

Lemma scrapeWebContent_hit (url : jsstring) (w : World) (s : Sys)
    (cached : ScrapingResult) :
  valid url ->
  CacheSpec.looked_up w (db s) (scrape_key url) = Some cached ->
  scrapeWebContent url w s
  = (Ret (with_metrics cached (hit_metrics w)),
     emit (RedisGet (scrape_key url)) s).
Proof.
  intros [T P] F.
  unfold scrapeWebContent, body. rewrite T, P. simpl.
  unfold attempt, in_sys, stop_clock, update_metrics, read_metrics.
  run_eff.
  rewrite CacheFacts.getCachedContent_eq, F. simpl.
  reflexivity.
Qed.

Lemma scrapeWithCheerio_eq (html : jsstring) (w : World) (s : Sys) :
  scrapeWithCheerio html w s
  = (match cheerio_texts w html with
     | Ret texts => Ret (Js.join [10; 10] (unique_texts texts))
     | Throw e => Throw e
     end, s).
Proof.
  unfold scrapeWithCheerio. run_eff.
  destruct (cheerio_texts w html); reflexivity.
Qed.

Lemma scrapeWithPuppeteer_eq (url : jsstring) (w : World) (s : Sys) :
  exists evs : list event,
    PoolSpec.chrome_only evs /\
    scrapeWithPuppeteer url w s
    = (rendered w s url,
       {| db := db s; browsers := PoolSpec.pool_after w s;
          launched := PoolSpec.launched_after w s; log := evs ++ log s |}).
Proof.
  destruct (PoolFacts.getBrowser_eq w s) as [evs [C E]].
  unfold scrapeWithPuppeteer, rendered. run_eff. rewrite E.
  destruct (PoolSpec.acquired w s) as [b|e]; simpl.
  - destruct (page_open_fault w b) as [e|]; simpl.
    + exists (PageOpen b :: evs). split; [|reflexivity].
      constructor; [reflexivity|exact C].
    + exists (PageClose b :: PageExtract b url :: PageOpen b :: evs).
      split; [repeat (constructor; [reflexivity|]); exact C|].
      destruct (page_extract w b url), (page_close_fault w b); reflexivity.
  - exists evs. split; [exact C|reflexivity].
Qed.

Lemma chrome_quiet (ok : bool) (evs : list event) :
  PoolSpec.chrome_only evs -> quiet ok evs.
Proof.
  intros H. eapply List.Forall_impl; [|exact H].
  intros e He W. destruct e; discriminate.
Qed.

Lemma quiet_reads (ok : bool) (url key : jsstring) :
  quiet ok [HttpFetch url; RedisGet key].
Proof. repeat constructor; discriminate. Qed.

Lemma scrapeWebContent_miss (url : jsstring) (w : World) (s : Sys) :
  valid url ->
  CacheSpec.looked_up w (db s) (scrape_key url) = None ->
  exists (s' : Sys) (evs : list event),
    scrapeWebContent url w s = (Ret (miss_result url w s), s')
    /\ db s' = miss_db url w s
    /\ log s' = evs ++ log s
    /\ quiet (success (miss_result url w s)) evs.
Proof.
  intros [T P] F.
  unfold scrapeWebContent, body. rewrite T, P. simpl.
  unfold attempt, rescue, in_sys, stop_clock, update_metrics, read_metrics,
    fetch, miss_result, miss_db, static_text.
  run_eff.
  rewrite CacheFacts.getCachedContent_eq, F. simpl.
  destruct (http_fetch w url) as [response|e]; simpl.
  2:{ eexists. exists [HttpFetch url; RedisGet (scrape_key url)].
      repeat split; try reflexivity. apply quiet_reads. }
  destruct (text response) as [html|e]; simpl.
  2:{ eexists. exists [HttpFetch url; RedisGet (scrape_key url)].
      repeat split; try reflexivity. apply quiet_reads. }
  rewrite scrapeWithCheerio_eq.
  destruct (cheerio_texts w html) as [texts|e]; simpl.
  2:{ eexists. exists [HttpFetch url; RedisGet (scrape_key url)].
      repeat split; try reflexivity. apply quiet_reads. }
  destruct (isContentMeaningful (Js.join [10; 10] (unique_texts texts)));
    simpl.
  - rewrite CacheFacts.setCachedContent_eq. simpl.
    eexists. exists [RedisSet (scrape_key url); HttpFetch url;
                     RedisGet (scrape_key url)].
    repeat split; try reflexivity.
    apply List.Forall_forall; intros; reflexivity.
  - destruct (scrapeWithPuppeteer_eq url w
                (emit (HttpFetch url) (emit (RedisGet (scrape_key url)) s)))
      as [evs [C E]].
    rewrite E. clear E.
    change (rendered w
              (emit (HttpFetch url) (emit (RedisGet (scrape_key url)) s))
              url)
      with (rendered w s url).
    assert (Q : forall ok,
               quiet ok (evs ++ [HttpFetch url; RedisGet (scrape_key url)])).
    { intros ok. apply Forall_app. split;
        [apply chrome_quiet; exact C|apply quiet_reads]. }
    destruct (rendered w s url) as [d|e]; simpl.
    2:{ eexists. exists (evs ++ [HttpFetch url; RedisGet (scrape_key url)]).
        repeat split; try reflexivity; [|apply Q].
        simpl. rewrite <- app_assoc. reflexivity. }
    destruct (isContentMeaningful d); simpl.
    + rewrite CacheFacts.setCachedContent_eq. simpl.
      eexists. exists (RedisSet (scrape_key url) :: evs
                         ++ [HttpFetch url; RedisGet (scrape_key url)]).
      repeat split; try reflexivity.
      * simpl. rewrite <- app_assoc. reflexivity.
      * apply List.Forall_forall; intros; reflexivity.
    + eexists. exists (evs ++ [HttpFetch url; RedisGet (scrape_key url)]).
      repeat split; try reflexivity; [|apply Q].
      simpl. rewrite <- app_assoc. reflexivity.
Qed.

Lemma scrapeWebContent_invalid (url : jsstring) (w : World) (s : Sys) :
  ~ valid url ->
  scrapeWebContent url w s
  = (Ret (failure (Js.lit "Invalid URL") (Js.lit "Invalid URL provided")
                  url (iso_date w) (initial_metrics w)), s).
Proof.
  intros H. unfold scrapeWebContent, body, valid in *.
  destruct (Js.truthy url) eqn:T, (Js.startsWith (Js.lit "http") url) eqn:P;
    try (exfalso; apply H; split; reflexivity); reflexivity.
Qed.

Lemma valid_dec (url : jsstring) : valid url \/ ~ valid url.
Proof.
  unfold valid.
  destruct (Js.truthy url), (Js.startsWith (Js.lit "http") url);
    try (left; split; reflexivity); right; intros [A B]; discriminate.
Qed.

Lemma gate_nonempty (c : jsstring) :
  isContentMeaningful c = true -> c <> [].
Proof. intros H ->. discriminate. Qed.

Lemma fst_scrapeWithPuppeteer (url : jsstring) (w : World) (s : Sys) :
  fst (scrapeWithPuppeteer url w s) = rendered w s url.
Proof.
  destruct (scrapeWithPuppeteer_eq url w s) as [evs [_ ->]]. reflexivity.
Qed.

Lemma fst_getCachedContent (key : jsstring) (w : World) (s : Sys) :
  fst (Cache.getCachedContent key w s) = Ret (CacheSpec.looked_up w (db s) key).
Proof. rewrite CacheFacts.getCachedContent_eq. reflexivity. Qed.

(** Each step inside the [try] block, when it rejects, ends the call with
    the failure result that carries its message. *)
Lemma step_failure_reported (url : jsstring) (w : World) (s : Sys)
    (e : Js.exn) :
  valid url ->
  fst (Cache.getCachedContent (scrape_key url) w s) = Ret None ->
  static_text w url = Throw e
  \/ (exists c, static_text w url = Ret c
                /\ isContentMeaningful c = false
                /\ fst (scrapeWithPuppeteer url w s) = Throw e) ->
  exists r : ScrapingResult,
    fst (scrapeWebContent url w s) = Ret r
    /\ success r = false
    /\ error r = Some (Js.message_or_string e)
    /\ content r = [].
Proof.
  intros V F H. rewrite fst_getCachedContent in F. inversion F as [F'].
  destruct (scrapeWebContent_miss url w s V F') as (s' & evs & E & _).
  rewrite E. simpl. eexists. split; [reflexivity|].
  unfold miss_result.
  destruct H as [H|(c & H & G & R)]; rewrite H.
  - repeat split.
  - rewrite G. rewrite fst_scrapeWithPuppeteer in R. rewrite R.
    repeat split.
Qed.

(** A call leaves the database alone or writes its own successful
    result under the key of the URL. *)
Lemma scrapeWebContent_store (u : jsstring) (w : World) (s : Sys) :
  db (snd (scrapeWebContent u w s)) = db s
  \/ exists r : ScrapingResult,
       fst (scrapeWebContent u w s) = Ret r
       /\ success r = true
       /\ isContentMeaningful (content r) = true
       /\ db (snd (scrapeWebContent u w s))
          = <[scrape_key u :=
                RStr (SResult r) (redis_clock w + Cache.CACHE_DURATION)]>
              (db s).
Proof.
  destruct (valid_dec u) as [V|N].
  2:{ rewrite (scrapeWebContent_invalid u w s N). left. reflexivity. }
  destruct (CacheSpec.looked_up w (db s) (scrape_key u)) as [cached|] eqn:F.
  { rewrite (scrapeWebContent_hit u w s cached V F). left. reflexivity. }
  destruct (scrapeWebContent_miss u w s V F) as (s' & evs & E & D & _).
  rewrite E. simpl. rewrite D. clear E D.
  unfold miss_db, miss_result, CacheSpec.written.
  destruct (static_text w u) as [c|e]; [|left; reflexivity].
  destruct (isContentMeaningful c) eqn:G.
  - destruct (redis_set_fault w (scrape_key u)); [left; reflexivity|].
    right. eexists. repeat split. exact G.
  - destruct (rendered w s u) as [d|e]; [|left; reflexivity].
    destruct (isContentMeaningful d) eqn:G'; [|left; reflexivity].
    destruct (redis_set_fault w (scrape_key u)); [left; reflexivity|].
    right. eexists. repeat split. exact G'.
Qed.

End ScrapeFacts.

(** ** The orchestrator: results *)

Module ScrapeClaims.

Import Scrape ScrapeSpec ScrapeFacts.

(** C1, as stated, fails for the cache lookup: the store rejects the
    read, and the call returns a success without any error. The
    rejection is caught inside [getCachedContent] (lines 60-63 of
    [cache.ts]), which reports a miss. *)
Lemma cache_lookup_failure_not_reported :
  redis_get_fault Scenario.lookup_down (scrape_key Sample.a_url)
  = Some (Js.Error (Js.lit "ECONNREFUSED"))
  /\ exists r : ScrapingResult,
       fst (scrapeWebContent Sample.a_url Scenario.lookup_down Sample.boot)
       = Ret r
       /\ success r = true
       /\ error r = None.
Proof.
  split; [reflexivity|].
  set (o := fst (scrapeWebContent Sample.a_url Scenario.lookup_down
                   Sample.boot)).
  vm_compute in o. subst o.
  eexists. split; [reflexivity|]. split; reflexivity.
Qed.

(** C1, amended.  [scrapeWebContent] never throws: on every URL, in every
    world and state, it returns a result. Whenever its [try] block raises
    an exception [e], the [catch] block turns it into a result with
    [success = false], empty content and [error] equal to the message of
    [e]; this is what happens when the fetch, the reading of the body,
    the static or the dynamic extraction throws. An exception of the
    cache lookup does not get that far: [getCachedContent] reports a
    miss, and the call returns what it returns on a miss. *)
Theorem scrapeWebContent_never_throws (url : jsstring) (w : World) (s : Sys) :
  (exists r : ScrapingResult, fst (scrapeWebContent url w s) = Ret r)
  /\ (forall (e : Js.exn) (f : Frame),
        valid url ->
        attempt url (scrape_key url) w (frame0 w s) = (Throw e, f) ->
        exists r : ScrapingResult,
          scrapeWebContent url w s = (Ret r, sys f)
          /\ success r = false
          /\ error r = Some (Js.message_or_string e)
          /\ content r = [])
  /\ (forall e : Js.exn,
        valid url ->
        fst (Cache.getCachedContent (scrape_key url) w s) = Ret None ->
        http_fetch w url = Throw e
        \/ (exists response : Response,
              http_fetch w url = Ret response /\ text response = Throw e)
        \/ (exists (response : Response) (html : jsstring),
              http_fetch w url = Ret response
              /\ text response = Ret html
              /\ fst (scrapeWithCheerio html w s) = Throw e)
        \/ (exists (response : Response) (html c : jsstring),
              http_fetch w url = Ret response
              /\ text response = Ret html
              /\ fst (scrapeWithCheerio html w s) = Ret c
              /\ isContentMeaningful c = false
              /\ fst (scrapeWithPuppeteer url w s) = Throw e) ->
        exists r : ScrapingResult,
          fst (scrapeWebContent url w s) = Ret r
          /\ success r = false
          /\ error r = Some (Js.message_or_string e)
          /\ content r = [])
  /\ (forall e : Js.exn,
        valid url ->
        redis_get_fault w (scrape_key url) = Some e ->
        fst (Cache.getCachedContent (scrape_key url) w s) = Ret None
        /\ fst (scrapeWebContent url w s) = Ret (miss_result url w s)).
Proof.
  split; [|split; [|split]].
  - destruct (valid_dec url) as [[T P]|N].
    + unfold scrapeWebContent, body. rewrite T, P. simpl.
      unfold try_catch. fold (frame0 w s).
      destruct (attempt url (scrape_key url) w (frame0 w s)) as [[r|e] f].
      * exists r. reflexivity.
      * eexists. unfold rescue, stop_clock, update_metrics, read_metrics.
        run_eff. reflexivity.
    + rewrite (scrapeWebContent_invalid url w s N). eexists. reflexivity.
  - intros e f [T P] A.
    unfold scrapeWebContent, body. rewrite T, P. simpl.
    unfold try_catch. fold (frame0 w s). rewrite A.
    unfold rescue, stop_clock, update_metrics, read_metrics. run_eff.
    eexists. repeat split.
  - intros e V F H. apply (step_failure_reported url w s e V F).
    destruct H as [H|[(response & H & T)|[(response & html & H & T & C)
                     |(response & html & c & H & T & C & G & R)]]].
    + left. unfold static_text. rewrite H. reflexivity.
    + left. unfold static_text. rewrite H, T. reflexivity.
    + left. unfold static_text. rewrite H, T.
      rewrite scrapeWithCheerio_eq in C. simpl in C.
      destruct (cheerio_texts w html); [discriminate|].
      inversion C. reflexivity.
    + right. exists c. split; [|split; [exact G|exact R]].
      unfold static_text. rewrite H, T.
      rewrite scrapeWithCheerio_eq in C. simpl in C.
      destruct (cheerio_texts w html); [|discriminate].
      inversion C. reflexivity.
  - intros e V G.
    assert (F : CacheSpec.looked_up w (db s) (scrape_key url) = None).
    { unfold CacheSpec.looked_up. rewrite G. reflexivity. }
    split; [rewrite fst_getCachedContent, F; reflexivity|].
    destruct (scrapeWebContent_miss url w s V F) as (s' & evs & E & _).
    rewrite E. reflexivity.
Qed.

Lemma scrapeWebContent_never_throws_witness :
  exists r : ScrapingResult,
    scrapeWebContent Sample.a_url Sample.offline Sample.boot
    = (Ret r, emit (HttpFetch Sample.a_url)
                (emit (RedisGet (scrape_key Sample.a_url)) Sample.boot))
    /\ success r = false
    /\ error r = Some (Js.lit "fetch failed")
    /\ content r = [].
Proof.
  refine (proj1 (proj2 (scrapeWebContent_never_throws Sample.a_url
                          Sample.offline Sample.boot))
            (Js.Error (Js.lit "fetch failed"))
            {| the_metrics :=
                 Metrics.set_cheerioAttemptTime 1
                   (initial_metrics Sample.offline);
               sys := emit (HttpFetch Sample.a_url)
                        (emit (RedisGet (scrape_key Sample.a_url))
                              Sample.boot) |} _ _).
  - split; reflexivity.
  - vm_compute. reflexivity.
Defined.

(** C10.  On a cache hit the call returns the cached payload with its
    [metrics] field replaced by the metrics of this call, whose method
    is ['cache']; every other field ([content], [title], [success],
    [error], [url], [timestamp], [scrapeMethod], [contentStats]) is the
    cached one. *)
Theorem cache_hit_replaces_metrics_only (u : jsstring) (w : World)
    (s : Sys) (cached : ScrapingResult) :
  valid u ->
  fst (Cache.getCachedContent (scrape_key u) w s) = Ret (Some cached) ->
  exists (r : ScrapingResult) (m : Metrics.t),
    fst (scrapeWebContent u w s) = Ret r
    /\ metrics r = Some m
    /\ Metrics.method_ m = Metrics.cache
    /\ content r = content cached
    /\ title r = title cached
    /\ success r = success cached
    /\ error r = error cached
    /\ url r = url cached
    /\ timestamp r = timestamp cached
    /\ scrapeMethod r = scrapeMethod cached
    /\ contentStats r = contentStats cached.
Proof.
  intros V F. rewrite fst_getCachedContent in F. inversion F as [F'].
  rewrite (scrapeWebContent_hit u w s cached V F'). simpl.
  exists (with_metrics cached (hit_metrics w)), (hit_metrics w).
  repeat split.
Qed.



Lemma cache_hit_replaces_metrics_only_witness :
  exists (r : ScrapingResult) (m : Metrics.t),
    fst (scrapeWebContent Sample.a_url Sample.offline Sample.warm) = Ret r
    /\ metrics r = Some m
    /\ Metrics.method_ m = Metrics.cache
    /\ content r = Js.trim Sample.prose
    /\ title r = title_of (Js.trim Sample.prose)
    /\ success r = true
    /\ error r = None
    /\ url r = Sample.a_url
    /\ timestamp r = iso_date Sample.article
    /\ scrapeMethod r = Some (Js.lit "cheerio")
    /\ contentStats r = Some (stats_of (Js.trim Sample.prose)).
Proof.
  apply (cache_hit_replaces_metrics_only Sample.a_url Sample.offline
           Sample.warm
           (static_found Sample.a_url Sample.article (Js.trim Sample.prose))).
  - split; reflexivity.
  - vm_compute. reflexivity.
Defined.

(** C6.  On a well-formed URL that misses the cache, when the static and
    the dynamic extraction both return content that the quality gate
    rejects, the call returns [success = false] with the error
    ["Content validation failed"], leaves the database as it was and
    issues no write to the cache store. *)
Theorem validation_failure_not_cached (u : jsstring) (w : World) (s : Sys)
    (response : Response) (html c d : jsstring) :
  valid u ->
  fst (Cache.getCachedContent (scrape_key u) w s) = Ret None ->
  http_fetch w u = Ret response ->
  text response = Ret html ->
  fst (scrapeWithCheerio html w s) = Ret c ->
  isContentMeaningful c = false ->
  fst (scrapeWithPuppeteer u w s) = Ret d ->
  isContentMeaningful d = false ->
  exists (r : ScrapingResult) (s' : Sys) (evs : list event),
    scrapeWebContent u w s = (Ret r, s')
    /\ success r = false
    /\ error r = Some (Js.lit "Content validation failed")
    /\ content r = []
    /\ db s' = db s
    /\ log s' = evs ++ log s
    /\ Forall (fun e => is_cache_write e = false) evs.
Proof.
  intros V F HF HT HC GC HD GD.
  rewrite fst_getCachedContent in F. inversion F as [F'].
  rewrite scrapeWithCheerio_eq in HC. simpl in HC.
  rewrite fst_scrapeWithPuppeteer in HD.
  destruct (scrapeWebContent_miss u w s V F') as (s' & evs & E & D & L & Q).
  assert (S : static_text w u = Ret c).
  { unfold static_text. rewrite HF, HT. exact HC. }
  unfold miss_result in E, Q. unfold miss_db in D.
  rewrite S, GC, HD, GD in *.
  exists (validation_failed u w), s', evs.
  repeat split; try assumption.
  eapply List.Forall_impl; [|exact Q].
  intros e H. simpl in H.
  destruct (is_cache_write e); [specialize (H eq_refl); discriminate|].
  reflexivity.
Qed.

Lemma validation_failure_not_cached_witness :
  exists (r : ScrapingResult) (s' : Sys) (evs : list event),
    scrapeWebContent Sample.a_url Sample.missing Sample.boot = (Ret r, s')
    /\ success r = false
    /\ error r = Some (Js.lit "Content validation failed")
    /\ content r = []
    /\ db s' = db Sample.boot
    /\ log s' = evs ++ log Sample.boot
    /\ Forall (fun e => is_cache_write e = false) evs.
Proof.
  apply (validation_failure_not_cached Sample.a_url Sample.missing
           Sample.boot {| text := Ret (Js.lit "<p/>") |} (Js.lit "<p/>")
           [] Sample.not_found).
  - split; reflexivity.
  - vm_compute. reflexivity.
  - reflexivity.
  - reflexivity.
  - vm_compute. reflexivity.
  - reflexivity.
  - vm_compute. reflexivity.
  - vm_compute. reflexivity.
Defined.

End ScrapeClaims.

(** ** The invariant of results *)

Module System.

Import Scrape ScrapeSpec ScrapeFacts SystemSpec.

Lemma gated_success (r : ScrapingResult) :
  success r = true -> isContentMeaningful (content r) = true -> gated r.
Proof.
  intros S G. split.
  - split; [intros _; split; [apply gate_nonempty|]; exact G|].
    intros _. exact S.
  - intros F. congruence.
Qed.

Lemma gated_failure (r : ScrapingResult) :
  success r = false -> content r = [] -> gated r.
Proof.
  intros S C. split.
  - split; [congruence|]. intros [N _]. contradiction.
  - intros _. exact C.
Qed.

Lemma found_sound (w : World) (d : gmap jsstring rvalue) (key : jsstring)
    (cached : ScrapingResult) :
  db_sound d ->
  CacheSpec.looked_up w d key = Some cached ->
  success cached = true /\ isContentMeaningful (content cached) = true.
Proof.
  intros Sound. unfold CacheSpec.looked_up, Redis.live.
  destruct (redis_get_fault w key); [discriminate|].
  destruct (d !! key) as [[v ex|items]|] eqn:L; try discriminate.
  destruct (Sound key v ex L) as (r & -> & S & G).
  destruct (redis_clock w <? ex); [|discriminate].
  intros H. inversion H; subst. split; assumption.
Qed.

(** In a sound database every call returns a gated result. *)
Lemma scrapeWebContent_gated (u : jsstring) (w : World) (s : Sys) :
  db_sound (db s) ->
  exists r : ScrapingResult,
    fst (scrapeWebContent u w s) = Ret r /\ gated r.
Proof.
  intros Sound.
  destruct (valid_dec u) as [V|N].
  2:{ rewrite (scrapeWebContent_invalid u w s N). eexists.
      split; [reflexivity|]. apply gated_failure; reflexivity. }
  destruct (CacheSpec.looked_up w (db s) (scrape_key u)) as [cached|] eqn:F.
  { rewrite (scrapeWebContent_hit u w s cached V F). eexists.
    split; [reflexivity|].
    destruct (found_sound w (db s) _ cached Sound F) as [S G].
    apply gated_success; assumption. }
  destruct (scrapeWebContent_miss u w s V F) as (s' & evs & E & _).
  rewrite E. eexists. split; [reflexivity|].
  unfold miss_result.
  destruct (static_text w u) as [c|e];
    [|apply gated_failure; reflexivity].
  destruct (isContentMeaningful c) eqn:G;
    [apply gated_success; [reflexivity|exact G]|].
  destruct (rendered w s u) as [d|e];
    [|apply gated_failure; reflexivity].
  destruct (isContentMeaningful d) eqn:G';
    [apply gated_success; [reflexivity|exact G']|].
  apply gated_failure; reflexivity.
Qed.

Lemma insert_sound (d : gmap jsstring rvalue) (key : jsstring)
    (r : ScrapingResult) (expires : N) :
  db_sound d -> success r = true ->
  isContentMeaningful (content r) = true ->
  db_sound (<[key := RStr (SResult r) expires]> d).
Proof.
  intros Sound S G k v ex L.
  destruct (decide (key = k)) as [->|Ne].
  - rewrite lookup_insert_eq in L. inversion L; subst.
    exists r. repeat split; assumption.
  - rewrite lookup_insert_ne in L by exact Ne. exact (Sound k v ex L).
Qed.

Lemma insert_list_sound (d : gmap jsstring rvalue) (key : jsstring)
    (items : list ChatEntry) :
  db_sound d -> db_sound (<[key := RList items]> d).
Proof.
  intros Sound k v ex L.
  destruct (decide (key = k)) as [->|Ne].
  - rewrite lookup_insert_eq in L. discriminate.
  - rewrite lookup_insert_ne in L by exact Ne. exact (Sound k v ex L).
Qed.

Lemma scrapeWebContent_sound (u : jsstring) (w : World) (s : Sys) :
  db_sound (db s) -> db_sound (db (snd (scrapeWebContent u w s))).
Proof.
  intros Sound.
  destruct (scrapeWebContent_store u w s) as [->|(r & _ & S & G & ->)].
  - exact Sound.
  - apply insert_sound; assumption.
Qed.

Lemma gather_one_sound (u : jsstring) (results : list ScrapingResult)
    (w : World) (s : Sys) :
  db_sound (db s) -> db_sound (db (snd (Search.gather_one u results w s))).
Proof.
  intros Sound. unfold Search.gather_one. run_eff.
  rewrite CacheFacts.getCachedContent_eq.
  destruct (CacheSpec.looked_up w (db s) (Search.gather_key u)); [exact Sound|].
  pose proof (scrapeWebContent_sound u w
                (emit (RedisGet (Search.gather_key u)) s) Sound) as Sound'.
  destruct (scrapeWebContent_gated u w
              (emit (RedisGet (Search.gather_key u)) s) Sound)
    as (r & R & [G _]).
  destruct (scrapeWebContent u w (emit (RedisGet (Search.gather_key u)) s))
    as [o s'].
  simpl in *. subst o.
  destruct (success r) eqn:S; simpl; [|exact Sound'].
  rewrite CacheFacts.setCachedContent_eq. simpl.
  unfold CacheSpec.written.
  destruct (redis_set_fault w (Search.gather_key u)); [exact Sound'|].
  apply insert_sound; [exact Sound'|exact S|apply G; reflexivity].
Qed.

Lemma gather_loop_sound (urls : list (jsstring * World)) :
  forall (results : list ScrapingResult) (s : Sys),
    db_sound (db s) ->
    db_sound (db (snd (Search.gather_loop urls results s))).
Proof.
  induction urls as [|[u w] rest IH]; intros results s Sound; simpl.
  - exact Sound.
  - pose proof (gather_one_sound u results w s Sound) as Sound'.
    destruct (Search.gather_one u results w s) as [[results'|e] s'].
    + apply IH. exact Sound'.
    + exact Sound'.
Qed.

Lemma storeChat_sound (conversationId userMessage aiResponse : jsstring)
    (w : World) (s : Sys) :
  db_sound (db s) ->
  db_sound
    (db (snd (Cache.storeChat conversationId userMessage aiResponse w s))).
Proof.
  intros Sound. unfold Cache.storeChat, Redis.lpush, Redis.ltrim0.
  remember (Cache.CHAT_HISTORY_PREFIX ++ conversationId) as key eqn:K.
  clear K. run_eff.
  destruct (redis_lpush_fault w key); simpl; [exact Sound|].
  destruct (Redis.live (redis_clock w) (db s) key) as [[v ex|items]|];
    simpl; [exact Sound| |];
    (destruct (redis_ltrim_fault w key); simpl;
     [apply insert_list_sound; exact Sound|]);
    unfold Redis.live; rewrite lookup_insert_eq; simpl;
    repeat apply insert_list_sound; exact Sound.
Qed.

Lemma reachable_sound (s : Sys) : reachable s -> db_sound (db s).
Proof.
  induction 1 as [|s u w _ IH|s q c urls _ IH|s c um ai w _ IH|s k _ IH].
  - intros k v ex L. simpl in L. rewrite lookup_empty in L. discriminate.
  - apply scrapeWebContent_sound. exact IH.
  - apply gather_loop_sound. exact IH.
  - apply storeChat_sound. exact IH.
  - intros k' v ex L. simpl in L.
    destruct (decide (k = k')) as [->|Ne].
    + rewrite lookup_delete_eq in L. discriminate.
    + rewrite lookup_delete_ne in L by exact Ne. exact (IH k' v ex L).
Qed.

(** C2.  In every state the process can reach, [scrapeWebContent] returns
    a result whose [success] is true exactly when its content is not
    empty and passed the quality gate; a result with [success = false]
    has empty content. *)
Theorem result_gated (s : Sys) (u : jsstring) (w : World) :
  reachable s ->
  exists r : ScrapingResult,
    fst (scrapeWebContent u w s) = Ret r
    /\ (success r = true <->
          content r <> [] /\ isContentMeaningful (content r) = true)
    /\ (success r = false -> content r = []).
Proof.
  intros R. apply scrapeWebContent_gated, reachable_sound, R.
Qed.

Lemma result_gated_witness :
  exists r : ScrapingResult,
    fst (scrapeWebContent Sample.a_url Sample.offline Sample.warm) = Ret r
    /\ (success r = true <->
          content r <> [] /\ isContentMeaningful (content r) = true)
    /\ (success r = false -> content r = []).
Proof.
  apply (result_gated Sample.warm Sample.a_url Sample.offline).
  apply (reach_scrape Sample.boot Sample.a_url Sample.article).
  apply reach_boot.
Defined.

End System.

(** ** The quality gate *)

Module GateClaims.

Import Scrape.

(** C5.  A text with fewer than three sentences, counted by splitting on
    runs of [.], [!] and [?], is rejected by [isContentMeaningful],
    whatever its words and phrases. *)
Theorem few_sentences_rejected (content : jsstring) :
  (length (sentences content) < MIN_SENTENCES)%nat ->
  isContentMeaningful content = false.
Proof.
  intros H. unfold isContentMeaningful.
  destruct (negb (Js.truthy content) || (length (Js.trim content) =? 0)%nat);
    [reflexivity|].
  destruct (length (words content) =? 0)%nat; [reflexivity|].
  apply Nat.leb_gt in H. rewrite H.
  rewrite andb_false_r. reflexivity.
Qed.

Lemma few_sentences_rejected_witness :
  (length (words Sample.two_sentences) >= MIN_CONTENT_LENGTH)%nat
  /\ length (sentences Sample.two_sentences) = 2%nat
  /\ isContentMeaningful Sample.two_sentences = false.
Proof.
  split; [vm_compute; lia|]. split; [vm_compute; reflexivity|].
  apply (few_sentences_rejected Sample.two_sentences).
  vm_compute. lia.
Defined.

End GateClaims.

(** ** The content processor *)

Module ProcessorClaims.

Import ContentProcessor.

Lemma truncation_marker_length : length truncation_marker = 34%nat.
Proof. reflexivity. Qed.

(** C8.  Whatever the scraping results, the content returned by
    [processContentForAI] has at most 30000 code units plus the length
    of the truncation marker. *)
Theorem processed_length_capped (scrapingResults : list ScrapingResult) :
  N.of_nat (length (pc_content (processContentForAI scrapingResults)))
  <= 30000 + N.of_nat (length truncation_marker).
Proof.
  unfold processContentForAI. cbv zeta. cbn [pc_content].
  match goal with |- context [sanitizeContent ?x] =>
    generalize (sanitizeContent x) end.
  intros text.
  destruct (limit <? length text)%nat eqn:C.
  - rewrite length_app. unfold Js.substring0.
    pose proof (firstn_le_length limit text) as L.
    unfold limit in *. lia.
  - apply Nat.ltb_ge in C. unfold limit in *. lia.
Qed.

End ProcessorClaims.

(** ** Cache keys *)

Module KeyClaims.

(** C4, as stated, fails for the gatherer: its key for [http://a] is
    the prefix followed by the URL itself, which is neither
    [prefix + hash(url)] nor [prefix + conversationId + ':' + hash(url)]. *)
Lemma gather_key_not_hashed :
  Search.gather_key Sample.a_url = Js.lit "cache:scrape:http://a"
  /\ ~ (exists prefix conversationId : jsstring,
          Search.gather_key Sample.a_url
          = prefix ++ Sha256.sha256_hex Sample.a_url
          \/ Search.gather_key Sample.a_url
             = prefix ++ conversationId ++ Js.lit ":"
                 ++ Sha256.sha256_hex Sample.a_url).
Proof.
  split; [reflexivity|].
  assert (K : length (Search.gather_key Sample.a_url) = 21%nat)
    by reflexivity.
  assert (D : length (Sha256.sha256_hex Sample.a_url) = 64%nat)
    by (vm_compute; reflexivity).
  intros (prefix & conversationId & [H|H]);
    apply (f_equal (@length N)) in H;
    rewrite K, !length_app, D in H; lia.
Qed.

(** C4, amended.  Every cache key is a function of its input alone:
    the orchestrator's key is ["scrape:"] followed by the SHA-256 of the
    URL in hexadecimal; [createCacheKey], given three non-empty
    arguments, returns prefix, conversation id, [":"] and the SHA-256 of
    the content; the gatherer's key is ["cache:scrape:"] followed by the
    URL itself, so that distinct URLs have distinct gatherer keys and no
    gatherer key is an orchestrator key. *)
Theorem cache_keys_by_input :
  (forall u : jsstring,
      Scrape.scrape_key u = Js.lit "scrape:" ++ Sha256.sha256_hex u)
  /\ (forall content prefix conversationId : jsstring,
        content <> [] -> prefix <> [] -> conversationId <> [] ->
        Cache.createCacheKey content prefix conversationId
        = Ret (prefix ++ conversationId ++ Js.lit ":"
                 ++ Sha256.sha256_hex content))
  /\ (forall u : jsstring,
        Search.gather_key u = Js.lit "cache:scrape:" ++ u)
  /\ (forall u u' : jsstring,
        Search.gather_key u = Search.gather_key u' -> u = u')
  /\ (forall u u' : jsstring,
        Scrape.scrape_key u <> Search.gather_key u').
Proof.
  split; [reflexivity|]. split; [|split; [reflexivity|split]].
  - intros content prefix conversationId C P I.
    unfold Cache.createCacheKey.
    destruct content, prefix, conversationId; try contradiction.
    reflexivity.
  - intros u u' H. unfold Search.gather_key in H.
    apply app_inv_head in H. exact H.
  - intros u u' H.
    assert (A : hd 0 (Scrape.scrape_key u) = 115) by reflexivity.
    assert (B : hd 0 (Search.gather_key u') = 99) by reflexivity.
    rewrite H, B in A. discriminate.
Qed.

Lemma cache_keys_by_input_witness :
  Cache.createCacheKey (Js.lit "abc") Cache.AI_CACHE_PREFIX (Js.lit "c1")
  = Ret (Js.lit
      "cache:ai:c1:ba7816bf8f01cfea414140de5dae2223b00361a396177a9cb410ff61f20015ad").
Proof.
  refine (eq_trans
            (proj1 (proj2 cache_keys_by_input) (Js.lit "abc")
               Cache.AI_CACHE_PREFIX (Js.lit "c1") _ _ _) _).
  - discriminate.
  - discriminate.
  - discriminate.
  - vm_compute. reflexivity.
Defined.

End KeyClaims.

(** ** Store failures *)

Module StoreClaims.

Import Scrape ScrapeSpec ScrapeFacts StoreSpec.

(** C7, as stated, fails for [storeChat]: with Redis down it throws. *)
Lemma storeChat_rethrows :
  fst (Cache.storeChat (Js.lit "c1") (Js.lit "hi") (Js.lit "hello")
         Sample.redis_down Sample.boot)
  = Throw chat_failure.
Proof. vm_compute. reflexivity. Qed.

Lemma storeChat_outcomes (conversationId userMessage aiResponse : jsstring)
    (w : World) (s : Sys) :
  let key := Cache.CHAT_HISTORY_PREFIX ++ conversationId in
  fst (Cache.storeChat conversationId userMessage aiResponse w s)
  = match redis_lpush_fault w key with
    | Some _ => Throw chat_failure
    | None =>
        match Redis.live (redis_clock w) (db s) key with
        | Some (RStr _ _) => Throw chat_failure
        | _ =>
            match redis_ltrim_fault w key with
            | Some _ => Throw chat_failure
            | None => Ret tt
            end
        end
    end.
Proof.
  unfold Cache.storeChat, Redis.lpush, Redis.ltrim0.
  remember (Cache.CHAT_HISTORY_PREFIX ++ conversationId) as key eqn:K.
  clear K. run_eff.
  destruct (redis_lpush_fault w key); simpl; [reflexivity|].
  destruct (Redis.live (redis_clock w) (db s) key) as [[v ex|items]|];
    simpl; [reflexivity| |];
    (destruct (redis_ltrim_fault w key); simpl; [reflexivity|]);
    unfold Redis.live; rewrite lookup_insert_eq; reflexivity.
Qed.

(** C7, amended.  [setCachedContent] returns normally for every key and
    value, also when the store rejects the write, and such a rejection
    does not change what [scrapeWebContent] returns. [storeChat] throws
    ["Failed to store chat history"] to its caller when the store
    rejects the push or the trim. *)
Theorem store_failures :
  (forall (key : jsstring) (content : Cache.cacheable) (w : World)
          (s : Sys),
      fst (Cache.setCachedContent key content w s) = Ret tt)
  /\ (forall (u : jsstring) (f : jsstring -> option Js.exn) (w : World)
            (s : Sys),
        fst (scrapeWebContent u (Sample.with_set_fault f w) s)
        = fst (scrapeWebContent u w s))
  /\ (forall (conversationId userMessage aiResponse : jsstring)
            (w : World) (s : Sys),
        redis_lpush_fault w (Cache.CHAT_HISTORY_PREFIX ++ conversationId)
          <> None
        \/ redis_ltrim_fault w (Cache.CHAT_HISTORY_PREFIX ++ conversationId)
             <> None ->
        fst (Cache.storeChat conversationId userMessage aiResponse w s)
        = Throw chat_failure).
Proof.
  split; [|split].
  - intros key content w s. rewrite CacheFacts.setCachedContent_eq.
    reflexivity.
  - intros u f w s.
    destruct (valid_dec u) as [V|N].
    2:{ rewrite !(scrapeWebContent_invalid u _ s N). reflexivity. }
    destruct (CacheSpec.looked_up w (db s) (scrape_key u)) as [cached|] eqn:F.
    + rewrite (scrapeWebContent_hit u w s cached V F).
      rewrite (scrapeWebContent_hit u (Sample.with_set_fault f w) s cached
                 V F).
      reflexivity.
    + destruct (scrapeWebContent_miss u w s V F) as (s1 & evs1 & -> & _).
      destruct (scrapeWebContent_miss u (Sample.with_set_fault f w) s V F)
        as (s2 & evs2 & -> & _).
      reflexivity.
  - intros conversationId userMessage aiResponse w s H.
    rewrite storeChat_outcomes. cbv zeta.
    destruct (redis_lpush_fault w _); [reflexivity|].
    destruct (Redis.live _ _ _) as [[v ex|items]|]; try reflexivity;
      (destruct (redis_ltrim_fault w _); [reflexivity|]);
      destruct H as [H|H]; contradiction.
Qed.

Lemma store_failures_witness :
  fst (Cache.storeChat (Js.lit "c2") (Js.lit "summarise http://a")
         (Js.lit "It says word.") Sample.redis_down Sample.warm)
  = Throw chat_failure.
Proof.
  apply (proj2 (proj2 store_failures)).
  left. discriminate.
Defined.

End StoreClaims.

(** ** The pool with calls in flight *)

Module TaskFacts.

Import PoolTask PoolSpec PoolFacts TaskSpec.

Lemma alone_from_0 (w : World) (p : task * Sys) : alone_from 0 w p = p.
Proof. destruct p; reflexivity. Qed.

Lemma alone_from_S (w : World) (n : nat) (t : task) (s : Sys) :
  alone_from (S n) w (t, s) = alone_from n w (resume w t s).
Proof.
  unfold alone_from. simpl. destruct (resume w t s); reflexivity.
Qed.

Lemma alone_from_add (w : World) (n m : nat) :
  forall p : task * Sys,
    alone_from (n + m) w p = alone_from m w (alone_from n w p).
Proof.
  induction n as [|n IH]; intros [t s].
  - reflexivity.
  - change (S n + m)%nat with (S (n + m)).
    rewrite !alone_from_S. apply IH.
Qed.

(** The second loop of the sweep, resumed until it is over. *)
Lemma close_phase (w : World) (todo : list nat) :
  forall s : Sys,
    exists n : nat,
      alone_from n w (next_close todo s)
      = (AtSweep,
         {| db := db s; browsers := evicted todo (browsers s);
            launched := launched s;
            log := evict_log todo (browsers s) ++ log s |}).
Proof.
  induction todo as [|index rest IH]; intros s.
  - exists 0%nat. rewrite alone_from_0. destruct s; reflexivity.
  - simpl. destruct (browsers s !! index) as [e|] eqn:L.
    + destruct (IH (set_browsers (delete index (browsers s))
                      (emit (ChromeClose (browser e)) s))) as [n E].
      exists (S n). rewrite alone_from_S. simpl resume.
      simpl in E. rewrite E, <- app_assoc. reflexivity.
    + destruct (IH (set_browsers (delete index (browsers s)) s)) as [n E].
      exists n. rewrite E. simpl. rewrite app_nil_r. reflexivity.
Qed.

(** The first loop, resumed until the second one starts. *)
Lemma probe_phase (w : World) (rest : list Pooled) :
  forall (pre : list Pooled) (bad : list nat) (s : Sys),
    browsers s = pre ++ rest ->
    exists n : nat,
      alone_from n w (next_probe (length pre) bad s)
      = next_close (rev (bad ++ unhealthy w (length pre) rest))
          (logged (rev (List.map (fun e => ChromeProbe (browser e)) rest))
                  s).
Proof.
  induction rest as [|e rest IH]; intros pre bad s B.
  - exists 0%nat. rewrite alone_from_0. unfold next_probe. simpl.
    rewrite B, app_nil_r, lookup_ge_None_2 by lia.
    rewrite app_nil_r. destruct s; reflexivity.
  - unfold next_probe. rewrite B, list_lookup_middle by reflexivity.
    set (s1 := emit (ChromeProbe (browser e)) s).
    set (bad' := if chrome_alive w (browser e) then bad
                 else bad ++ [length pre]).
    destruct (IH (pre ++ [e]) bad' s1) as [n E].
    { simpl. rewrite B, <- app_assoc. reflexivity. }
    exists (S n). rewrite alone_from_S. simpl resume.
    rewrite length_app, Nat.add_1_r in E. fold bad'. fold s1.
    rewrite E. clear E.
    assert (U : bad' ++ unhealthy w (S (length pre)) rest
                = bad ++ (if chrome_alive w (browser e)
                          then unhealthy w (S (length pre)) rest
                          else length pre
                                 :: unhealthy w (S (length pre)) rest)).
    { unfold bad'. destruct (chrome_alive w (browser e));
        [reflexivity|rewrite <- app_assoc; reflexivity]. }
    rewrite U. clear U.
    assert (L : logged (rev (List.map (fun e => ChromeProbe (browser e))
                                rest)) s1
                = logged (rev (List.map (fun e => ChromeProbe (browser e))
                                 (e :: rest))) s).
    { unfold logged, s1. simpl. rewrite <- app_assoc. reflexivity. }
    rewrite L. reflexivity.
Qed.

(** A call that no other call interleaves with is [getBrowser]. *)
Lemma alone_getBrowser (w : World) (s : Sys) :
  exists n : nat,
    alone n w Fresh s
    = (Settled (fst (BrowserPool.getBrowser w s)),
       snd (BrowserPool.getBrowser w s)).
Proof.
  destruct (probe_phase w (browsers s) [] [] s eq_refl) as [n1 E1].
  simpl in E1.
  destruct (close_phase w (rev (unhealthy w 0 (browsers s)))
              (logged (rev (List.map (fun e => ChromeProbe (browser e))
                              (browsers s))) s)) as [n2 E2].
  exists (S (n1 + n2 + 2)).
  change (alone (S (n1 + n2 + 2)) w Fresh s)
    with (alone_from (S (n1 + n2 + 2)) w (Fresh, s)).
  rewrite alone_from_S. simpl resume.
  rewrite !alone_from_add, E1, E2. clear E1 E2.
  rewrite getBrowser_exact. simpl.
  pose proof (evicted_unhealthy w (browsers s) []) as H. simpl in H.
  rewrite H. clear H.
  unfold alone_from, acquired, pool_after, launched_after, pool_log,
    sweep_log. simpl.
  destruct (length (sweep w (browsers s)) <? BrowserPool.maxBrowsers)%nat;
    simpl.
  - destruct (chrome_launch w); simpl; rewrite <- ?app_assoc; reflexivity.
  - destruct (BrowserPool.reduce (sweep w (browsers s))); simpl;
      rewrite <- ?app_assoc; reflexivity.
Qed.

(** However many calls are made one after the other, the pool never
    holds more than [maxBrowsers] sessions. *)
Lemma in_turn_cap (ws : list World) :
  forall s : Sys,
    (length (browsers s) <= BrowserPool.maxBrowsers)%nat ->
    (length (browsers (in_turn ws s)) <= BrowserPool.maxBrowsers)%nat.
Proof.
  induction ws as [|w rest IH]; intros s H; simpl; [exact H|].
  apply IH. rewrite getBrowser_exact. simpl.
  apply pool_after_cap. exact H.
Qed.

(** Below the cap a call launches a session and adds it to the pool. *)
Lemma below_cap_launches (w : World) (s : Sys) :
  (length (sweep w (browsers s)) < BrowserPool.maxBrowsers)%nat ->
  chrome_launch w = None ->
  fst (BrowserPool.getBrowser w s) = Ret (launched s)
  /\ browsers (snd (BrowserPool.getBrowser w s))
     = sweep w (browsers s) ++ [fresh w s].
Proof.
  intros H L. rewrite getBrowser_exact. simpl.
  unfold acquired, pool_after.
  apply Nat.ltb_lt in H. rewrite H, L. split; reflexivity.
Qed.

(** At the cap a call returns an entry that no other entry precedes in
    last use, and stamps it. *)
Lemma at_cap_reuses (w : World) (s : Sys) :
  (BrowserPool.maxBrowsers <= length (sweep w (browsers s)))%nat ->
  exists (i : nat) (e : Pooled),
    sweep w (browsers s) !! i = Some e
    /\ fst (BrowserPool.getBrowser w s) = Ret (browser e)
    /\ browsers (snd (BrowserPool.getBrowser w s))
       = <[i := touched w e]> (sweep w (browsers s))
    /\ forall (j : nat) (e' : Pooled),
         sweep w (browsers s) !! j = Some e' ->
         (lastUsed e <= lastUsed e')%Z.
Proof.
  intros H. rewrite getBrowser_exact. simpl.
  unfold acquired, pool_after.
  apply Nat.ltb_ge in H. rewrite H.
  destruct (BrowserPool.reduce (sweep w (browsers s))) as [[i e]|error]
    eqn:R.
  - exists i, e. repeat split.
    + apply reduce_lookup. exact R.
    + intros j e' L. apply (reduce_least _ _ j e' R L).
  - exfalso. unfold BrowserPool.reduce in R.
    apply Nat.ltb_ge in H. unfold BrowserPool.maxBrowsers, MAX_WORKERS in H.
    destruct (sweep w (browsers s)) as [|x l]; simpl in *; [lia|].
    discriminate.
Qed.

Lemma boot_numbered : numbered Sample.boot.
Proof. constructor. Qed.

Lemma getBrowser_numbered (w : World) (s : Sys) :
  numbered s -> numbered (snd (BrowserPool.getBrowser w s)).
Proof.
  unfold numbered. intros Num. rewrite getBrowser_exact. simpl.
  assert (Sw : Forall (fun e => (browser e < launched s)%nat)
                 (sweep w (browsers s))).
  { apply List.Forall_forall. intros e H. apply filter_In in H as [H _].
    rewrite List.Forall_forall in Num. apply Num. exact H. }
  unfold pool_after, launched_after.
  destruct (length (sweep w (browsers s)) <? BrowserPool.maxBrowsers)%nat.
  - destruct (chrome_launch w); [exact Sw|].
    apply Forall_app. split.
    + eapply List.Forall_impl; [|exact Sw]. intros e H. simpl in H. lia.
    + repeat constructor.
  - destruct (BrowserPool.reduce (sweep w (browsers s))) as [[i e]|] eqn:R;
      [|exact Sw].
    apply Forall_insert; [exact Sw|].
    apply reduce_lookup in R.
    rewrite List.Forall_forall in Sw.
    apply (Sw e), list_elem_of_In, list_elem_of_lookup_2 with i. exact R.
Qed.

(** A session that was launched and is no longer in the pool (it was
    evicted) is not what a call returns. *)
Lemma evicted_not_returned (w : World) (s : Sys) (b : nat) :
  numbered s ->
  (b < launched s)%nat ->
  ~ In b (List.map browser (browsers s)) ->
  fst (BrowserPool.getBrowser w s) <> Ret b.
Proof.
  intros Num Old Gone. rewrite getBrowser_exact. simpl.
  unfold acquired.
  destruct (length (sweep w (browsers s)) <? BrowserPool.maxBrowsers)%nat.
  - destruct (chrome_launch w); [discriminate|].
    intros H. inversion H. lia.
  - destruct (BrowserPool.reduce (sweep w (browsers s))) as [[i e]|] eqn:R;
      [|discriminate].
    intros H. inversion H. subst b. apply Gone.
    apply reduce_lookup, list_elem_of_lookup_2, list_elem_of_In in R.
    apply filter_In in R as [R _]. apply in_map. exact R.
Qed.

(** C9 fails when calls overlap.  Four calls of [getBrowser] that are in
    flight together on an empty pool each find fewer than three sessions
    at line 72 and each launch one: all four return, and the pool holds
    four live sessions, one more than [maxBrowsers]. *)
Theorem overlapping_calls_exceed_cap :
  snd (run overlapped four_calls)
  = [Settled (Ret 0); Settled (Ret 1); Settled (Ret 2); Settled (Ret 3)]%nat
  /\ List.map browser (browsers (fst (run overlapped four_calls)))
     = [0; 1; 2; 3]%nat
  /\ (BrowserPool.maxBrowsers
      < length (browsers (fst (run overlapped four_calls))))%nat.
Proof.
  split; [|split].
  - vm_compute. reflexivity.
  - vm_compute. reflexivity.
  - vm_compute. lia.
Qed.

(** The same four calls made one after the other leave three sessions. *)
Lemma four_calls_in_turn :
  length (browsers
            (in_turn [Sample.offline; Sample.offline; Sample.offline;
                      Sample.offline] Sample.boot))
  = 3%nat.
Proof. vm_compute. reflexivity. Qed.

End TaskFacts.

(** ** The quality gate, in full *)

Module GateFacts.

Import Scrape.

Lemma trimStart_nil (s : jsstring) :
  Js.trimStart s = [] -> forallb Js.is_space s = true.
Proof.
  induction s as [|c t IH]; simpl; [reflexivity|].
  destruct (Js.is_space c); [exact IH|discriminate].
Qed.

Lemma trim_nil (s : jsstring) :
  Js.trim s = [] -> forallb Js.is_space s = true.
Proof.
  unfold Js.trim, Js.trimEnd. intros H.
  assert (R : Js.trimStart (rev (Js.trimStart s)) = []).
  { rewrite <- (rev_involutive (Js.trimStart (rev (Js.trimStart s)))), H.
    reflexivity. }
  apply trimStart_nil in R. rewrite forallb_forall in R.
  assert (A : forallb Js.is_space (Js.trimStart s) = true).
  { apply forallb_forall. intros x I. apply R, in_rev. rewrite rev_involutive.
    exact I. }
  clear R H. induction s as [|c t IH]; simpl in *; [reflexivity|].
  destruct (Js.is_space c) eqn:C; [apply IH, A|].
  simpl in A. rewrite C in A. discriminate.
Qed.

(** Text made of white space only splits into at most two (empty) words. *)
Lemma blank_words (s : jsstring) :
  forallb Js.is_space s = true ->
  forall prev : bool,
    (length (Js.split_go Js.is_space prev s) <= 2)%nat
    /\ (prev = true -> (length (Js.split_go Js.is_space prev s) <= 1)%nat).
Proof.
  induction s as [|c t IH]; intros B prev; simpl in *.
  - split; intros; lia.
  - apply andb_prop in B as [C B]. rewrite C.
    destruct (IH B true) as [_ One]. specialize (One eq_refl).
    destruct prev; simpl; split; intros; try discriminate; lia.
Qed.

Lemma average_at_least (len count : nat) :
  (1 <= count)%nat ->
  Qle_bool (inject_Z MIN_WORD_LENGTH) (average len count) = true
  <-> (3 * count <= len)%nat.
Proof.
  intros C. rewrite Qle_bool_iff.
  unfold Qle, average, MIN_WORD_LENGTH, inject_Z. cbn [Qnum Qden].
  assert (P : Z.pos (Pos.of_nat count) = Z.of_nat count).
  { rewrite <- positive_nat_Z, Nat2Pos.id by lia. reflexivity. }
  rewrite P. lia.
Qed.

(** X1.  [isContentMeaningful] accepts a text exactly when it has at least
    100 words and 3 sentences (pieces of the two splits, empty ones
    included), at least 3 code units per word on average, and contains
    none of the blocked phrases. The two tests at its head (empty or blank
    text, no word) reject nothing that the others would accept. *)
Theorem gate_accepts_exactly (content : jsstring) :
  isContentMeaningful content = true
  <-> (MIN_CONTENT_LENGTH <= length (words content))%nat
      /\ (MIN_SENTENCES <= length (sentences content))%nat
      /\ (3 * length (words content) <= length content)%nat
      /\ (forall phrase : jsstring,
            In phrase blocked_phrases ->
            Js.includes phrase content = false).
Proof.
  assert (B : existsb (fun phrase => Js.includes phrase content)
                blocked_phrases = false
              <-> (forall phrase : jsstring,
                     In phrase blocked_phrases ->
                     Js.includes phrase content = false)).
  { split.
    - intros H phrase I.
      destruct (Js.includes phrase content) eqn:E; [|reflexivity].
      assert (X : existsb (fun phrase => Js.includes phrase content)
                    blocked_phrases = true)
        by (apply existsb_exists; exists phrase; split; assumption).
      congruence.
    - intros H.
      destruct (existsb _ blocked_phrases) eqn:E; [|reflexivity].
      apply existsb_exists in E as (phrase & I & T).
      rewrite (H phrase I) in T. discriminate. }
  unfold isContentMeaningful, MIN_CONTENT_LENGTH, MIN_SENTENCES in *.
  split.
  - destruct (negb (Js.truthy content) || (length (Js.trim content) =? 0)%nat);
      [discriminate|].
    destruct (length (words content) =? 0)%nat eqn:Z; [discriminate|].
    intros H.
    apply andb_prop in H as [H N]. apply andb_prop in H as [H A].
    apply andb_prop in H as [W S].
    apply Nat.leb_le in W, S. apply Nat.eqb_neq in Z.
    apply average_at_least in A; [|lia].
    apply negb_true_iff in N. repeat split; try assumption.
    apply B, N.
  - intros (W & S & A & N).
    assert (T : Js.truthy content = true).
    { destruct content; [simpl in A; lia|reflexivity]. }
    assert (K : (length (Js.trim content) =? 0)%nat = false).
    { apply Nat.eqb_neq. intros L. apply length_zero_iff_nil in L.
      apply trim_nil in L.
      destruct (blank_words content L false) as [Two _].
      unfold words, Js.split_runs in W. lia. }
    rewrite T, K. cbn [negb orb].
    replace (length (words content) =? 0)%nat with false
      by (symmetry; apply Nat.eqb_neq; lia).
    apply Nat.leb_le in W, S. rewrite W, S. cbn [andb].
    apply B in N. rewrite N.
    apply average_at_least in A; [|apply Nat.leb_le in W; lia].
    rewrite A. reflexivity.
Qed.

End GateFacts.

(** ** The cache layer: round trips and misses *)

Module CacheRoundTrip.

Import CacheSpec CacheFacts.

(** X2.  A result written with [setCachedContent] is what
    [getCachedContent] returns under the same key for exactly
    [CACHE_DURATION] seconds, when the store accepts the write and answers
    the read: before that time it is a hit with the result as it was
    written, from that time on a miss. *)
Theorem set_then_get (key : jsstring) (r : ScrapingResult) (w1 w2 : World)
    (s : Sys) :
  redis_set_fault w1 key = None ->
  redis_get_fault w2 key = None ->
  fst (Cache.getCachedContent key w2
         (snd (Cache.setCachedContent key (Cache.CResult r) w1 s)))
  = Ret (if redis_clock w2 <? redis_clock w1 + Cache.CACHE_DURATION
         then Some r else None).
Proof.
  intros SF GF.
  rewrite setCachedContent_eq, getCachedContent_eq. simpl.
  unfold looked_up, written, Redis.live.
  rewrite SF, GF, lookup_insert_eq.
  destruct (redis_clock w2 <? redis_clock w1 + Cache.CACHE_DURATION);
    reflexivity.
Qed.

Lemma set_then_get_witness :
  fst (Cache.getCachedContent (Js.lit "k") Sample.offline
         (snd (Cache.setCachedContent (Js.lit "k")
                 (Cache.CResult
                    (ScrapeSpec.static_found Sample.a_url Sample.article
                       Sample.prose))
                 Sample.offline Sample.boot)))
  = Ret (if redis_clock Sample.offline
            <? redis_clock Sample.offline + Cache.CACHE_DURATION
         then Some (ScrapeSpec.static_found Sample.a_url Sample.article
                      Sample.prose)
         else None).
Proof.
  apply (set_then_get (Js.lit "k") _ Sample.offline Sample.offline Sample.boot);
    reflexivity.
Defined.

End CacheRoundTrip.

(** ** The orchestrator, call by call *)

Module CallFacts.

Import Scrape ScrapeSpec ScrapeFacts PoolSpec PoolFacts CallSpec.

Lemma scrapeWithPuppeteer_exact (url : jsstring) (w : World) (s : Sys) :
  scrapeWithPuppeteer url w s
  = (rendered w s url,
     {| db := db s; browsers := pool_after w s;
        launched := launched_after w s;
        log := page_log w s url ++ pool_log w s ++ log s |}).
Proof.
  unfold scrapeWithPuppeteer, rendered, page_log. run_eff.
  rewrite getBrowser_exact.
  destruct (acquired w s) as [b|e]; simpl; [|reflexivity].
  destruct (page_open_fault w b) as [e|]; simpl; [reflexivity|].
  destruct (page_extract w b url), (page_close_fault w b); reflexivity.
Qed.

Lemma scrapeWebContent_miss_exact (url : jsstring) (w : World) (s : Sys) :
  valid url ->
  CacheSpec.looked_up w (db s) (scrape_key url) = None ->
  scrapeWebContent url w s = (Ret (miss_result url w s), miss_state url w s).
Proof.
  intros [T P] F.
  unfold scrapeWebContent, body. rewrite T, P. simpl.
  unfold miss_state.
  unfold attempt, rescue, in_sys, stop_clock, update_metrics, read_metrics,
    fetch, miss_result, miss_db, pool_used, static_text.
  run_eff.
  rewrite CacheFacts.getCachedContent_eq, F. simpl.
  destruct (http_fetch w url) as [response|e]; simpl; [|reflexivity].
  destruct (text response) as [html|e]; simpl; [|reflexivity].
  rewrite scrapeWithCheerio_eq.
  destruct (cheerio_texts w html) as [texts|e]; simpl; [|reflexivity].
  destruct (isContentMeaningful (Js.join [10; 10] (unique_texts texts)));
    simpl.
  - rewrite CacheFacts.setCachedContent_eq. reflexivity.
  - rewrite scrapeWithPuppeteer_exact. simpl.
    change (rendered w
              (emit (HttpFetch url) (emit (RedisGet (scrape_key url)) s)) url)
      with (rendered w s url).
    change (page_log w
              (emit (HttpFetch url) (emit (RedisGet (scrape_key url)) s)) url)
      with (page_log w s url).
    change (pool_log w
              (emit (HttpFetch url) (emit (RedisGet (scrape_key url)) s)))
      with (pool_log w s).
    change (pool_after w
              (emit (HttpFetch url) (emit (RedisGet (scrape_key url)) s)))
      with (pool_after w s).
    change (launched_after w
              (emit (HttpFetch url) (emit (RedisGet (scrape_key url)) s)))
      with (launched_after w s).
    destruct (rendered w s url) as [d|e]; simpl.
    + destruct (isContentMeaningful d); simpl.
      * rewrite CacheFacts.setCachedContent_eq. simpl.
        rewrite <- !app_assoc. reflexivity.
      * rewrite <- !app_assoc. reflexivity.
    + rewrite <- !app_assoc. reflexivity.
Qed.

(** The pool opens no page. *)
Lemma pool_log_opens_nothing (w : World) (s : Sys) (b : nat) :
  ~ In (PageOpen b) (pool_log w s).
Proof.
  intros I. unfold pool_log, sweep_log in I.
  repeat (apply in_app_or in I as [I|I]).
  - destruct (length (sweep w (browsers s)) <? BrowserPool.maxBrowsers)%nat;
      simpl in I; intuition discriminate.
  - revert I. generalize (rev (unhealthy w 0 (browsers s))).
    generalize (browsers s).
    intros bs l. revert bs.
    induction l as [|i l IH]; intros bs I; simpl in I; [contradiction|].
    apply in_app_or in I as [I|I]; [exact (IH _ I)|].
    destruct (bs !! i); simpl in I; intuition discriminate.
  - apply in_rev, in_map_iff in I as (x & X & _). discriminate.
Qed.

(** X3.  A URL that is empty or does not start with ["http"] is answered at
    once with the error ["Invalid URL provided"]: the process state is left
    exactly as it was, so neither the cache, the network nor Chrome is
    called. *)
Theorem invalid_url_no_call (u : jsstring) (w : World) (s : Sys) :
  u = [] \/ Js.startsWith (Js.lit "http") u = false ->
  exists r : ScrapingResult,
    scrapeWebContent u w s = (Ret r, s)
    /\ success r = false
    /\ error r = Some (Js.lit "Invalid URL provided")
    /\ content r = []
    /\ url r = u.
Proof.
  intros H.
  assert (N : ~ valid u).
  { intros [T P]. destruct H as [->|H]; [discriminate|congruence]. }
  rewrite (scrapeWebContent_invalid u w s N).
  eexists. repeat split.
Qed.

Lemma invalid_url_no_call_witness :
  exists r : ScrapingResult,
    scrapeWebContent (Js.lit "ftp://a") Sample.article Sample.warm
    = (Ret r, Sample.warm)
    /\ success r = false
    /\ error r = Some (Js.lit "Invalid URL provided")
    /\ content r = []
    /\ url r = Js.lit "ftp://a".
Proof.
  apply (invalid_url_no_call (Js.lit "ftp://a") Sample.article Sample.warm).
  right. reflexivity.
Defined.

(** X4.  When the static extraction passes the quality gate the browser
    pool is not touched: the call makes exactly three outside calls (cache
    read, fetch, cache write), reports the method ['cheerio'], and, when
    the store accepts the write, leaves its result under the key of the
    URL with the expiry of [CACHE_DURATION]. *)
Theorem static_success_skips_pool (u : jsstring) (w : World) (s : Sys)
    (response : Response) (html c : jsstring) :
  valid u ->
  fst (Cache.getCachedContent (scrape_key u) w s) = Ret None ->
  http_fetch w u = Ret response ->
  text response = Ret html ->
  fst (scrapeWithCheerio html w s) = Ret c ->
  isContentMeaningful c = true ->
  exists (r : ScrapingResult) (s' : Sys),
    scrapeWebContent u w s = (Ret r, s')
    /\ success r = true
    /\ content r = c
    /\ scrapeMethod r = Some (Js.lit "cheerio")
    /\ browsers s' = browsers s
    /\ launched s' = launched s
    /\ log s'
       = RedisSet (scrape_key u) :: HttpFetch u :: RedisGet (scrape_key u)
           :: log s
    /\ (redis_set_fault w (scrape_key u) = None ->
        db s' !! scrape_key u
        = Some (RStr (SResult r) (redis_clock w + Cache.CACHE_DURATION))).
Proof.
  intros V F HF HT HC G.
  rewrite fst_getCachedContent in F. inversion F as [F'].
  rewrite scrapeWithCheerio_eq in HC. simpl in HC.
  assert (S : static_text w u = Ret c).
  { unfold static_text. rewrite HF, HT. exact HC. }
  rewrite (scrapeWebContent_miss_exact u w s V F').
  unfold miss_state, miss_result, miss_db, pool_used. rewrite S, G. simpl.
  eexists. eexists. repeat split.
  intros SF. unfold CacheSpec.written. rewrite SF.
  apply lookup_insert_eq.
Qed.

Lemma static_success_skips_pool_witness :
  exists (r : ScrapingResult) (s' : Sys),
    scrapeWebContent Sample.a_url Sample.article Sample.boot = (Ret r, s')
    /\ success r = true
    /\ content r = Js.trim Sample.prose
    /\ scrapeMethod r = Some (Js.lit "cheerio")
    /\ browsers s' = []
    /\ launched s' = 0%nat
    /\ log s'
       = [RedisSet (scrape_key Sample.a_url); HttpFetch Sample.a_url;
          RedisGet (scrape_key Sample.a_url)]
    /\ (redis_set_fault Sample.article (scrape_key Sample.a_url) = None ->
        db s' !! scrape_key Sample.a_url
        = Some (RStr (SResult r)
                  (redis_clock Sample.article + Cache.CACHE_DURATION))).
Proof.
  apply (static_success_skips_pool Sample.a_url Sample.article Sample.boot
           {| text := Ret (Js.lit "<article/>") |} (Js.lit "<article/>")
           (Js.trim Sample.prose)).
  - split; reflexivity.
  - vm_compute. reflexivity.
  - reflexivity.
  - reflexivity.
  - vm_compute. reflexivity.
  - vm_compute. reflexivity.
Defined.

(** X5.  When Redis rejects the read, an entry stored under the key is
    ignored: the call counts a miss, fetches the page and reports a method
    other than ['cache']. *)
Theorem rejected_read_is_a_miss (u : jsstring) (w : World) (s : Sys) :
  valid u ->
  redis_get_fault w (scrape_key u) <> None ->
  exists (r : ScrapingResult) (s' : Sys) (evs : list event)
         (m : Metrics.t),
    scrapeWebContent u w s = (Ret r, s')
    /\ log s' = evs ++ log s
    /\ In (HttpFetch u) evs
    /\ metrics r = Some m
    /\ Metrics.method_ m <> Metrics.cache.
Proof.
  intros V GF.
  assert (F : CacheSpec.looked_up w (db s) (scrape_key u) = None).
  { unfold CacheSpec.looked_up.
    destruct (redis_get_fault w (scrape_key u)); [reflexivity|contradiction]. }
  rewrite (scrapeWebContent_miss_exact u w s V F).
  unfold miss_state. simpl.
  exists (miss_result u w s). eexists.
  exists ((if success (miss_result u w s)
           then [RedisSet (scrape_key u)] else [])
          ++ (if pool_used w u then page_log w s u ++ pool_log w s else [])
          ++ [HttpFetch u; RedisGet (scrape_key u)]).
  assert (M : exists m, metrics (miss_result u w s) = Some m
                        /\ Metrics.method_ m <> Metrics.cache).
  { unfold miss_result.
    destruct (static_text w u) as [c|e];
      [|eexists; split; [reflexivity|discriminate]].
    destruct (isContentMeaningful c);
      [eexists; split; [reflexivity|discriminate]|].
    destruct (rendered w s u) as [d|e];
      [|eexists; split; [reflexivity|discriminate]].
    destruct (isContentMeaningful d);
      eexists; (split; [reflexivity|discriminate]). }
  destruct M as (m & M1 & M2). exists m.
  repeat split; try assumption.
  - rewrite <- !app_assoc. reflexivity.
  - apply in_or_app. right. apply in_or_app. right. left. reflexivity.
Qed.

Lemma rejected_read_is_a_miss_witness :
  exists (r : ScrapingResult) (s' : Sys) (evs : list event)
         (m : Metrics.t),
    scrapeWebContent Sample.a_url Sample.redis_down Sample.warm = (Ret r, s')
    /\ log s' = evs ++ log Sample.warm
    /\ In (HttpFetch Sample.a_url) evs
    /\ metrics r = Some m
    /\ Metrics.method_ m <> Metrics.cache.
Proof.
  apply (rejected_read_is_a_miss Sample.a_url Sample.redis_down Sample.warm).
  - split; reflexivity.
  - discriminate.
Defined.

(** X6.  [scrapeWithPuppeteer] closes every page it has opened, also when
    the extraction throws, opens at most one page, and never changes the
    database. *)
Theorem page_always_closed (u : jsstring) (w : World) (s : Sys) :
  exists evs : list event,
    log (snd (scrapeWithPuppeteer u w s)) = evs ++ log s
    /\ db (snd (scrapeWithPuppeteer u w s)) = db s
    /\ (forall b : nat,
          In (PageOpen b) evs -> page_open_fault w b = None ->
          In (PageClose b) evs)
    /\ (length (List.filter
                  (fun e => match e with PageOpen _ => true | _ => false end)
                  evs) <= 1)%nat.
Proof.
  rewrite scrapeWithPuppeteer_exact. simpl.
  exists (page_log w s u ++ pool_log w s).
  split; [rewrite app_assoc; reflexivity|]. split; [reflexivity|].
  assert (NoOpen : forall b, ~ In (PageOpen b) (pool_log w s))
    by (intros b; apply pool_log_opens_nothing).
  assert (F0 : List.filter
                 (fun e => match e with PageOpen _ => true | _ => false end)
                 (pool_log w s) = []).
  { generalize NoOpen. generalize (pool_log w s).
    induction l as [|e l IH]; intros N; simpl; [reflexivity|].
    destruct e as [| | | | | | | |opened| |];
      try (apply IH; intros b0 I; apply (N b0); right; exact I).
    exfalso. apply (N opened). left. reflexivity. }
  split.
  - intros b I OK. apply in_or_app. left.
    apply in_app_or in I as [I|I]; [|exfalso; exact (NoOpen b I)].
    unfold page_log in *.
    destruct (acquired w s) as [b'|]; [|contradiction].
    destruct (page_open_fault w b') eqn:E; simpl in *.
    + destruct I as [I|[]]. inversion I; subst. congruence.
    + left. destruct I as [I|[I|[I|[]]]]; try discriminate.
      inversion I. reflexivity.
  - rewrite List.filter_app, F0, app_nil_r. unfold page_log.
    destruct (acquired w s) as [b'|]; [|simpl; lia].
    destruct (page_open_fault w b'); simpl; lia.
Qed.

(** X7.  When closing the page throws, the content that was extracted is
    lost: [scrapeWithPuppeteer] throws the error of the [finally] block. *)
Theorem close_failure_discards_content (u : jsstring) (w : World) (s : Sys)
    (b : nat) (d : jsstring) (e : Js.exn) :
  fst (BrowserPool.getBrowser w s) = Ret b ->
  page_open_fault w b = None ->
  page_extract w b u = Ret d ->
  page_close_fault w b = Some e ->
  fst (scrapeWithPuppeteer u w s) = Throw e.
Proof.
  intros A O X C. rewrite getBrowser_exact in A. simpl in A.
  rewrite scrapeWithPuppeteer_exact. simpl.
  unfold rendered. rewrite A, O, C. reflexivity.
Qed.

Lemma close_failure_discards_content_witness :
  fst (scrapeWithPuppeteer Sample.a_url Scenario.close_fails Sample.boot)
  = Throw (Js.Error (Js.lit "Target closed")).
Proof.
  apply (close_failure_discards_content Sample.a_url Scenario.close_fails
           Sample.boot 0%nat Sample.prose);
    reflexivity.
Defined.

(** X8.  When the static content is rejected and Chrome cannot be
    launched, the call opens no page and returns a failure whose error is
    ["Failed to launch browser: "] followed by the message of the launch
    error; the database is unchanged. *)
Theorem launch_failure_reported (u : jsstring) (w : World) (s : Sys)
    (response : Response) (html c : jsstring) (cause e : Js.exn) :
  valid u ->
  fst (Cache.getCachedContent (scrape_key u) w s) = Ret None ->
  http_fetch w u = Ret response ->
  text response = Ret html ->
  fst (scrapeWithCheerio html w s) = Ret c ->
  isContentMeaningful c = false ->
  chrome_launch w = Some cause ->
  fst (BrowserPool.getBrowser w s) = Throw e ->
  exists (r : ScrapingResult) (s' : Sys) (evs : list event),
    scrapeWebContent u w s = (Ret r, s')
    /\ success r = false
    /\ error r
       = Some (Js.lit "Failed to launch browser: " ++ Js.message_field cause)
    /\ db s' = db s
    /\ log s' = evs ++ log s
    /\ (forall b : nat, ~ In (PageOpen b) evs).
Proof.
  intros V F HF HT HC G L A.
  rewrite fst_getCachedContent in F. inversion F as [F'].
  rewrite scrapeWithCheerio_eq in HC. simpl in HC.
  assert (S : static_text w u = Ret c).
  { unfold static_text. rewrite HF, HT. exact HC. }
  rewrite getBrowser_exact in A. simpl in A.
  assert (E : acquired w s = Throw (launch_error cause)).
  { revert A. unfold acquired. rewrite L.
    destruct (length (sweep w (browsers s)) <? BrowserPool.maxBrowsers)%nat
      eqn:Below; [reflexivity|].
    unfold BrowserPool.reduce.
    apply Nat.ltb_ge in Below.
    unfold BrowserPool.maxBrowsers, MAX_WORKERS in Below.
    destruct (sweep w (browsers s)); simpl in *; [lia|discriminate]. }
  rewrite (scrapeWebContent_miss_exact u w s V F').
  unfold miss_state, miss_result, miss_db, pool_used, rendered, page_log.
  rewrite S, G, E. simpl.
  eexists. eexists. exists (pool_log w s ++ [HttpFetch u; RedisGet (scrape_key u)]).
  repeat split.
  - rewrite <- app_assoc. reflexivity.
  - intros b I. apply in_app_or in I as [I|I].
    + exact (pool_log_opens_nothing w s b I).
    + simpl in I. intuition discriminate.
Qed.

Lemma launch_failure_reported_witness :
  exists (r : ScrapingResult) (s' : Sys) (evs : list event),
    scrapeWebContent Sample.a_url Scenario.no_chrome Sample.boot = (Ret r, s')
    /\ success r = false
    /\ error r
       = Some (Js.lit "Failed to launch browser: spawn chrome ENOENT")
    /\ db s' = db Sample.boot
    /\ log s' = evs ++ log Sample.boot
    /\ (forall b : nat, ~ In (PageOpen b) evs).
Proof.
  apply (launch_failure_reported Sample.a_url Scenario.no_chrome Sample.boot
           {| text := Ret (Js.lit "<p/>") |} (Js.lit "<p/>") []
           (Js.Error (Js.lit "spawn chrome ENOENT"))
           (launch_error (Js.Error (Js.lit "spawn chrome ENOENT")))).
  - split; reflexivity.
  - vm_compute. reflexivity.
  - reflexivity.
  - reflexivity.
  - vm_compute. reflexivity.
  - reflexivity.
  - reflexivity.
  - vm_compute. reflexivity.
Defined.

End CallFacts.

(** ** Static extraction *)

Module CheerioFacts.

Import Scrape ScrapeSpec ScrapeFacts CheerioSpec.

Lemma str_eqb_eq (a : jsstring) :
  forall b : jsstring, Js.str_eqb a b = true <-> a = b.
Proof.
  induction a as [|x a IH]; intros [|y b]; simpl; split; intros H;
    try reflexivity; try discriminate.
  - apply andb_prop in H as [X R]. apply N.eqb_eq in X. apply IH in R.
    congruence.
  - inversion H; subst. rewrite N.eqb_refl. apply IH. reflexivity.
Qed.

Lemma set_add_in (text : jsstring) (set : list jsstring) (x : jsstring) :
  In x (set_add text set) <-> x = text \/ In x set.
Proof.
  unfold set_add. destruct (existsb (Js.str_eqb text) set) eqn:E.
  - split; [auto|]. intros [->|H]; [|exact H].
    apply existsb_exists in E as (y & I & Q). apply str_eqb_eq in Q.
    subst. exact I.
  - rewrite in_app_iff. simpl. intuition.
Qed.

Lemma set_add_nodup (text : jsstring) (set : list jsstring) :
  NoDup set -> NoDup (set_add text set).
Proof.
  intros N. unfold set_add. destruct (existsb (Js.str_eqb text) set) eqn:E;
    [exact N|].
  apply NoDup_app. split; [exact N|]. split.
  - intros x I J. apply list_elem_of_In in I, J. destruct J as [<-|[]].
    assert (X : existsb (Js.str_eqb text) set = true).
    { apply existsb_exists. exists text. split; [exact I|].
      apply str_eqb_eq. reflexivity. }
    congruence.
  - apply NoDup_singleton.
Qed.

Lemma unique_texts_spec (texts : list jsstring) :
  NoDup (unique_texts texts)
  /\ forall p : jsstring, In p (unique_texts texts) <-> kept texts p.
Proof.
  unfold unique_texts.
  assert (G : forall (rest seen : list jsstring) (acc : list jsstring),
             NoDup acc ->
             (forall p, In p acc <-> kept seen p) ->
             let out :=
               fold_left
                 (fun set element =>
                    let text := Js.trim element in
                    if (50 <? length text)%nat then set_add text set else set)
                 rest acc in
             NoDup out /\ forall p, In p out <-> kept (seen ++ rest) p).
  { induction rest as [|t rest IH]; intros seen acc N K; cbv zeta.
    - simpl. rewrite app_nil_r. split; assumption.
    - simpl fold_left.
      replace (seen ++ t :: rest) with ((seen ++ [t]) ++ rest)
        by (rewrite <- app_assoc; reflexivity).
      apply IH.
      + destruct (50 <? length (Js.trim t))%nat; [|exact N].
        apply set_add_nodup, N.
      + intros p. unfold kept in *.
        destruct (50 <? length (Js.trim t))%nat eqn:L.
        * rewrite set_add_in, K. apply Nat.ltb_lt in L. split.
          -- intros [->|(Lp & x & I & ->)].
             ++ split; [exact L|]. exists t. split; [|reflexivity].
                apply in_or_app. right. left. reflexivity.
             ++ split; [exact Lp|]. exists x. split; [|reflexivity].
                apply in_or_app. left. exact I.
          -- intros (Lp & x & I & ->).
             apply in_app_or in I as [I|[<-|[]]].
             ++ right. split; [exact Lp|]. exists x. split; [exact I|reflexivity].
             ++ left. reflexivity.
        * rewrite K. apply Nat.ltb_ge in L. split.
          -- intros (Lp & x & I & ->). split; [exact Lp|]. exists x.
             split; [|reflexivity]. apply in_or_app. left. exact I.
          -- intros (Lp & x & I & ->).
             apply in_app_or in I as [I|[<-|[]]]; [|lia].
             split; [exact Lp|]. exists x. split; [exact I|reflexivity]. }
  apply (G texts [] []); [apply NoDup_nil_2|].
  intros p. split; [intros []|]. intros (_ & x & [] & _).
Qed.

(** X9.  The text returned by [scrapeWithCheerio] is the join, with a
    blank line between them, of pieces that are pairwise different; the
    pieces are exactly the trimmed element texts longer than 50 code
    units. The process state is not changed. *)
Theorem cheerio_pieces_unique (html : jsstring) (texts : list jsstring)
    (w : World) (s : Sys) :
  cheerio_texts w html = Ret texts ->
  exists pieces : list jsstring,
    scrapeWithCheerio html w s = (Ret (Js.join [10; 10] pieces), s)
    /\ NoDup pieces
    /\ forall p : jsstring,
         In p pieces
         <-> (50 < length p)%nat
             /\ exists t : jsstring, In t texts /\ p = Js.trim t.
Proof.
  intros H. rewrite scrapeWithCheerio_eq, H.
  exists (unique_texts texts). split; [reflexivity|].
  apply unique_texts_spec.
Qed.

Lemma cheerio_pieces_unique_witness :
  exists pieces : list jsstring,
    scrapeWithCheerio (Js.lit "<article/>")
      (Sample.serving (Js.lit "<article/>")
         [Sample.prose; Sample.not_found; Sample.prose] [])
      Sample.boot
    = (Ret (Js.join [10; 10] pieces), Sample.boot)
    /\ NoDup pieces
    /\ forall p : jsstring,
         In p pieces
         <-> (50 < length p)%nat
             /\ exists t : jsstring,
                  In t [Sample.prose; Sample.not_found; Sample.prose]
                  /\ p = Js.trim t.
Proof.
  apply (cheerio_pieces_unique (Js.lit "<article/>")
           [Sample.prose; Sample.not_found; Sample.prose]).
  reflexivity.
Defined.

End CheerioFacts.

(** ** The information gatherer *)

Module GatherFacts.

Import Scrape ScrapeSpec ScrapeFacts CacheSpec CacheFacts.

Lemma scrapeWebContent_returns (u : jsstring) (w : World) (s : Sys) :
  exists r : ScrapingResult, fst (scrapeWebContent u w s) = Ret r.
Proof.
  destruct (valid_dec u) as [V|N].
  2:{ rewrite (scrapeWebContent_invalid u w s N). eexists. reflexivity. }
  destruct (looked_up w (db s) (scrape_key u)) as [cached|] eqn:F.
  - rewrite (scrapeWebContent_hit u w s cached V F). eexists. reflexivity.
  - rewrite (CallFacts.scrapeWebContent_miss_exact u w s V F).
    eexists. reflexivity.
Qed.

(** One turn of the loop adds exactly one result. *)
Lemma gather_one_adds_one (u : jsstring) (results : list ScrapingResult)
    (w : World) (s : Sys) :
  exists r : ScrapingResult,
    fst (Search.gather_one u results w s) = Ret (results ++ [r]).
Proof.
  unfold Search.gather_one. run_eff. rewrite getCachedContent_eq.
  destruct (looked_up w (db s) (Search.gather_key u)) as [cached|].
  - exists cached. reflexivity.
  - destruct (scrapeWebContent_returns u w
                (emit (RedisGet (Search.gather_key u)) s)) as [r R].
    destruct (scrapeWebContent u w (emit (RedisGet (Search.gather_key u)) s))
      as [o s'].
    simpl in R. subst o. exists r.
    destruct (success r); simpl; [|reflexivity].
    rewrite setCachedContent_eq. reflexivity.
Qed.

Lemma gather_loop_length (urls : list (jsstring * World)) :
  forall (acc : list ScrapingResult) (s : Sys),
    exists results : list ScrapingResult,
      fst (Search.gather_loop urls acc s) = Ret results
      /\ length results = (length acc + length urls)%nat.
Proof.
  induction urls as [|[u w] rest IH]; intros acc s; simpl.
  - exists acc. split; [reflexivity|lia].
  - destruct (gather_one_adds_one u acc w s) as [r R].
    destruct (Search.gather_one u acc w s) as [o s']. simpl in R. subst o.
    destruct (IH (acc ++ [r]) s') as (results & E & L).
    exists results. split; [exact E|].
    rewrite L, length_app. simpl. lia.
Qed.

(** X10.  [gatherInformation] never throws and returns one result for each
    URL it was given; in particular none for an empty list. The [catch]
    around the call of [scrapeWebContent] is never entered. *)
Theorem gather_one_result_per_url (query conversationId : jsstring)
    (urls : list (jsstring * World)) (s : Sys) :
  exists results : list ScrapingResult,
    fst (Search.gatherInformation query conversationId urls s) = Ret results
    /\ length results = length urls.
Proof.
  unfold Search.gatherInformation.
  destruct (gather_loop_length urls [] s) as (results & E & L).
  exists results. split; [exact E|exact L].
Qed.

(** X11.  On a miss of its own key the gatherer reports what
    [scrapeWebContent] returns and writes it under its key exactly when
    the result is a success: a failure is reported but leaves the
    gatherer's entry as it was. *)
Theorem gather_caches_successes_only (u : jsstring)
    (results : list ScrapingResult) (w : World) (s : Sys)
    (r : ScrapingResult) (s1 : Sys) :
  fst (Cache.getCachedContent (Search.gather_key u) w s) = Ret None ->
  scrapeWebContent u w (emit (RedisGet (Search.gather_key u)) s)
  = (Ret r, s1) ->
  exists s' : Sys,
    Search.gather_one u results w s = (Ret (results ++ [r]), s')
    /\ (success r = false -> s' = s1)
    /\ (success r = true ->
        redis_set_fault w (Search.gather_key u) = None ->
        db s' !! Search.gather_key u
        = Some (RStr (SResult r) (redis_clock w + Cache.CACHE_DURATION))).
Proof.
  intros H E. rewrite getCachedContent_eq in H. inversion H as [F].
  unfold Search.gather_one. run_eff. rewrite getCachedContent_eq, F, E.
  simpl. destruct (success r) eqn:S; simpl.
  - rewrite setCachedContent_eq. simpl. eexists. split; [reflexivity|].
    split; [discriminate|]. intros _ SF. simpl.
    unfold written. rewrite SF. apply lookup_insert_eq.
  - exists s1. split; [reflexivity|]. split; [reflexivity|discriminate].
Qed.

Lemma gather_caches_successes_only_witness :
  let s0 := emit (RedisGet (Search.gather_key Sample.a_url)) Sample.boot in
  let r := miss_result Sample.a_url Sample.article s0 in
  exists s' : Sys,
    Search.gather_one Sample.a_url [] Sample.article Sample.boot
    = (Ret ([] ++ [r]), s')
    /\ (success r = false ->
        s' = CallSpec.miss_state Sample.a_url Sample.article s0)
    /\ (success r = true ->
        redis_set_fault Sample.article (Search.gather_key Sample.a_url)
        = None ->
        db s' !! Search.gather_key Sample.a_url
        = Some (RStr (SResult r)
                  (redis_clock Sample.article + Cache.CACHE_DURATION))).
Proof.
  intros s0 r.
  apply (gather_caches_successes_only Sample.a_url [] Sample.article
           Sample.boot r (CallSpec.miss_state Sample.a_url Sample.article s0)).
  - reflexivity.
  - apply CallFacts.scrapeWebContent_miss_exact.
    + split; reflexivity.
    + reflexivity.
Defined.

End GatherFacts.

Module HistoryFacts.

Import ChatHistory HistorySpec.

Lemma storeChat_exact (conversationId userMessage aiResponse : jsstring)
    (w : World) (s : Sys) :
  store_up w conversationId ->
  chat_free w s conversationId ->
  Cache.storeChat conversationId userMessage aiResponse w s
  = (Ret tt,
     {| db := <[chat_key conversationId :=
                  RList (firstn 50 (entry_of w userMessage aiResponse
                                    :: stored_chat w s conversationId))]>
                (db s);
        browsers := browsers s; launched := launched s;
        log := RedisLtrim (chat_key conversationId)
               :: RedisLpush (chat_key conversationId) :: log s |}).
Proof.
  intros [P T] F.
  unfold chat_free, stored_chat, entry_of in *.
  unfold Cache.storeChat, Redis.lpush, Redis.ltrim0.
  fold (chat_key conversationId).
  remember (chat_key conversationId) as key eqn:K. clear K.
  run_eff. rewrite P. simpl.
  destruct (Redis.live (redis_clock w) (db s) key) as [[v ex|items]|] eqn:L;
    simpl.
  - exfalso. exact (F v ex eq_refl).
  - rewrite T. simpl. unfold Redis.live. rewrite lookup_insert_eq. simpl.
    unfold set_db, emit. simpl. rewrite insert_insert_eq. reflexivity.
  - rewrite T. simpl. unfold Redis.live. rewrite lookup_insert_eq. simpl.
    unfold set_db, emit. simpl. rewrite insert_insert_eq. reflexivity.
Qed.

Lemma getChatHistory_exact (x : Replies) (conversationId : jsstring)
    (limit : Z) (w : World) (s : Sys) :
  getChatHistory x conversationId limit w s
  = (Ret (match redis_lrange_fault x (chat_key conversationId) with
          | Some _ => []
          | None =>
              omap (parse_entry x)
                (range (stored_chat w s conversationId) (limit - 1))
          end), s).
Proof.
  unfold getChatHistory, lrange0, stored_chat, range.
  fold (chat_key conversationId).
  remember (chat_key conversationId) as key eqn:K. clear K.
  run_eff.
  destruct (redis_lrange_fault x key); simpl; [reflexivity|].
  destruct (Redis.live (redis_clock w) (db s) key) as [[v ex|items]|];
    simpl;
    repeat (match goal with |- context [if ?c then _ else _] =>
              destruct c end);
    simpl; rewrite ?take_nil; reflexivity.
Qed.

Lemma omap_objects (x : Replies) :
  as_objects x -> forall l : list ChatEntry, omap (parse_entry x) l = [].
Proof.
  intros P. induction l as [|e l IH]; [reflexivity|].
  change (omap (parse_entry x) (e :: l))
    with (match parse_entry x e with
          | Some y => y :: omap (parse_entry x) l
          | None => omap (parse_entry x) l
          end).
  rewrite P, IH. reflexivity.
Qed.

Lemma omap_shorter (x : Replies) (l : list ChatEntry) :
  (length (omap (parse_entry x) l) <= length l)%nat.
Proof.
  induction l as [|e l IH]; [reflexivity|].
  change (omap (parse_entry x) (e :: l))
    with (match parse_entry x e with
          | Some y => y :: omap (parse_entry x) l
          | None => omap (parse_entry x) l
          end).
  destruct (parse_entry x e); simpl; lia.
Qed.

Lemma chat_key_inj (a b : jsstring) : chat_key a = chat_key b -> a = b.
Proof. unfold chat_key. intros H. exact (app_inv_head _ _ _ H). Qed.

Lemma range_from_limit (items : list ChatEntry) (limit : Z) :
  (1 <= limit)%Z -> range items (limit - 1) = firstn (Z.to_nat limit) items.
Proof.
  intros L. unfold range.
  destruct (limit - 1 <? 0)%Z eqn:A; [lia|]. rewrite A.
  replace (limit - 1 + 1)%Z with limit by lia. reflexivity.
Qed.

Lemma stored_chat_with_chat (w : World) (s : Sys) (c : jsstring)
    (items : list ChatEntry) :
  stored_chat w (with_chat c items s) c = items.
Proof.
  unfold stored_chat, with_chat, Redis.live. simpl.
  rewrite lookup_insert_eq. reflexivity.
Qed.

Lemma stored_after_storeChat
    (conversationId userMessage aiResponse : jsstring) (w w' : World)
    (s : Sys) :
  store_up w conversationId ->
  chat_free w s conversationId ->
  stored_chat w'
    (snd (Cache.storeChat conversationId userMessage aiResponse w s))
    conversationId
  = firstn 50 (entry_of w userMessage aiResponse
               :: stored_chat w s conversationId).
Proof.
  intros U F. rewrite (storeChat_exact _ _ _ _ _ U F). cbn [snd].
  unfold stored_chat at 1. unfold Redis.live. cbn [db].
  rewrite lookup_insert_eq. reflexivity.
Qed.

(** X12.  When the store takes the push and the trim, [storeChat] puts
    the new exchange in front of the conversation, keeps the newest 50
    entries of it and drops the rest, and leaves every other conversation
    as it was. *)
Theorem storeChat_keeps_newest_50
    (conversationId userMessage aiResponse : jsstring) (w w' : World)
    (s : Sys) :
  store_up w conversationId ->
  chat_free w s conversationId ->
  let s' := snd (Cache.storeChat conversationId userMessage aiResponse w s) in
  stored_chat w' s' conversationId
  = firstn 50 (entry_of w userMessage aiResponse
               :: stored_chat w s conversationId)
  /\ (length (stored_chat w' s' conversationId) <= 50)%nat
  /\ forall other : jsstring,
       other <> conversationId ->
       stored_chat w' s' other = stored_chat w' s other.
Proof.
  intros U F s'. subst s'. rewrite (storeChat_exact _ _ _ _ _ U F).
  cbn [snd]. split; [|split].
  - unfold stored_chat at 1. unfold Redis.live. cbn [db].
    rewrite lookup_insert_eq. reflexivity.
  - unfold stored_chat at 1. unfold Redis.live. cbn [db].
    rewrite lookup_insert_eq. rewrite length_take. lia.
  - intros other N. unfold stored_chat, Redis.live. cbn [db].
    rewrite lookup_insert_ne; [reflexivity|].
    intros E. apply N. symmetry. exact (chat_key_inj _ _ E).
Qed.

Lemma storeChat_keeps_newest_50_witness :
  let s := with_chat (Js.lit "c1") (talk 60) Sample.boot in
  let s' := snd (Cache.storeChat (Js.lit "c1") (Js.lit "hi") (Js.lit "hello")
                   Sample.offline s) in
  stored_chat Sample.offline s' (Js.lit "c1")
  = firstn 50 (entry_of Sample.offline (Js.lit "hi") (Js.lit "hello")
               :: stored_chat Sample.offline s (Js.lit "c1"))
  /\ (length (stored_chat Sample.offline s' (Js.lit "c1")) <= 50)%nat
  /\ forall other : jsstring,
       other <> Js.lit "c1" ->
       stored_chat Sample.offline s' other = stored_chat Sample.offline s other.
Proof.
  apply storeChat_keeps_newest_50.
  - split; reflexivity.
  - intros v ex. vm_compute. discriminate.
Defined.

(** X13.  Store, then read, gives nothing back. With the client of the
    source, which hands the entries of a list back as objects, after a
    [storeChat] that the store took the new exchange is at the head of
    the stored conversation, and yet [getChatHistory] of that conversation
    returns the empty list, whatever the limit: [JSON.parse] throws on
    every entry and the entry is dropped. *)
Theorem stored_history_not_read_back (x : Replies)
    (conversationId userMessage aiResponse : jsstring) (limit : Z)
    (w w' : World) (s : Sys) :
  as_objects x ->
  store_up w conversationId ->
  chat_free w s conversationId ->
  let s' := snd (Cache.storeChat conversationId userMessage aiResponse w s) in
  hd_error (stored_chat w' s' conversationId)
  = Some (entry_of w userMessage aiResponse)
  /\ getChatHistory x conversationId limit w' s' = (Ret [], s').
Proof.
  intros P U F s'. subst s'. split.
  - rewrite (stored_after_storeChat conversationId userMessage aiResponse
               w w' s U F).
    reflexivity.
  - rewrite getChatHistory_exact. rewrite (omap_objects x P).
    destruct (redis_lrange_fault x (chat_key conversationId)); reflexivity.
Qed.

Lemma stored_history_not_read_back_witness :
  let s' := snd (Cache.storeChat (Js.lit "c1") (Js.lit "hi") (Js.lit "hello")
                   Sample.offline
                   (with_chat (Js.lit "c1") (talk 60) Sample.boot)) in
  hd_error (stored_chat Sample.offline s' (Js.lit "c1"))
  = Some (entry_of Sample.offline (Js.lit "hi") (Js.lit "hello"))
  /\ getChatHistory upstash (Js.lit "c1") 5 Sample.offline s' = (Ret [], s').
Proof.
  apply (stored_history_not_read_back upstash (Js.lit "c1") (Js.lit "hi")
           (Js.lit "hello") 5 Sample.offline Sample.offline
           (with_chat (Js.lit "c1") (talk 60) Sample.boot)).
  - intros e. reflexivity.
  - split; reflexivity.
  - intros v ex. vm_compute. discriminate.
Defined.

(** X14.  [getChatHistory] with a limit of at least 1 never throws and
    leaves the process state as it is; it returns at most [limit] entries,
    each of them the parse of an entry stored for the conversation. A
    store that rejects the read gives the empty list, as if nothing had
    been said. *)
Theorem history_bounded (x : Replies) (conversationId : jsstring)
    (limit : Z) (w : World) (s : Sys) :
  (1 <= limit)%Z ->
  exists entries : list ChatEntry,
    getChatHistory x conversationId limit w s = (Ret entries, s)
    /\ (Z.of_nat (length entries) <= limit)%Z
    /\ (forall e : ChatEntry, In e entries ->
          exists e0 : ChatEntry,
            In e0 (stored_chat w s conversationId)
            /\ parse_entry x e0 = Some e)
    /\ (redis_lrange_fault x (chat_key conversationId) <> None ->
        entries = []).
Proof.
  intros L. rewrite getChatHistory_exact. eexists. split; [reflexivity|].
  destruct (redis_lrange_fault x (chat_key conversationId)) as [e|].
  { split; [simpl; lia|]. split; [intros e0 []|]. reflexivity. }
  rewrite (range_from_limit _ _ L). split; [|split].
  - pose proof (omap_shorter x
                  (take (Z.to_nat limit) (stored_chat w s conversationId)))
      as A.
    rewrite length_take in A. lia.
  - intros e I. apply list_elem_of_In in I.
    apply list_elem_of_omap in I. destruct I as (e0 & I0 & P).
    exists e0. split; [|exact P].
    apply list_elem_of_In. eapply subseteq_take. exact I0.
  - intros N. contradiction.
Qed.

Lemma history_bounded_witness :
  exists entries : list ChatEntry,
    getChatHistory plain (Js.lit "c1") 5 Sample.offline
      (with_chat (Js.lit "c1") (talk 60) Sample.boot)
    = (Ret entries, with_chat (Js.lit "c1") (talk 60) Sample.boot)
    /\ (Z.of_nat (length entries) <= 5)%Z
    /\ (forall e : ChatEntry, In e entries ->
          exists e0 : ChatEntry,
            In e0 (stored_chat Sample.offline
                     (with_chat (Js.lit "c1") (talk 60) Sample.boot)
                     (Js.lit "c1"))
            /\ parse_entry plain e0 = Some e)
    /\ (redis_lrange_fault plain (chat_key (Js.lit "c1")) <> None ->
        entries = []).
Proof. apply history_bounded. lia. Defined.

End HistoryFacts.

Module CleanupFacts.

Import BrowserPool PoolSpec PoolCleanup CleanupSpec.

Lemma close_all_logged (bs : list Pooled) (s : Sys) :
  fold_left (fun s e => emit (ChromeClose (browser e)) s) bs s
  = logged (close_log bs) s.
Proof.
  revert s. induction bs as [|e bs IH]; intros s.
  - destruct s. reflexivity.
  - simpl. rewrite IH. unfold logged, close_log, emit. simpl.
    rewrite <- app_assoc. reflexivity.
Qed.

Lemma cleanup_exact (w : World) (s : Sys) :
  cleanup w s
  = match first_rejection w (browsers s) with
    | Some error => (Throw error, logged (close_log (browsers s)) s)
    | None =>
        (Ret tt, set_browsers [] (logged (close_log (browsers s)) s))
    end.
Proof.
  unfold cleanup. run_eff. rewrite close_all_logged.
  destruct (first_rejection w (browsers s)); reflexivity.
Qed.

Lemma first_rejection_none (w : World) (bs : list Pooled) :
  first_rejection w bs = None
  <-> forall e : Pooled, In e bs -> chrome_close_fault w (browser e) = None.
Proof.
  induction bs as [|e bs IH]; simpl.
  - split; [intros _ e []|reflexivity].
  - destruct (chrome_close_fault w (browser e)) as [error|] eqn:F.
    + split; [discriminate|]. intros H.
      specialize (H e (or_introl eq_refl)). congruence.
    + rewrite IH. split.
      * intros H e' [<-|I]; [exact F|exact (H e' I)].
      * intros H e' I. apply H. right. exact I.
Qed.

Lemma first_rejection_some (w : World) (bs : list Pooled) (error : Js.exn) :
  first_rejection w bs = Some error ->
  exists e : Pooled, In e bs /\ chrome_close_fault w (browser e) = Some error.
Proof.
  induction bs as [|e bs IH]; simpl; [discriminate|].
  destruct (chrome_close_fault w (browser e)) as [error'|] eqn:F.
  - intros [= <-]. exists e. split; [left; reflexivity|exact F].
  - intros H. destruct (IH H) as (e' & I & F'). exists e'.
    split; [right; exact I|exact F'].
Qed.

(** X16.  [cleanup] calls [close] on every pooled session, once each and
    in the order of the pool, and leaves the database alone. When every
    [close] resolves it empties the pool, and the next [getBrowser] starts
    a new session, the only one in the pool. When a [close] rejects it
    throws that rejection and the pool still lists every session: they
    are closed but not forgotten. *)
Theorem cleanup_empties_or_keeps_all (w : World) (s : Sys) :
  log (snd (cleanup w s)) = close_log (browsers s) ++ log s
  /\ db (snd (cleanup w s)) = db s
  /\ launched (snd (cleanup w s)) = launched s
  /\ (closes_cleanly w s ->
      fst (cleanup w s) = Ret tt
      /\ browsers (snd (cleanup w s)) = []
      /\ forall w' : World,
           chrome_launch w' = None ->
           fst (getBrowser w' (snd (cleanup w s))) = Ret (launched s)
           /\ browsers (snd (getBrowser w' (snd (cleanup w s))))
              = [{| browser := launched s; lastUsed := date_now w' |}])
  /\ (~ closes_cleanly w s ->
      browsers (snd (cleanup w s)) = browsers s
      /\ exists (error : Js.exn) (e : Pooled),
           In e (browsers s)
           /\ chrome_close_fault w (browser e) = Some error
           /\ fst (cleanup w s) = Throw error).
Proof.
  rewrite cleanup_exact.
  destruct (first_rejection w (browsers s)) as [error|] eqn:F;
    cbn [fst snd]; (split; [reflexivity|]); (split; [reflexivity|]);
    (split; [reflexivity|]); split.
  - intros C. apply (proj2 (first_rejection_none w (browsers s))) in C.
    congruence.
  - intros _. split; [reflexivity|].
    destruct (first_rejection_some _ _ _ F) as (e & I & R).
    exists error, e. repeat split; assumption.
  - intros _. split; [reflexivity|]. split; [reflexivity|].
    intros w' L. rewrite PoolFacts.getBrowser_exact.
    cbn [fst snd browsers].
    unfold acquired, pool_after, fresh. cbn. rewrite L.
    split; reflexivity.
  - intros C. exfalso. apply C. unfold closes_cleanly.
    apply (proj1 (first_rejection_none w (browsers s))). exact F.
Qed.

End CleanupFacts.

Module ShapeFacts.

Import Scrape ScrapeSpec ScrapeFacts SystemSpec Shape.

Lemma isValid_content (result : any) :
  isValid result = true ->
  exists content : jsstring,
    prop (Js.lit "content") result = Str content
    /\ Js.trim content <> [].
Proof.
  unfold isValid. intros H.
  apply andb_prop in H as [_ H].
  destruct (prop (Js.lit "content") result) as [| | | |c| |];
    try discriminate.
  exists c. split; [reflexivity|].
  intros E. rewrite E in H. discriminate.
Qed.

(** X17.  [validateScrapingResults] accepts any value. What it returns are
    elements of the array it was given, in their order, each an object
    whose [content] is a string with something other than white space in
    it; a value that is not an array gives the empty list; and validating
    a validated list changes nothing. *)
Theorem validated_have_content (results : any) :
  (forall result : any,
      In result (validateScrapingResults results) ->
      (exists items : list any, results = Arr items /\ In result items)
      /\ exists (fields : list (jsstring * any)) (content : jsstring),
           result = Obj fields
           /\ prop (Js.lit "content") result = Str content
           /\ Js.trim content <> [])
  /\ (forall items : list any,
        results = Arr items ->
        sublist (validateScrapingResults results) items)
  /\ ((forall items : list any, results <> Arr items) ->
      validateScrapingResults results = [])
  /\ validateScrapingResults (Arr (validateScrapingResults results))
     = validateScrapingResults results.
Proof.
  split; [|split; [|split]].
  - intros result I. destruct results as [| | | | |items|]; try destruct I.
    simpl in I. apply filter_In in I as [I V]. split.
    + exists items. split; [reflexivity|exact I].
    + destruct (isValid_content result V) as (c & P & T).
      destruct result as [| | | | | |fields]; try discriminate P.
      exists fields, c. repeat split; assumption.
  - intros items ->. simpl.
    induction items as [|a items IH]; simpl; [constructor|].
    destruct (isValid a); [apply sublist_skip|apply sublist_cons]; exact IH.
  - intros N. destruct results as [| | | | |items|]; try reflexivity.
    exfalso. exact (N items eq_refl).
  - destruct results as [| | | | |items|]; try reflexivity.
    simpl. induction items as [|a items IH]; [reflexivity|].
    simpl. destruct (isValid a) eqn:V; simpl; [rewrite V, IH|]; 
      [reflexivity|exact IH].
Qed.

Lemma content_of_result (r : ScrapingResult) :
  prop (Js.lit "content") (of_result r) = Str (content r).
Proof.
  unfold prop, of_result. cbn [app List.find fst snd].
  replace (Js.str_eqb (Js.lit "content") (Js.lit "content")) with true
    by (vm_compute; reflexivity).
  reflexivity.
Qed.

Lemma isValid_of_result (r : ScrapingResult) :
  isValid (of_result r) = (0 <? length (Js.trim (content r)))%nat.
Proof.
  unfold isValid. rewrite content_of_result. reflexivity.
Qed.

Lemma gated_valid (r : ScrapingResult) :
  gated r -> isValid (of_result r) = success r.
Proof.
  intros [S F]. rewrite isValid_of_result.
  destruct (success r) eqn:E.
  - destruct (proj1 S eq_refl) as [_ G].
    unfold isContentMeaningful in G.
    destruct (length (Js.trim (content r))) eqn:L.
    + rewrite orb_true_r in G. discriminate.
    + reflexivity.
  - rewrite (F eq_refl). reflexivity.
Qed.

Lemma gather_one_gated (u : jsstring) (results : list ScrapingResult)
    (w : World) (s : Sys) :
  db_sound (db s) ->
  Forall gated results ->
  exists results' : list ScrapingResult,
    fst (Search.gather_one u results w s) = Ret results'
    /\ Forall gated results'.
Proof.
  intros Sound G. unfold Search.gather_one. run_eff.
  rewrite CacheFacts.getCachedContent_eq.
  destruct (CacheSpec.looked_up w (db s) (Search.gather_key u))
    as [cached|] eqn:F.
  - eexists. split; [reflexivity|]. apply Forall_app. split; [exact G|].
    constructor; [|constructor].
    destruct (System.found_sound w (db s) _ cached Sound F) as [S M].
    apply System.gated_success; assumption.
  - destruct (System.scrapeWebContent_gated u w
                (emit (RedisGet (Search.gather_key u)) s) Sound)
      as (r & R & Gr).
    destruct (scrapeWebContent u w (emit (RedisGet (Search.gather_key u)) s))
      as [o s'].
    simpl in R. subst o. exists (results ++ [r]). split.
    + destruct (success r); simpl; [|reflexivity].
      rewrite CacheFacts.setCachedContent_eq. reflexivity.
    + apply Forall_app. split; [exact G|].
      constructor; [exact Gr|constructor].
Qed.

Lemma gather_loop_gated (urls : list (jsstring * World)) :
  forall (acc : list ScrapingResult) (s : Sys),
    db_sound (db s) ->
    Forall gated acc ->
    exists results : list ScrapingResult,
      fst (Search.gather_loop urls acc s) = Ret results
      /\ Forall gated results.
Proof.
  induction urls as [|[u w] rest IH]; intros acc s Sound G; simpl.
  - exists acc. split; [reflexivity|exact G].
  - destruct (gather_one_gated u acc w s Sound G) as (acc' & E & G').
    pose proof (System.gather_one_sound u acc w s Sound) as Sound'.
    destruct (Search.gather_one u acc w s) as [o s']. simpl in E. subst o.
    simpl in Sound'. exact (IH acc' s' Sound' G').
Qed.

(** X18.  Gather, then validate: from a state the process can reach, the
    results of [gatherInformation] that pass [validateScrapingResults] are
    exactly its successes, in order. A failure never reaches the prompt,
    and no success is dropped. *)
Theorem validated_are_the_successes (query conversationId : jsstring)
    (urls : list (jsstring * World)) (s : Sys) :
  reachable s ->
  exists results : list ScrapingResult,
    fst (Search.gatherInformation query conversationId urls s) = Ret results
    /\ validateScrapingResults (Arr (List.map of_result results))
       = List.map of_result (List.filter success results).
Proof.
  intros R. apply System.reachable_sound in R.
  destruct (gather_loop_gated urls [] s R (List.Forall_nil _))
    as (results & E & G).
  exists results. split; [exact E|]. clear E R.
  simpl. induction results as [|r results IH]; [reflexivity|].
  inversion G as [|r' l Gr Grest]; subst.
  simpl. rewrite (gated_valid r Gr).
  destruct (success r); simpl; rewrite (IH Grest); reflexivity.
Qed.

Lemma validated_are_the_successes_witness :
  exists results : list ScrapingResult,
    fst (Search.gatherInformation (Js.lit "what is it") (Js.lit "c1")
           [(Sample.a_url, Sample.offline);
            (Sample.a_url, Sample.serving (Js.lit "<p/>") [Sample.prose] [])]
           Sample.boot)
    = Ret results
    /\ validateScrapingResults (Arr (List.map of_result results))
       = List.map of_result (List.filter success results).
Proof. apply validated_are_the_successes. apply reach_boot. Defined.

End ShapeFacts.

Module RetryFacts.

Import Retry RetrySpec.

Lemma total_closed (turns : nat) :
  forall attempt : nat,
    (2 * total attempt turns
     = Z.of_nat turns * (2 * Z.of_nat attempt + Z.of_nat turns - 1))%Z.
Proof.
  induction turns as [|turns IH]; intros attempt; [reflexivity|].
  cbn [total]. specialize (IH (S attempt)). nia.
Qed.

Lemma loop_step {A : Type} (operation : nat -> outcome A) (delay : Z)
    (left attempt : nat) (lastError : option Js.exn) (waited0 : Z) :
  final (operation attempt) = None ->
  exists error : Js.exn,
    operation attempt = Throw error
    /\ loop operation delay (S left) attempt lastError waited0
       = loop operation delay left (S attempt) (Some error)
           (waited0 + delay * Z.of_nat attempt).
Proof.
  intros F. cbn [loop]. unfold final in F.
  destruct (operation attempt) as [a|error]; [discriminate|].
  destruct (is_rate_limit error) as [[|]|]; try discriminate.
  exists error. split; reflexivity.
Qed.

Lemma loop_decided {A : Type} (operation : nat -> outcome A) (delay : Z)
    (left attempt : nat) (lastError : option Js.exn) (waited0 : Z)
    (r : outcome A) :
  final (operation attempt) = Some r ->
  loop operation delay (S left) attempt lastError waited0
  = {| result := r; calls := attempt; waited := waited0 |}.
Proof.
  intros F. cbn [loop]. unfold final in F.
  destruct (operation attempt) as [a|error]; [inversion F; reflexivity|].
  destruct (is_rate_limit error) as [[|]|]; inversion F; reflexivity.
Qed.

(** The loop up to the call that decides, [turns] turns ahead. *)
Lemma loop_until {A : Type} (operation : nat -> outcome A) (delay : Z)
    (r : outcome A) (turns : nat) :
  forall (left attempt : nat) (lastError : option Js.exn) (waited0 : Z),
    (turns < left)%nat ->
    (forall j : nat, (attempt <= j < attempt + turns)%nat ->
       final (operation j) = None) ->
    final (operation (attempt + turns)%nat) = Some r ->
    loop operation delay left attempt lastError waited0
    = {| result := r; calls := (attempt + turns)%nat;
         waited := (waited0 + delay * total attempt turns)%Z |}.
Proof.
  induction turns as [|turns IH];
    intros left attempt lastError waited0 L B At;
    (destruct left as [|left]; [lia|]).
  - rewrite Nat.add_0_r in *. rewrite (loop_decided _ _ _ _ _ _ r At).
    f_equal. cbn [total]. lia.
  - destruct (loop_step operation delay left attempt lastError waited0)
      as (error & _ & ->); [apply B; lia|].
    rewrite (IH left (S attempt)); [|lia|intros j J; apply B; lia|].
    + replace (S attempt + turns)%nat with (attempt + S turns)%nat by lia.
      f_equal. cbn [total]. lia.
    + replace (S attempt + turns)%nat with (attempt + S turns)%nat by lia.
      exact At.
Qed.

(** The loop while every call is turned away. *)
Lemma loop_turned_away {A : Type} (operation : nat -> outcome A)
    (delay : Z) (left : nat) :
  forall (attempt : nat) (lastError : option Js.exn) (waited0 : Z),
    (forall j : nat, (attempt <= j <= attempt + left)%nat ->
       final (operation j) = None) ->
    loop operation delay (S left) attempt lastError waited0
    = {| result := operation (attempt + left)%nat;
         calls := (attempt + left)%nat;
         waited := (waited0 + delay * total attempt (S left))%Z |}.
Proof.
  induction left as [|left IH]; intros attempt lastError waited0 H.
  - destruct (loop_step operation delay 0 attempt lastError waited0)
      as (error & O & ->); [apply H; lia|].
    rewrite Nat.add_0_r, O. cbn [loop Nat.pred total]. f_equal. lia.
  - destruct (loop_step operation delay (S left) attempt lastError waited0)
      as (error & _ & ->); [apply H; lia|].
    rewrite IH by (intros j J; apply H; lia).
    replace (S attempt + left)%nat with (attempt + S left)%nat by lia.
    f_equal. cbn [total]. lia.
Qed.

(** X19.  The first call whose outcome is not a rate-limit error decides:
    when the calls before the [k]-th all failed with a message that
    contains [429 Too Many Requests] and the [k]-th, within the allowed
    number, returns or fails in another way, [withRetry] makes exactly [k]
    calls, has waited [delay * (1 + ... + (k - 1))] in all, and ends as
    the [k]-th call did. A thrown [null] or [undefined] is thrown on as
    it is; any other thrown value without a message is replaced by the
    [TypeError] of the test. *)
Theorem retry_until_decided {A : Type} (operation : nat -> outcome A)
    (maxRetries : nat) (delay : Z) (k : nat) (r : outcome A) :
  (1 <= k <= maxRetries)%nat ->
  (forall j : nat, (1 <= j < k)%nat -> final (operation j) = None) ->
  final (operation k) = Some r ->
  let run := withRetry operation maxRetries delay in
  result run = r
  /\ calls run = k
  /\ (2 * waited run = delay * Z.of_nat k * (Z.of_nat k - 1))%Z.
Proof.
  intros K Before At run. subst run. unfold withRetry.
  rewrite (loop_until operation delay r (k - 1)); cbn [result calls waited].
  - split; [reflexivity|]. split; [lia|].
    pose proof (total_closed (k - 1) 1) as T.
    replace (Z.of_nat (k - 1)) with (Z.of_nat k - 1)%Z in T by lia.
    change (Z.of_nat 1) with 1%Z in T. nia.
  - lia.
  - intros j J. apply Before. lia.
  - replace (1 + (k - 1))%nat with k by lia. exact At.
Qed.

Lemma retry_until_decided_witness :
  let run := withRetry (busy 2) 3 1000 in
  result run = Ret (Js.lit "done")
  /\ calls run = 3%nat
  /\ (2 * waited run = 1000 * Z.of_nat 3 * (Z.of_nat 3 - 1))%Z.
Proof.
  apply (retry_until_decided (busy 2) 3 1000 3).
  - lia.
  - intros j J. assert (C : j = 1%nat \/ j = 2%nat) by lia.
    destruct C as [->| ->]; vm_compute; reflexivity.
  - vm_compute. reflexivity.
Defined.

(** A thrown [null] ends the retries at once and is thrown on. *)
Example retry_rethrows_null :
  withRetry (fun _ => Throw (Js.Thrown (Js.lit "null")) : outcome jsstring)
    3 1000
  = {| result := Throw (Js.Thrown (Js.lit "null")); calls := 1;
       waited := 0 |}.
Proof. reflexivity. Qed.

(** X20.  When every allowed call is turned away with a rate-limit error,
    [withRetry] calls the operation [maxRetries] times, waits after each
    of them, the last one included, [delay * (1 + ... + maxRetries)] in
    all, and throws the error of the last call. With [maxRetries] zero it
    calls nothing and throws [null]. *)
Theorem retry_gives_up {A : Type} (operation : nat -> outcome A)
    (maxRetries : nat) (delay : Z) :
  (forall j : nat, (1 <= j <= maxRetries)%nat ->
     final (operation j) = None) ->
  let run := withRetry operation maxRetries delay in
  result run
  = match maxRetries with
    | O => Throw (Js.Thrown (Js.lit "null"))
    | S _ => operation maxRetries
    end
  /\ calls run = maxRetries
  /\ (2 * waited run
      = delay * Z.of_nat maxRetries * (Z.of_nat maxRetries + 1))%Z.
Proof.
  intros H run. subst run. unfold withRetry.
  destruct maxRetries as [|n]; [simpl; repeat split; lia|].
  rewrite loop_turned_away by (intros j J; apply H; lia).
  cbn [result calls waited]. repeat split.
  pose proof (total_closed (S n) 1) as T.
  change (Z.of_nat 1) with 1%Z in T. nia.
Qed.

Lemma retry_gives_up_witness :
  let run := withRetry (busy 5) 3 1000 in
  result run
  = busy 5 3
  /\ calls run = 3%nat
  /\ (2 * waited run = 1000 * Z.of_nat 3 * (Z.of_nat 3 + 1))%Z.
Proof.
  apply (retry_gives_up (busy 5) 3 1000).
  intros j J. assert (C : j = 1%nat \/ j = 2%nat \/ j = 3%nat) by lia.
  destruct C as [->|[->| ->]]; vm_compute; reflexivity.
Defined.

End RetryFacts.

Module ProcessorFacts.

Import ContentProcessor ProcessorSpec.

(** *** Thinning *)

Lemma thinned_refl (s : jsstring) : thinned s s.
Proof.
  induction s as [|c s IH]; [constructor|].
  apply thinned_keep; auto.
Qed.

Lemma thinned_trans (a b c : jsstring) :
  thinned a b -> thinned b c -> thinned a c.
Proof.
  intros AB BC. revert a AB.
  induction BC as [|x b c BC IH|x' x b c X Y BC IH]; intros a AB.
  - exact AB.
  - apply thinned_drop. apply IH. exact AB.
  - inversion AB as [|y a' b' AB'|y' y a' b' X' Y' AB']; subst.
    + apply thinned_drop. apply IH. exact AB'.
    + apply thinned_keep; [auto|auto|apply IH; exact AB'].
Qed.

Lemma thinned_app (a' a b' b : jsstring) :
  thinned a' a -> thinned b' b -> thinned (a' ++ b') (a ++ b).
Proof.
  intros A B. induction A as [|x a' a A IH|x' x a' a X Y A IH]; simpl.
  - exact B.
  - apply thinned_drop. exact IH.
  - apply thinned_keep; assumption.
Qed.

Lemma thinned_rev (s' s : jsstring) :
  thinned s' s -> thinned (rev s') (rev s).
Proof.
  intros T. induction T as [|x s' s T IH|x' x s' s X Y T IH]; simpl.
  - constructor.
  - rewrite <- (app_nil_r (rev s')). apply thinned_app; [exact IH|].
    apply thinned_drop. constructor.
  - apply thinned_app; [exact IH|].
    apply thinned_keep; [assumption|assumption|constructor].
Qed.

Lemma thinned_in (s' s : jsstring) :
  thinned s' s -> In 62 s' -> In 62 s.
Proof.
  intros T. induction T as [|x s' s T IH|x' x s' s X Y T IH]; simpl.
  - intros [].
  - intros I. right. apply IH. exact I.
  - intros [E|I]; [left; apply Y; exact E|].
    right. apply IH. exact I.
Qed.

Lemma no_close (s : jsstring) :
  existsb (N.eqb 62) s = false <-> ~ In 62 s.
Proof.
  split.
  - intros E I. assert (X : existsb (N.eqb 62) s = true).
    { apply existsb_exists. exists 62. split; [exact I|reflexivity]. }
    congruence.
  - intros N. destruct (existsb (N.eqb 62) s) eqn:E; [|reflexivity].
    apply existsb_exists in E as (x & I & X). apply N.eqb_eq in X.
    subst x. contradiction.
Qed.

Lemma no_tag_thinned (s' s : jsstring) :
  thinned s' s -> no_tag s = true -> no_tag s' = true.
Proof.
  intros T. induction T as [|x s' s T IH|x' x s' s X Y T IH]; simpl.
  - reflexivity.
  - intros H. apply andb_prop in H as [_ H]. apply IH. exact H.
  - intros H. apply andb_prop in H as [H1 H2].
    rewrite (IH H2), andb_true_r.
    destruct (x' =? 60) eqn:E; [|reflexivity].
    apply N.eqb_eq in E. rewrite (X E) in H1. simpl in H1. simpl.
    apply negb_true_iff in H1. apply negb_true_iff.
    apply no_close. intros I. apply no_close in H1. apply H1.
    exact (thinned_in _ _ T I).
Qed.

(** *** The stages of [sanitizeContent] *)

Lemma strip_tags_in (s : jsstring) :
  forall (inside : bool) (x : N),
    In x (strip_tags inside s) -> In x s.
Proof.
  induction s as [|c t IH]; intros inside x; simpl; [intros []|].
  destruct inside.
  - intros I. right. exact (IH _ _ I).
  - destruct ((c =? 60) && existsb (N.eqb 62) t).
    + intros I. right. exact (IH _ _ I).
    + intros [E|I]; [left; exact E|right; exact (IH _ _ I)].
Qed.

Lemma strip_tags_no_tag (s : jsstring) :
  forall inside : bool, no_tag (strip_tags inside s) = true.
Proof.
  induction s as [|c t IH]; intros inside; simpl; [reflexivity|].
  destruct inside; [apply IH|].
  destruct (c =? 60) eqn:E; simpl.
  - destruct (existsb (N.eqb 62) t) eqn:X; [apply IH|].
    simpl. rewrite E, IH, andb_true_r. simpl.
    apply negb_true_iff. apply no_close. intros I.
    apply strip_tags_in in I. apply no_close in X. contradiction.
  - rewrite E, IH. reflexivity.
Qed.

Lemma collapse_spaces_thinned (s : jsstring) :
  forall prev : bool, thinned (collapse_spaces prev s) s.
Proof.
  induction s as [|c t IH]; intros prev; simpl; [constructor|].
  destruct (Js.is_space c) eqn:S.
  - destruct prev; [apply thinned_drop; apply IH|].
    apply thinned_keep; [discriminate|discriminate|apply IH].
  - apply thinned_keep; [auto|auto|apply IH].
Qed.

Lemma squeeze_punct_thinned (s : jsstring) : thinned (squeeze_punct s) s.
Proof.
  induction s as [|c t IH]; [constructor|].
  cbn [squeeze_punct].
  destruct (is_punct c && match t with
                          | c' :: _ => is_punct c'
                          | [] => false
                          end).
  - apply thinned_drop. exact IH.
  - apply thinned_keep; [auto|auto|exact IH].
Qed.

Lemma normalize_thinned (s : jsstring) :
  thinned (List.map normalize_quote s) s.
Proof.
  induction s as [|c t IH]; simpl; [constructor|].
  apply thinned_keep; [| |exact IH]; unfold normalize_quote;
    destruct ((c =? 39) || (c =? 8220) || (c =? 8221));
    (discriminate || auto).
Qed.

Lemma filter_thinned (f : N -> bool) (s : jsstring) :
  thinned (List.filter f s) s.
Proof.
  induction s as [|c t IH]; simpl; [constructor|].
  destruct (f c); [apply thinned_keep; auto|apply thinned_drop; exact IH].
Qed.

Lemma trimStart_thinned (s : jsstring) : thinned (Js.trimStart s) s.
Proof.
  induction s as [|c t IH]; simpl; [constructor|].
  destruct (Js.is_space c); [apply thinned_drop; exact IH|].
  apply thinned_refl.
Qed.

Lemma trim_thinned (s : jsstring) : thinned (Js.trim s) s.
Proof.
  unfold Js.trim, Js.trimEnd.
  apply thinned_trans with (b := Js.trimStart s); [|apply trimStart_thinned].
  rewrite <- (rev_involutive (Js.trimStart s)) at 2.
  apply thinned_rev. apply trimStart_thinned.
Qed.

Lemma firstn_thinned (n : nat) (s : jsstring) : thinned (firstn n s) s.
Proof.
  revert n. induction s as [|c t IH]; intros [|n]; simpl.
  - constructor.
  - constructor.
  - apply thinned_drop. apply (IH O).
  - apply thinned_keep; [auto|auto|apply IH].
Qed.

Lemma sanitizeContent_no_tag (s : jsstring) :
  no_tag (sanitizeContent s) = true.
Proof.
  unfold sanitizeContent.
  eapply no_tag_thinned; [apply trim_thinned|].
  eapply no_tag_thinned; [apply filter_thinned|].
  eapply no_tag_thinned; [apply normalize_thinned|].
  eapply no_tag_thinned; [apply squeeze_punct_thinned|].
  eapply no_tag_thinned; [apply collapse_spaces_thinned|].
  apply strip_tags_no_tag.
Qed.

Lemma no_tag_app_plain (s m : jsstring) :
  no_tag s = true -> existsb (N.eqb 62) m = false -> no_tag m = true ->
  no_tag (s ++ m) = true.
Proof.
  intros S M P. induction s as [|c t IH]; simpl in *; [exact P|].
  apply andb_prop in S as [S1 S2]. rewrite (IH S2), andb_true_r.
  destruct (c =? 60); [|reflexivity]. simpl in *.
  rewrite existsb_app, M, orb_false_r. exact S1.
Qed.

(** X21.  The text that [processContentForAI] hands on contains no HTML
    tag, whatever the pages held: in it no [<] has a [>] anywhere after
    it, so the pattern [<[^>]*>] matches nowhere; this holds of the
    truncated text as well. *)
Theorem processed_has_no_tag (scrapingResults : list ScrapingResult) :
  no_tag (pc_content (processContentForAI scrapingResults)) = true.
Proof.
  unfold processContentForAI. cbn [pc_content].
  match goal with |- context [sanitizeContent ?x] =>
    generalize (sanitizeContent_no_tag x); generalize (sanitizeContent x)
  end.
  intros s S.
  destruct (limit <? length s)%nat; [|exact S].
  apply no_tag_app_plain; [|vm_compute; reflexivity|vm_compute; reflexivity].
  unfold Js.substring0. exact (no_tag_thinned _ _ (firstn_thinned limit s) S).
Qed.

(** *** Code units that get through *)

Lemma Forall_within (P : N -> Prop) (s' s : jsstring) :
  (forall x : N, In x s' -> In x s) -> Forall P s -> Forall P s'.
Proof.
  intros H F. apply List.Forall_forall. intros x I.
  rewrite List.Forall_forall in F. apply F, H, I.
Qed.

Lemma squeeze_punct_in (s : jsstring) (x : N) :
  In x (squeeze_punct s) -> In x s.
Proof.
  induction s as [|c t IH]; [intros []|].
  cbn [squeeze_punct].
  destruct (is_punct c && match t with
                          | c' :: _ => is_punct c'
                          | [] => false
                          end).
  - intros I. right. exact (IH I).
  - intros [E|I]; [left; exact E|right; exact (IH I)].
Qed.

Lemma trimStart_in (s : jsstring) (x : N) :
  In x (Js.trimStart s) -> In x s.
Proof.
  induction s as [|c t IH]; simpl; [intros []|].
  destruct (Js.is_space c); [intros I; right; exact (IH I)|].
  intros I. exact I.
Qed.

Lemma trim_in (s : jsstring) (x : N) : In x (Js.trim s) -> In x s.
Proof.
  unfold Js.trim, Js.trimEnd. intros I.
  apply in_rev in I. apply trimStart_in in I. apply in_rev in I.
  apply trimStart_in in I. exact I.
Qed.

Lemma collapse_spaces_plain (s : jsstring) :
  forall prev : bool,
    Forall (fun c => Js.is_space c = true -> c = 32)
      (collapse_spaces prev s).
Proof.
  induction s as [|c t IH]; intros prev; simpl; [constructor|].
  destruct (Js.is_space c) eqn:S.
  - destruct prev; [apply IH|]. constructor; [reflexivity|apply IH].
  - constructor; [congruence|apply IH].
Qed.

Lemma sanitizeContent_clean (s : jsstring) :
  Forall (fun c => clean c = true) (sanitizeContent s).
Proof.
  unfold sanitizeContent.
  eapply Forall_within; [apply trim_in|].
  match goal with |- context [squeeze_punct ?x] =>
    assert (P : Forall (fun c => Js.is_space c = true -> c = 32)
                  (squeeze_punct x))
      by (eapply Forall_within;
          [apply squeeze_punct_in|apply collapse_spaces_plain]);
    revert P; generalize (squeeze_punct x)
  end.
  intros l P. induction P as [|c l Pc P IH]; simpl; [constructor|].
  assert (Q : negb ((normalize_quote c =? 39) || (normalize_quote c =? 8220)
                    || (normalize_quote c =? 8221))
              && (negb (Js.is_space (normalize_quote c))
                  || (normalize_quote c =? 32)) = true).
  { unfold normalize_quote.
    destruct (c =? 39) eqn:A; [reflexivity|].
    destruct (c =? 8220) eqn:B; [reflexivity|].
    destruct (c =? 8221) eqn:C; [reflexivity|].
    simpl. rewrite A, B, C. simpl.
    destruct (Js.is_space c) eqn:S; [|reflexivity].
    rewrite (Pc eq_refl). reflexivity. }
  destruct (is_control (normalize_quote c)) eqn:K; simpl; [exact IH|].
  constructor; [|exact IH].
  unfold clean. rewrite K. cbn [negb andb]. exact Q.
Qed.

(** X22.  Every code unit of the text that [processContentForAI] hands on
    is clean: there is no control character in it (U+0000 to U+001F,
    U+007F to U+009F), no apostrophe and no curly double quote, and the
    only white space left is the plain space; tabs, line breaks and
    no-break spaces of the pages are gone, the separators between the
    sources included. *)
Theorem processed_is_clean (scrapingResults : list ScrapingResult) (c : N) :
  In c (pc_content (processContentForAI scrapingResults)) ->
  is_control c = false
  /\ c <> 39 /\ c <> 8220 /\ c <> 8221
  /\ (Js.is_space c = true -> c = 32).
Proof.
  assert (G : Forall (fun c => clean c = true)
                (pc_content (processContentForAI scrapingResults))).
  { unfold processContentForAI. cbn [pc_content].
    match goal with |- context [sanitizeContent ?x] =>
      generalize (sanitizeContent_clean x); generalize (sanitizeContent x)
    end.
    intros s S.
    destruct (limit <? length s)%nat; [|exact S].
    apply Forall_app. split.
    - eapply Forall_within; [|exact S].
      intros x I. unfold Js.substring0 in I.
      rewrite <- (firstn_skipn limit s). apply in_or_app. left. exact I.
    - apply List.Forall_forall. apply forallb_forall. vm_compute.
      reflexivity. }
  intros I. rewrite List.Forall_forall in G. specialize (G c I).
  unfold clean in G.
  apply andb_prop in G as [G G3]. apply andb_prop in G as [G1 G2].
  apply negb_true_iff in G1. apply negb_true_iff in G2.
  apply orb_false_elim in G2 as [G2 G2c].
  apply orb_false_elim in G2 as [G2a G2b].
  apply N.eqb_neq in G2a, G2b, G2c.
  repeat split; try assumption.
  intros S. rewrite S in G3. simpl in G3. apply N.eqb_eq. exact G3.
Qed.

Lemma processed_is_clean_witness :
  In 34 (pc_content (processContentForAI two_pages))
  /\ (is_control 34 = false
      /\ 34 <> 39 /\ 34 <> 8220 /\ 34 <> 8221
      /\ (Js.is_space 34 = true -> 34 = 32)).
Proof.
  assert (I : In 34 (pc_content (processContentForAI two_pages))).
  { assert (E : existsb (N.eqb 34)
                 (pc_content (processContentForAI two_pages)) = true)
      by (vm_compute; reflexivity).
    apply existsb_exists in E as (x & I & X). apply N.eqb_eq in X.
    subst x. exact I. }
  split; [exact I|].
  exact (processed_is_clean two_pages 34 I).
Defined.

End ProcessorFacts.

Module IntentFacts.

Import Gemini.

Lemma startsWith_split (p s : jsstring) :
  Js.startsWith p s = true -> s = p ++ skipn (length p) s.
Proof.
  revert s. induction p as [|x p IH]; intros s; simpl; [reflexivity|].
  destruct s as [|y s]; [discriminate|].
  intros H. apply andb_prop in H as [E H]. apply N.eqb_eq in E. subst y.
  simpl. f_equal. exact (IH s H).
Qed.

Lemma startsWith_app (p s : jsstring) : Js.startsWith p (p ++ s) = true.
Proof.
  induction p as [|x p IH]; simpl; [reflexivity|].
  rewrite N.eqb_refl. exact IH.
Qed.

Lemma startsWith_app_l (p a b : jsstring) :
  Js.startsWith p a = true -> Js.startsWith p (a ++ b) = true.
Proof.
  revert a. induction p as [|x p IH]; intros a; simpl; [reflexivity|].
  destruct a as [|y a]; [discriminate|]. simpl.
  intros H. apply andb_prop in H as [E H]. rewrite E. exact (IH a H).
Qed.

Lemma includes_head (p s : jsstring) :
  Js.startsWith p s = true -> Js.includes p s = true.
Proof.
  intros H. destruct s; cbn [Js.includes]; rewrite H; reflexivity.
Qed.

Lemma includes_within (u a b : jsstring) :
  Js.includes u (a ++ u ++ b) = true.
Proof.
  induction a as [|x a IH].
  - change ([] ++ u ++ b) with (u ++ b).
    apply includes_head, startsWith_app.
  - cbn [app Js.includes]. rewrite IH. apply orb_true_r.
Qed.

Lemma run_split (s : jsstring) :
  exists rest : jsstring,
    s = run s ++ rest
    /\ forallb (fun c => negb (Js.is_space c)) (run s) = true.
Proof.
  induction s as [|c t (rest & E & F)]; simpl.
  - exists []. split; reflexivity.
  - destruct (Js.is_space c) eqn:S.
    + exists (c :: t). split; reflexivity.
    + exists rest. simpl. rewrite S, F. split; [congruence|reflexivity].
Qed.

(** A match at the head: a scheme, then a run without white space. *)
Lemma url_at_shape (s m : jsstring) :
  url_at s = Some m ->
  (Js.startsWith (Js.lit "http://") m = true
   \/ Js.startsWith (Js.lit "https://") m = true)
  /\ forallb (fun c => negb (Js.is_space c)) m = true
  /\ (8 <= length m)%nat
  /\ exists rest : jsstring, s = m ++ rest.
Proof.
  assert (A : forall scheme : jsstring,
             forallb (fun c => negb (Js.is_space c)) scheme = true ->
             forall (c : N) (r : jsstring),
               Js.startsWith scheme s = true ->
               run (skipn (length scheme) s) = c :: r ->
               Js.startsWith scheme (scheme ++ c :: r) = true
               /\ forallb (fun c => negb (Js.is_space c))
                    (scheme ++ c :: r) = true
               /\ (length scheme + 1 <= length (scheme ++ c :: r))%nat
               /\ exists rest : jsstring, s = (scheme ++ c :: r) ++ rest).
  { intros scheme Q c r P R. split; [apply startsWith_app|].
    destruct (run_split (skipn (length scheme) s)) as (rest & E & F).
    rewrite R in E, F. split; [|split].
    - rewrite forallb_app, Q, F. reflexivity.
    - rewrite length_app. simpl. lia.
    - exists rest. rewrite <- app_assoc, <- E. apply startsWith_split, P. }
  unfold url_at.
  destruct (Js.startsWith (Js.lit "https://") s) eqn:P1.
  - destruct (run (skipn (length (Js.lit "https://")) s)) as [|c r] eqn:R1.
    + destruct (Js.startsWith (Js.lit "http://") s) eqn:P2; [|discriminate].
      exfalso. apply startsWith_split in P1. rewrite P1 in P2.
      vm_compute in P2. discriminate.
    + intros H. apply (inj Some) in H. subst m.
      destruct (A (Js.lit "https://") eq_refl c r P1 R1) as (S & F & L & E).
      split; [right; exact S|]. split; [exact F|]. split; [|exact E].
      change (length (Js.lit "https://")) with 8%nat in L. lia.
  - destruct (Js.startsWith (Js.lit "http://") s) eqn:P2; [|discriminate].
    destruct (run (skipn (length (Js.lit "http://")) s)) as [|c r] eqn:R2;
      [discriminate|].
    intros H. apply (inj Some) in H. subst m.
    destruct (A (Js.lit "http://") eq_refl c r P2 R2) as (S & F & L & E).
    split; [left; exact S|]. split; [exact F|]. split; [|exact E].
    change (length (Js.lit "http://")) with 7%nat in L. lia.
Qed.

Lemma urls_go_found (s : jsstring) :
  forall (skip : nat) (u : jsstring),
    In u (urls_go skip s) ->
    exists before after : jsstring,
      s = before ++ after /\ url_at after = Some u.
Proof.
  induction s as [|c t IH]; intros skip u; simpl; [intros []|].
  assert (Later : forall k : nat,
             In u (urls_go k t) ->
             exists before after : jsstring,
               c :: t = before ++ after /\ url_at after = Some u).
  { intros k I. destruct (IH k u I) as (b & a & E & U).
    exists (c :: b), a. split; [simpl; congruence|exact U]. }
  destruct skip as [|k]; [|apply Later].
  destruct (url_at (c :: t)) as [m|] eqn:U; [|apply Later].
  intros [<-|I]; [|exact (Later _ I)].
  exists [], (c :: t). split; [reflexivity|exact U].
Qed.

(** X23.  What [analyzeQueryIntent] takes out of a message as URLs are
    pieces of the message that begin with [http://] or [https://], have
    at least one more code unit and contain no white space; each of them
    passes the test that [scrapeWebContent] puts on its argument, so a
    URL found in a message is never answered with [Invalid URL
    provided]. *)
Theorem extracted_urls_are_scrapable (query u : jsstring) :
  In u (match_urls query) ->
  Js.includes u query = true
  /\ (Js.startsWith (Js.lit "http://") u = true
      \/ Js.startsWith (Js.lit "https://") u = true)
  /\ forallb (fun c => negb (Js.is_space c)) u = true
  /\ (8 <= length u)%nat
  /\ ScrapeSpec.valid u.
Proof.
  intros I. destruct (urls_go_found query O u I) as (b & a & E & U).
  destruct (url_at_shape a u U) as (S & F & L & rest & R).
  split; [|split; [exact S|split; [exact F|split; [exact L|]]]].
  - rewrite E, R. apply includes_within.
  - split.
    + destruct u; [simpl in L; lia|reflexivity].
    + destruct S as [S|S]; apply startsWith_split in S; rewrite S;
        reflexivity.
Qed.

Lemma extracted_urls_are_scrapable_witness :
  let query := Js.lit "compare https://a.example/x with http://b.example" in
  let u := Js.lit "http://b.example" in
  In u (match_urls query)
  /\ (Js.includes u query = true
      /\ (Js.startsWith (Js.lit "http://") u = true
          \/ Js.startsWith (Js.lit "https://") u = true)
      /\ forallb (fun c => negb (Js.is_space c)) u = true
      /\ (8 <= length u)%nat
      /\ ScrapeSpec.valid u).
Proof.
  intros query u.
  assert (I : In u (match_urls query)).
  { vm_compute. right. left. reflexivity. }
  split; [exact I|]. exact (extracted_urls_are_scrapable query u I).
Defined.

End IntentFacts.

Module SearchFacts.

Import GoogleSearch.






End SearchFacts.

Module QueryFacts.

Import Gemini.

Lemma gathered_invalid (results : list ScrapingResult) :
  Shape.validateScrapingResults (gathered results) = [].
Proof. reflexivity. Qed.

(** X25.  [handleQuery] never puts scraped text into the prompt. It hands
    [validateScrapingResults] the object that [gatherInformation] returns
    instead of the array inside it, the check finds no array and returns
    the empty list, and so, whatever was gathered or searched, the prompt
    is the one without context. *)
Theorem handleQuery_drops_context (x : Replies) (turn : nat -> World)
    (query conversationId : jsstring) (chatHistory : list jsstring)
    (s : Sys) :
  let queryAnalysis := analyzeQueryIntent x query chatHistory in
  fst (handleQuery x turn query conversationId chatHistory s)
  = Ret (createEnhancedPrompt query [] (reasoning queryAnalysis)
           (isCasual queryAnalysis)).
Proof.
  intros qa. unfold handleQuery. fold qa.
  assert (G : forall (urls : list (jsstring * World)) (s0 : Sys),
             exists (results : list ScrapingResult) (s1 : Sys),
               Search.gatherInformation query conversationId urls s0
               = (Ret results, s1)).
  { intros urls s0. unfold Search.gatherInformation.
    destruct (GatherFacts.gather_loop_length urls [] s0) as (r & E & _).
    destruct (Search.gather_loop urls [] s0) as [o s1]. simpl in E.
    subst o. exists r, s1. reflexivity. }
  assert (S : forall (from : nat) (s0 : Sys),
             fst (if needsSearch qa
                  then
                    match Search.gatherInformation query conversationId
                            (with_worlds turn from
                               (List.map sr_url
                                  (GoogleSearch.googleSearch x
                                     match searchQuery qa with
                                     | Given q =>
                                         if Js.truthy q then q else query
                                     | _ => query
                                     end 3))) s0 with
                    | (Ret results, s') =>
                        if (0 <? length (Shape.validateScrapingResults
                                           (gathered results)))%nat
                        then
                          (Ret (createEnhancedPrompt query
                                  (Js.join [10; 10]
                                     (List.map content_of
                                        (Shape.validateScrapingResults
                                           (gathered results))))
                                  (reasoning qa) (isCasual qa)), s')
                        else
                          (Ret (createEnhancedPrompt query []
                                  (reasoning qa) (isCasual qa)), s')
                    | (Throw error, s') => (Throw error, s')
                    end
                  else
                    (Ret (createEnhancedPrompt query [] (reasoning qa)
                            (isCasual qa)), s0))
             = Ret (createEnhancedPrompt query [] (reasoning qa)
                      (isCasual qa))).
  { intros from s0. destruct (needsSearch qa); [|reflexivity].
    match goal with |- context [Search.gatherInformation ?q ?c ?u ?t] =>
      destruct (G u t) as (r & s1 & ->)
    end.
    reflexivity. }
  destruct (0 <? length (extractedUrls qa))%nat.
  - match goal with |- context [Search.gatherInformation ?q ?c ?u ?t] =>
      destruct (G u t) as (r & s1 & ->)
    end.
    rewrite gathered_invalid. cbn [length Nat.ltb Nat.leb]. apply S.
  - apply S.
Qed.

End QueryFacts.

Module FormatFacts.

Import Gemini FormatSpec.

Lemma startsWith_nil (p : jsstring) :
  p <> [] -> Js.startsWith p [] = false.
Proof. destruct p; [contradiction|reflexivity]. Qed.

Lemma clear_nil (m : jsstring) : clear_of m [].
Proof. intros i. rewrite skipn_nil. reflexivity. Qed.

Lemma clear_plain (m a t : jsstring) :
  ~ In 10 a -> clear_of m t -> clear_of m (a ++ t).
Proof.
  intros N C. induction a as [|c a IH]; [exact C|].
  intros [|i].
  - cbn [app skipn Js.startsWith].
    destruct (10 =? c) eqn:E; [|reflexivity].
    apply N.eqb_eq in E. exfalso. apply N. left. symmetry. exact E.
  - cbn [app skipn]. apply IH. intros I. apply N. right. exact I.
Qed.

Lemma clear_mark (m m' t : jsstring) (x x' : N) (r r' : jsstring) :
  m = x :: r -> m' = x' :: r' -> x <> x' -> ~ In 10 m' ->
  clear_of m t -> clear_of m ((10 :: m') ++ t).
Proof.
  intros -> -> Ne N C [|i].
  - cbn [app skipn Js.startsWith]. rewrite N.eqb_refl. cbn [andb].
    destruct (x =? x') eqn:E; [|reflexivity].
    apply N.eqb_eq in E. contradiction.
  - change (skipn (S i) ((10 :: x' :: r') ++ t))
      with (skipn i ((x' :: r') ++ t)).
    apply (clear_plain _ _ _ N C).
Qed.

Lemma group_then_S (rest : jsstring -> option (list jsstring))
    (sep s : jsstring) (n : nat) :
  group_then rest sep s (S n)
  = if Js.startsWith sep (skipn (S n) s) then
      match rest (skipn (S n + length sep) s) with
      | Some gs => Some (firstn (S n) s :: gs)
      | None => group_then rest sep s n
      end
    else group_then rest sep s n.
Proof. reflexivity. Qed.

Lemma skipn_past (a t : jsstring) (j : nat) :
  skipn (length a + j) (a ++ t) = skipn j t.
Proof. induction a as [|c a IH]; [reflexivity|exact IH]. Qed.

Lemma firstn_whole (a t : jsstring) : firstn (length a) (a ++ t) = a.
Proof.
  induction a as [|c a IH]; [reflexivity|]. cbn [length app firstn].
  rewrite IH. reflexivity.
Qed.

(** The longest first group that lets the rest match is [first]. *)
Lemma group_then_found (rest : jsstring -> option (list jsstring))
    (m first body : jsstring) (gs : list jsstring) :
  first <> [] ->
  ~ In 10 first ->
  clear_of m body ->
  Js.startsWith m body = true ->
  rest (skipn (length m) body) = Some gs ->
  forall more : nat,
    group_then rest (10 :: m) (first ++ 10 :: body) (length first + more)
    = Some (first :: gs).
Proof.
  intros F NL C P R.
  assert (K : exists k : nat, length first = S k).
  { destruct first as [|c first']; [contradiction|].
    exists (length first'). reflexivity. }
  destruct K as [k K].
  induction more as [|more IH].
  - rewrite Nat.add_0_r, K, group_then_S, <- K.
    rewrite <- (Nat.add_0_r (length first)) at 1. rewrite skipn_past.
    cbn [skipn Js.startsWith]. rewrite N.eqb_refl, P. cbn [andb].
    rewrite skipn_past. cbn [length skipn]. rewrite R.
    rewrite firstn_whole. reflexivity.
  - replace (length first + S more)%nat
      with (S (length first + more)) by lia.
    rewrite group_then_S.
    replace (S (length first + more))
      with (length first + S more)%nat by lia.
    rewrite skipn_past. cbn [skipn]. rewrite (C more).
    replace (length first + S more)%nat
      with (S (length first + more)) by lia.
    exact IH.
Qed.

Lemma layout_cons (first sep item : jsstring)
    (rest : list (jsstring * jsstring)) :
  layout first ((sep, item) :: rest) = first ++ sep ++ layout item rest.
Proof. unfold layout. simpl. rewrite <- !app_assoc. reflexivity. Qed.

Lemma layout_clear (x : N) (r : jsstring)
    (rest : list (jsstring * jsstring)) :
  marked rest ->
  Forall (fun p => exists (x' : N) (r' : jsstring),
              fst p = 10 :: x' :: r' /\ x <> x') rest ->
  forall item : jsstring,
    ~ In 10 item -> clear_of (x :: r) (layout item rest).
Proof.
  intros M. induction M as [|x1 r1 item1 rest N1 O1 D1 M IH];
    intros D item NL.
  - unfold layout. simpl. rewrite app_nil_r.
    rewrite <- (app_nil_r item). apply clear_plain; [exact NL|apply clear_nil].
  - rewrite layout_cons. apply clear_plain; [exact NL|].
    inversion D as [|p l (x' & r' & E & Ne) D']; subst.
    simpl in E. inversion E; subst.
    apply (clear_mark (x :: r) (x' :: r') _ x x' r r'); try reflexivity;
      try assumption.
    apply IH; [exact D'|exact (proj2 O1)].
Qed.

Lemma groups_layout (rest : list (jsstring * jsstring)) :
  marked rest ->
  forall first : jsstring,
    one_line first ->
    groups (List.map fst rest) (layout first rest)
    = Some (first :: List.map snd rest).
Proof.
  intros M. induction M as [|x r item rest NL O D M IH]; intros first [F L].
  - unfold layout. simpl. rewrite app_nil_r.
    destruct first; [contradiction|reflexivity].
  - rewrite layout_cons. cbn [List.map fst snd groups].
    rewrite length_app.
    rewrite <- (app_comm_cons (x :: r) (layout item rest) 10).
    apply group_then_found; try assumption.
    + apply clear_plain; [exact NL|].
      apply layout_clear; [exact M|exact D|exact (proj2 O)].
    + apply IntentFacts.startsWith_app.
    + rewrite <- (Nat.add_0_r (length (x :: r))), skipn_past.
      apply IH. exact O.
Qed.

(** X26.  An answer in the format that the prompt of the analysis asks
    for, seven numbered items of one line each, is read back item by
    item: [parseListResponse] returns the seven items, trimmed. *)
Theorem parse_reads_the_format (i1 i2 i3 i4 i5 i6 i7 : jsstring) :
  Forall one_line [i1; i2; i3; i4; i5; i6; i7] ->
  parseListResponse (formatted i1 i2 i3 i4 i5 i6 i7)
  = Some (List.map Js.trim [i1; i2; i3; i4; i5; i6; i7]).
Proof.
  intros H.
  repeat match goal with
         | H : Forall _ (_ :: _) |- _ =>
             let A := fresh "A" in
             let B := fresh "B" in
             inversion H as [|? ? A B]; subst; clear H
         end.
  unfold parseListResponse, formatted.
  rewrite IntentFacts.startsWith_app.
  change 3%nat with (length (Js.lit "1. ")).
  rewrite <- (Nat.add_0_r (length (Js.lit "1. "))), skipn_past.
  cbn [skipn].
  change (skipn 0 ?t) with t.
  change [ item_mark "2"; item_mark "3"; item_mark "4"; item_mark "5";
           item_mark "6"; item_mark "7" ]
    with (List.map fst
            [ (item_mark "2", i2); (item_mark "3", i3);
              (item_mark "4", i4); (item_mark "5", i5);
              (item_mark "6", i6); (item_mark "7", i7) ]).
  rewrite groups_layout; [reflexivity| |assumption].
  assert (Other : forall (x x' : N) (item : jsstring),
             x <> x' ->
             exists (y : N) (r' : jsstring),
               fst (10 :: x' :: [46; 32], item) = 10 :: y :: r' /\ x <> y).
  { intros x x' item Ne. exists x', [46; 32]. split; [reflexivity|exact Ne]. }
  assert (Plain : forall x : N, x <> 10 -> ~ In 10 (x :: [46; 32])).
  { intros x Ne [E|[E|[E|[]]]]; [congruence|discriminate|discriminate]. }
  apply (marked_cons 50 [46; 32] i2); [apply Plain; discriminate|assumption| |].
  { repeat (constructor; [apply Other; discriminate|]). constructor. }
  apply (marked_cons 51 [46; 32] i3); [apply Plain; discriminate|assumption| |].
  { repeat (constructor; [apply Other; discriminate|]). constructor. }
  apply (marked_cons 52 [46; 32] i4); [apply Plain; discriminate|assumption| |].
  { repeat (constructor; [apply Other; discriminate|]). constructor. }
  apply (marked_cons 53 [46; 32] i5); [apply Plain; discriminate|assumption| |].
  { repeat (constructor; [apply Other; discriminate|]). constructor. }
  apply (marked_cons 54 [46; 32] i6); [apply Plain; discriminate|assumption| |].
  { repeat (constructor; [apply Other; discriminate|]). constructor. }
  apply (marked_cons 55 [46; 32] i7); [apply Plain; discriminate|assumption| |].
  { constructor. }
  constructor.
Qed.

Lemma parse_reads_the_format_witness :
  parseListResponse
    (formatted (Js.lit "false") (Js.lit "true") (Js.lit "It asks for news.")
       (Js.lit "Search the web.") (Js.lit "latest news ") (Js.lit "none")
       (Js.lit "false"))
  = Some (List.map Js.trim
            [ Js.lit "false"; Js.lit "true"; Js.lit "It asks for news.";
              Js.lit "Search the web."; Js.lit "latest news ";
              Js.lit "none"; Js.lit "false" ]).
Proof.
  apply parse_reads_the_format.
  repeat (constructor;
          [split; [discriminate|vm_compute; intuition discriminate]|]).
  constructor.
Defined.

End FormatFacts.

Module RouteFacts.

Import Route HistorySpec SystemSpec RouteSample.

Lemma storeChat_cases (conversationId userMessage aiResponse : jsstring)
    (w : World) (s : Sys) :
  (store_up w conversationId /\ chat_free w s conversationId)
  \/ (~ (store_up w conversationId /\ chat_free w s conversationId)
      /\ fst (Cache.storeChat conversationId userMessage aiResponse w s)
         = Throw StoreSpec.chat_failure).
Proof.
  unfold store_up, chat_free.
  unfold Cache.storeChat, Redis.lpush, Redis.ltrim0.
  fold (chat_key conversationId).
  remember (chat_key conversationId) as key eqn:K. clear K.
  run_eff.
  destruct (redis_lpush_fault w key) as [e|] eqn:P; simpl.
  { right. split; [|reflexivity]. intros [[H _] _]. discriminate. }
  destruct (Redis.live (redis_clock w) (db s) key) as [[v ex|items]|] eqn:L;
    simpl.
  - right. split; [|reflexivity]. intros [_ H]. exact (H v ex eq_refl).
  - destruct (redis_ltrim_fault w key) as [e|] eqn:T; simpl.
    + right. split; [|reflexivity]. intros [[_ H] _]. discriminate.
    + left. split; [split; reflexivity|]. intros v ex. discriminate.
  - destruct (redis_ltrim_fault w key) as [e|] eqn:T; simpl.
    + right. split; [|reflexivity]. intros [[_ H] _]. discriminate.
    + left. split; [split; reflexivity|]. intros v ex. discriminate.
Qed.

Lemma gather_total (query conversationId : jsstring)
    (urls : list (jsstring * World)) (s : Sys) :
  exists (results : list ScrapingResult) (s' : Sys),
    Search.gatherInformation query conversationId urls s = (Ret results, s').
Proof.
  unfold Search.gatherInformation.
  destruct (GatherFacts.gather_loop_length urls [] s) as (r & E & _).
  destruct (Search.gather_loop urls [] s) as [o s1]. simpl in E.
  subst o. exists r, s1. reflexivity.
Qed.

Lemma gather_step_total (x : Replies) (q : Request) (message id : jsstring)
    (queryAnalysis : QueryAnalysis) (s : Sys) :
  exists (results : list ScrapingResult) (s' : Sys),
    gather x q message id queryAnalysis s = (Ret results, s').
Proof.
  unfold gather.
  destruct (0 <? length (extractedUrls queryAnalysis))%nat.
  - match goal with |- context [Search.gatherInformation ?a ?b ?u ?t] =>
      destruct (gather_total a b u t) as (r & s1 & ->)
    end.
    eexists _, _. reflexivity.
  - destruct (needsSearch queryAnalysis); [|eexists _, _; reflexivity].
    match goal with |- context [if ?c then _ else _] => destruct c end;
      [|eexists _, _; reflexivity].
    match goal with |- context [Search.gatherInformation ?a ?b ?u ?t] =>
      destruct (gather_total a b u t) as (r & s1 & ->)
    end.
    eexists _, _. reflexivity.
Qed.

(** The filter of the handler is [validateScrapingResults] on the array
    of the results. *)
Lemma validated_eq (results : list ScrapingResult) :
  Shape.validateScrapingResults (Arr (List.map Shape.of_result results))
  = List.map Shape.of_result (validated results).
Proof.
  unfold validated. simpl.
  induction results as [|r results IH]; [reflexivity|].
  simpl. destruct (Shape.isValid (Shape.of_result r)); simpl; rewrite IH;
    reflexivity.
Qed.

(** X27.  A request without a conversation id (none, [null] or the empty
    string) is answered with status 400 and [Conversation ID is
    required], and the process state is as before: nothing is stored,
    scraped or launched. *)
Theorem post_requires_conversation (x : Replies) (q : Request) (s : Sys)
    (b : Body) :
  body q = Ret b ->
  conversationId b = Absent \/ conversationId b = IsNull
  \/ conversationId b = Given [] ->
  POST x q s = (Rejected (Js.lit "Conversation ID is required"), s)
  /\ status_of (fst (POST x q s)) = 400%nat.
Proof.
  intros B C.
  assert (E : POST x q s
              = (Rejected (Js.lit "Conversation ID is required"), s)).
  { unfold POST, attempt. rewrite B.
    destruct C as [->|[->| ->]]; reflexivity. }
  rewrite E. split; reflexivity.
Qed.

Lemma post_requires_conversation_witness :
  POST chatty anonymous Sample.boot
  = (Rejected (Js.lit "Conversation ID is required"), Sample.boot)
  /\ status_of (fst (POST chatty anonymous Sample.boot)) = 400%nat.
Proof.
  apply (post_requires_conversation chatty anonymous Sample.boot
           {| message := Given (Js.lit "hi"); conversationId := Absent |}).
  - reflexivity.
  - left. reflexivity.
Defined.

(** What lies behind an answer. *)
Lemma attempt_answered (x : Replies) (q : Request) (s s' : Sys)
    (a : jsstring) (m : Timing)
    (c : option (list Preview * QueryAnalysis)) :
  attempt x q s = (Ret (Answered a m c), s') ->
  exists (b : Body) (msg id : jsstring) (queryAnalysis : QueryAnalysis)
         (results : list ScrapingResult) (s2 : Sys),
    body q = Ret b /\ message b = Given msg /\ conversationId b = Given id
    /\ Js.truthy id = true
    /\ gather x q msg id queryAnalysis s = (Ret results, s2)
    /\ Cache.storeChat id msg a (store_world q) s2 = (Ret tt, s')
    /\ c = (if (0 <? length (firstn MAX_SCRAPING_RESULTS results))%nat
            then Some (List.map preview
                         (firstn MAX_SCRAPING_RESULTS results),
                       queryAnalysis)
            else None).
Proof.
  unfold attempt.
  destruct (body q) as [b|e] eqn:B; [|discriminate].
  destruct (conversationId b) as [| |id] eqn:C; try discriminate.
  destruct (Js.truthy id) eqn:T; [|discriminate].
  rewrite HistoryFacts.getChatHistory_exact.
  destruct (message b) as [| |msg] eqn:M; try discriminate.
  match goal with |- context [gather x q msg id ?qa s] =>
    set (queryAnalysis := qa);
    destruct (gather_step_total x q msg id queryAnalysis s)
      as (results & s2 & G)
  end.
  rewrite G.
  match goal with |- context [Gemini.generateProgressiveResponse x ?p id] =>
    destruct (Gemini.generateProgressiveResponse x p id) as [a'|e];
      [|discriminate]
  end.
  destruct (Cache.storeChat id msg a' (store_world q) s2) as [[[]|e] s3]
    eqn:S; [|discriminate].
  intros H. inversion H; subst.
  exists b, msg, id, queryAnalysis, results, s2.
  repeat split; try assumption; reflexivity.
Qed.

Lemma POST_answered (x : Replies) (q : Request) (s s' : Sys)
    (a : jsstring) (m : Timing)
    (c : option (list Preview * QueryAnalysis)) :
  POST x q s = (Answered a m c, s') ->
  attempt x q s = (Ret (Answered a m c), s').
Proof.
  unfold POST. destruct (attempt x q s) as [[r|e] s1]; [|discriminate].
  intros H. inversion H; subst. reflexivity.
Qed.

(** X28.  Every answer is on record. When the handler responds with
    status 200, the request carried a message and a conversation id, and
    the exchange, the message with the answer that is sent, is the newest
    entry of the stored conversation, which holds at most 50 entries. *)
Theorem post_answer_is_stored (x : Replies) (q : Request) (s s' : Sys)
    (a : jsstring) (m : Timing)
    (c : option (list Preview * QueryAnalysis)) :
  POST x q s = (Answered a m c, s') ->
  exists (b : Body) (msg id : jsstring),
    body q = Ret b /\ message b = Given msg /\ conversationId b = Given id
    /\ forall w' : World,
         hd_error (stored_chat w' s' id)
         = Some (entry_of (store_world q) msg a)
         /\ (length (stored_chat w' s' id) <= 50)%nat.
Proof.
  intros H. apply POST_answered in H.
  destruct (attempt_answered x q s s' a m c H)
    as (b & msg & id & qa & results & s2 & B & M & C & T & G & S & _).
  exists b, msg, id. repeat split; try assumption.
  - destruct (storeChat_cases id msg a (store_world q) s2)
      as [[U F]|[_ E]]; [|rewrite S in E; discriminate].
    rewrite (HistoryFacts.storeChat_exact id msg a _ s2 U F) in S.
    inversion S; subst. unfold stored_chat at 1. unfold Redis.live.
    cbn [db]. rewrite lookup_insert_eq. reflexivity.
  - destruct (storeChat_cases id msg a (store_world q) s2)
      as [[U F]|[_ E]]; [|rewrite S in E; discriminate].
    rewrite (HistoryFacts.storeChat_exact id msg a _ s2 U F) in S.
    inversion S; subst. unfold stored_chat at 1. unfold Redis.live.
    cbn [db]. rewrite lookup_insert_eq. cbn [length].
    rewrite length_take. lia.
Qed.

Lemma post_answer_is_stored_witness :
  exists (b : Body) (msg id : jsstring),
    body (asking "hi" Sample.offline) = Ret b
    /\ message b = Given msg /\ conversationId b = Given id
    /\ forall w' : World,
         hd_error
           (stored_chat w'
              (snd (POST chatty (asking "hi" Sample.offline) Sample.boot))
              id)
         = Some (entry_of (store_world (asking "hi" Sample.offline)) msg
                   (Js.lit "Hello!"))
         /\ (length
               (stored_chat w'
                  (snd (POST chatty (asking "hi" Sample.offline)
                          Sample.boot)) id) <= 50)%nat.
Proof.
  apply (post_answer_is_stored chatty (asking "hi" Sample.offline)
           Sample.boot _ (Js.lit "Hello!")
           {| startTime := 0; analysisTime := 1; scrapingTime := 2;
              processingTime := 1; responseTime := 1; totalTime := 8 |}
           None).
  vm_compute. reflexivity.
Defined.

Lemma validated_gated (results : list ScrapingResult) :
  Forall gated results ->
  Forall (fun r => success r = true
                   /\ Scrape.isContentMeaningful (content r) = true)
    (validated results).
Proof.
  intros G. unfold validated.
  induction G as [|r results Gr G IH]; simpl; [constructor|].
  rewrite (ShapeFacts.gated_valid r Gr).
  destruct (success r) eqn:S; [|exact IH].
  constructor; [|exact IH]. split; [exact S|].
  destruct Gr as [[Gr _] _]. exact (proj2 (Gr S)).
Qed.

Lemma gather_step_gated (x : Replies) (q : Request) (message id : jsstring)
    (queryAnalysis : QueryAnalysis) (s s' : Sys)
    (results : list ScrapingResult) :
  db_sound (db s) ->
  gather x q message id queryAnalysis s = (Ret results, s') ->
  Forall (fun r => success r = true
                   /\ Scrape.isContentMeaningful (content r) = true)
    results.
Proof.
  intros Sound. unfold gather.
  assert (G : forall urls : list (jsstring * World),
             match Search.gatherInformation message id urls s with
             | (Ret rs, s1) => (Ret (validated rs), s1)
             | (Throw error, s1) => (Throw error, s1)
             end = (Ret results, s') ->
             Forall (fun r => success r = true
                              /\ Scrape.isContentMeaningful (content r)
                                 = true) results).
  { intros urls. unfold Search.gatherInformation.
    destruct (ShapeFacts.gather_loop_gated urls [] s Sound
                (List.Forall_nil _)) as (rs & E & Grs).
    destruct (Search.gather_loop urls [] s) as [o s1]. simpl in E. subst o.
    intros H. inversion H; subst. apply validated_gated. exact Grs. }
  destruct (0 <? length (extractedUrls queryAnalysis))%nat; [apply G|].
  destruct (needsSearch queryAnalysis);
    [|intros H; inversion H; constructor].
  match goal with |- context [if ?c then _ else _] => destruct c end;
    [apply G|intros H; inversion H; constructor].
Qed.

(** X29.  What an answer shows as its context are pages that passed the
    quality gate: from a state the process can reach, the previews in a
    response with status 200 stand for one to five results, each of them
    a success whose content is meaningful, and no preview is longer than
    103 code units. *)
Theorem post_context_is_gated (x : Replies) (q : Request) (s s' : Sys)
    (a : jsstring) (m : Timing) (previews : list Preview)
    (queryAnalysis : QueryAnalysis) :
  reachable s ->
  POST x q s = (Answered a m (Some (previews, queryAnalysis)), s') ->
  (1 <= length previews <= 5)%nat
  /\ exists results : list ScrapingResult,
       previews = List.map preview results
       /\ Forall (fun r => success r = true
                           /\ Scrape.isContentMeaningful (content r) = true)
            results
       /\ Forall (fun p => (length (contentPreview p) <= 103)%nat) previews.
Proof.
  intros R H. apply System.reachable_sound in R. apply POST_answered in H.
  destruct (attempt_answered x q s s' a m _ H)
    as (b & msg & id & qa & results & s2 & B & M & C & T & G & S & E).
  pose proof (gather_step_gated x q msg id qa s s2 results R G) as F.
  destruct (0 <? length (firstn MAX_SCRAPING_RESULTS results))%nat eqn:L;
    [|discriminate].
  inversion E; subst. apply Nat.ltb_lt in L.
  rewrite length_map. split.
  - split; [lia|]. rewrite length_take. unfold MAX_SCRAPING_RESULTS. lia.
  - exists (firstn MAX_SCRAPING_RESULTS results).
    split; [reflexivity|]. split.
    + apply List.Forall_forall. intros r I.
      rewrite List.Forall_forall in F. apply F.
      rewrite <- (firstn_skipn MAX_SCRAPING_RESULTS results).
      apply in_or_app. left. exact I.
    + apply List.Forall_forall. intros p I. apply in_map_iff in I.
      destruct I as (r & <- & _). unfold preview. cbn [contentPreview].
      rewrite length_app. unfold Js.substring0. rewrite length_take.
      change (length (Js.lit "...")) with 3%nat. lia.
Qed.

Lemma post_context_is_gated_witness :
  exists (a : jsstring) (m : Timing) (previews : list Preview)
         (queryAnalysis : QueryAnalysis) (s' : Sys),
    POST chatty (asking "read http://a" Sample.offline) Sample.boot
    = (Answered a m (Some (previews, queryAnalysis)), s')
    /\ ((1 <= length previews <= 5)%nat
        /\ exists results : list ScrapingResult,
             previews = List.map preview results
             /\ Forall (fun r =>
                  success r = true
                  /\ Scrape.isContentMeaningful (content r) = true)
                  results
             /\ Forall (fun p => (length (contentPreview p) <= 103)%nat)
                  previews).
Proof.
  assert (E : exists (a : jsstring) (m : Timing) (previews : list Preview)
                     (queryAnalysis : QueryAnalysis) (s' : Sys),
             POST chatty (asking "read http://a" Sample.offline) Sample.boot
             = (Answered a m (Some (previews, queryAnalysis)), s')).
  { set (r := POST chatty (asking "read http://a" Sample.offline)
                Sample.boot).
    vm_compute in r. subst r. eexists _, _, _, _, _. reflexivity. }
  destruct E as (a & m & previews & qa & s' & E).
  exists a, m, previews, qa, s'. split; [exact E|].
  exact (post_context_is_gated chatty
           (asking "read http://a" Sample.offline) Sample.boot s' a m
           previews qa reach_boot E).
Defined.

(** X30.  An answer that cannot be stored is lost. When the model answers
    every prompt but the store rejects the push of the exchange, the
    handler responds with status 500 and the error [Failed to store chat
    history]; the answer that was generated is not sent. *)
Theorem post_store_failure_loses_answer (x : Replies) (q : Request)
    (s : Sys) (b : Body) (msg id : jsstring) :
  body q = Ret b ->
  message b = Given msg ->
  conversationId b = Given id ->
  Js.truthy id = true ->
  (forall prompt : jsstring, exists text : jsstring,
      generate x prompt = Ret text) ->
  redis_lpush_fault (store_world q) (chat_key id) <> None ->
  fst (POST x q s)
  = Failed (Js.lit "Internal server error")
           (Js.lit "Failed to store chat history")
           (if env_development x
            then Some (stack_of x StoreSpec.chat_failure) else None)
  /\ status_of (fst (POST x q s)) = 500%nat.
Proof.
  intros B M C T Gen Down.
  assert (E : attempt x q s
              = (Throw StoreSpec.chat_failure, snd (attempt x q s))).
  { unfold attempt. rewrite B, C, T.
    rewrite HistoryFacts.getChatHistory_exact. rewrite M.
    match goal with |- context [gather x q msg id ?qa s] =>
      destruct (gather_step_total x q msg id qa s) as (results & s2 & ->)
    end.
    match goal with
    |- context [Gemini.generateProgressiveResponse x ?p id] =>
      unfold Gemini.generateProgressiveResponse;
      destruct (Gen p) as [text ->]
    end.
    destruct (storeChat_cases id msg (Js.trim text) (store_world q) s2)
      as [[[U _] _]|[_ F]]; [contradiction|].
    destruct (Cache.storeChat id msg (Js.trim text) (store_world q) s2)
      as [[[]|e] s3]; simpl in F; [discriminate|].
    inversion F; subst. reflexivity. }
  assert (P : fst (POST x q s)
              = Failed (Js.lit "Internal server error")
                  (Js.lit "Failed to store chat history")
                  (if env_development x
                   then Some (stack_of x StoreSpec.chat_failure)
                   else None)).
  { unfold POST. rewrite E. reflexivity. }
  rewrite P. split; reflexivity.
Qed.

Lemma post_store_failure_loses_answer_witness :
  fst (POST chatty (asking "hi" (chat_down Sample.offline)) Sample.boot)
  = Failed (Js.lit "Internal server error")
           (Js.lit "Failed to store chat history")
           (if env_development chatty
            then Some (stack_of chatty StoreSpec.chat_failure) else None)
  /\ status_of
       (fst (POST chatty (asking "hi" (chat_down Sample.offline))
               Sample.boot)) = 500%nat.
Proof.
  apply (post_store_failure_loses_answer chatty
           (asking "hi" (chat_down Sample.offline)) Sample.boot
           {| message := Given (Js.lit "hi");
              conversationId := Given (Js.lit "c1") |}
           (Js.lit "hi") (Js.lit "c1")).
  - reflexivity.
  - reflexivity.
  - reflexivity.
  - reflexivity.
  - intros prompt. exists (Js.lit " Hello! "). reflexivity.
  - discriminate.
Defined.

End RouteFacts.
